(** * Document and image conversion engine: a shallow embedding

    This development embeds the two engine modules of the converter,
    [src/converter.ts] (class [DocumentConverter]) and
    [src/image-converter.ts] (class [ImageConverter]), and the
    [convert] and [batch] commands of [src/cli.ts], and proves
    properties of their dispatch, fallback and reporting logic.

    - JavaScript strings are [string]s holding their UTF-8 encoding;
      JavaScript numbers are binary64 [float]s.
    - The file system is a finite map from paths to nodes.
    - Every asynchronous method is a function in the monad [M]: it takes
      the world (file system and the trace of external calls made so far)
      and either returns a value or throws a message, with the new world.
    - Every collaborator that lives outside the repository (the [path]
      and [mime-types] modules, pdf-parse, mammoth, turndown, marked,
      puppeteer, docx, sharp, Jimp, child processes) is a field of the
      record [Env]; theorems quantify over all environments.

    What the model leaves out:
    - paths are compared as strings, and a file can be written only
      into a directory the map holds;
    - what a browser does to its profile directory while it runs;
    - an error is its message;
    - a child process always ends: its ['error'] or ['close'] handler
      runs, and the checks the handler makes are part of the call;
    - the lines the command line prints are kept apart from the trace
      of the engine, which holds its one [console.warn]. *)

From Stdlib Require Import ZArith Floats String Ascii List Bool Lia Sorted.
From stdpp Require Import gmap strings list.

Open Scope string_scope.
Open Scope Z_scope.

#[local] Set Warnings "-inexact-float".

(* ===================================================================== *)
(** * The JavaScript runtime                                              *)
(* ===================================================================== *)

Module JS.

(** The double-quote character, and a string quoted by it. *)
Definition dq : string := String (ascii_of_nat 34) EmptyString.

Definition quoted (s : string) : string := dq +:+ s +:+ dq.

(** The line break [\r\n]. *)
Definition crlf : string :=
  String (ascii_of_nat 13) (String (ascii_of_nat 10) EmptyString).

Definition code (a : ascii) : N := N_of_ascii a.

Definition in_range (lo hi : N) (a : ascii) : bool :=
  ((lo <=? code a) && (code a <=? hi))%N.


(** [String.prototype.length]: the number of UTF-16 code units of the
    text a UTF-8 string encodes. A continuation byte counts for nothing,
    the lead byte of a four-byte sequence for a surrogate pair. *)
Fixpoint length (s : string) : Z :=
  match s with
  | EmptyString => 0
  | String a t =>
      (if in_range 128 191 a then 0
       else if in_range 240 247 a then 2
       else 1) + length t
  end.

(** The number of bytes of a buffer ([stats.size] of a file). *)
Definition byteLength (s : string) : Z := Z.of_nat (String.length s).

(** The replacement character U+FFFD in UTF-8. *)
Definition replacement : string :=
  String (ascii_of_nat 239) (String (ascii_of_nat 191)
    (String (ascii_of_nat 189) EmptyString)).

(** [buffer.toString('utf-8')]: well-formed sequences are kept, every
    maximal ill-formed part becomes U+FFFD and decoding resumes at the
    byte that broke the sequence. *)
Fixpoint toString_utf8 (b : string) : string :=
  match b with
  | EmptyString => EmptyString
  | String a t =>
      if (code a <? 128)%N then String a (toString_utf8 t)
      else if in_range 194 223 a then
        match t with
        | EmptyString => replacement
        | String c1 t1 =>
            if in_range 128 191 c1
            then String a (String c1 (toString_utf8 t1))
            else replacement +:+ toString_utf8 t
        end
      else if in_range 224 239 a then
        let lo := if (code a =? 224)%N then 160%N else 128%N in
        let hi := if (code a =? 237)%N then 159%N else 191%N in
        match t with
        | EmptyString => replacement
        | String c1 t1 =>
            if in_range lo hi c1 then
              match t1 with
              | EmptyString => replacement
              | String c2 t2 =>
                  if in_range 128 191 c2
                  then String a (String c1 (String c2 (toString_utf8 t2)))
                  else replacement +:+ toString_utf8 t1
              end
            else replacement +:+ toString_utf8 t
        end
      else if in_range 240 244 a then
        let lo := if (code a =? 240)%N then 144%N else 128%N in
        let hi := if (code a =? 244)%N then 143%N else 191%N in
        match t with
        | EmptyString => replacement
        | String c1 t1 =>
            if in_range lo hi c1 then
              match t1 with
              | EmptyString => replacement
              | String c2 t2 =>
                  if in_range 128 191 c2 then
                    match t2 with
                    | EmptyString => replacement
                    | String c3 t3 =>
                        if in_range 128 191 c3
                        then String a (String c1 (String c2 (String c3
                               (toString_utf8 t3))))
                        else replacement +:+ toString_utf8 t2
                    end
                  else replacement +:+ toString_utf8 t1
              end
            else replacement +:+ toString_utf8 t
        end
      else replacement +:+ toString_utf8 t
  end.

(** [String.prototype.toLowerCase]. The ASCII capitals are lowered; the
    Kelvin sign U+212A (bytes 226 132 170) becomes [k], and the dotted
    capital U+0130 (bytes 196 176) becomes [i] followed by the combining
    dot U+0307 (bytes 204 135). No other character lowers to ASCII
    text, and the converter compares a lowered string with ASCII names
    only, so the letters beyond these stay as they are. *)
Definition lower (a : ascii) : ascii :=
  if in_range 65 90 a then ascii_of_N (code a + 32) else a.

Definition is_byte (n : N) (a : ascii) : bool := (code a =? n)%N.

Fixpoint toLowerCase (s : string) : string :=
  match s with
  | EmptyString => EmptyString
  | String a t =>
      match t with
      | String b t1 =>
          if is_byte 196 a && is_byte 176 b then
            String "i" (String (ascii_of_nat 204) (String (ascii_of_nat 135)
              (toLowerCase t1)))
          else
            match t1 with
            | String c t2 =>
                if is_byte 226 a && is_byte 132 b && is_byte 170 c
                then String "k" (toLowerCase t2)
                else String (lower a) (toLowerCase t)
            | EmptyString => String (lower a) (toLowerCase t)
            end
      | EmptyString => String (lower a) EmptyString
      end
  end.

(** [s.startsWith(p)] and [s.includes(p)]. *)
Definition startsWith (s p : string) : bool := String.prefix p s.

Fixpoint includes (s p : string) : bool :=
  String.prefix p s ||
  match s with
  | EmptyString => false
  | String _ t => includes t p
  end.

(** [s.trim() === '']: the string holds nothing but white space and
    line terminators. Those of one byte are U+0009 to U+000D and the
    space; the others are U+00A0 (194 160), U+1680 (225 154 128),
    U+2000 to U+200A, U+2028, U+2029, U+202F (226 128 then 128 to 138,
    168, 169, 175), U+205F (226 129 159), U+3000 (227 128 128) and
    U+FEFF (239 187 191). *)
Definition is_space (a : ascii) : bool :=
  in_range 9 13 a || (code a =? 32)%N.

Definition is_space2 (a b : ascii) : bool :=
  is_byte 194 a && is_byte 160 b.

Definition is_space3 (a b c : ascii) : bool :=
  is_byte 225 a && is_byte 154 b && is_byte 128 c
  || is_byte 226 a && is_byte 128 b
     && (in_range 128 138 c || in_range 168 169 c || is_byte 175 c)
  || is_byte 226 a && is_byte 129 b && is_byte 159 c
  || is_byte 227 a && is_byte 128 b && is_byte 128 c
  || is_byte 239 a && is_byte 187 b && is_byte 191 c.

Fixpoint blank (s : string) : bool :=
  match s with
  | EmptyString => true
  | String a t =>
      if is_space a then blank t
      else
        match t with
        | String b t1 =>
            if is_space2 a b then blank t1
            else
              match t1 with
              | String c t2 => is_space3 a b c && blank t2
              | EmptyString => false
              end
        | EmptyString => false
        end
  end.

(** [s.split(sep)] for a one-character separator. *)
Fixpoint split (sep : ascii) (s : string) : list string :=
  match s with
  | EmptyString => [EmptyString]
  | String a t =>
      if Ascii.eqb a sep then EmptyString :: split sep t
      else match split sep t with
           | [] => [String a EmptyString]
           | h :: r => String a h :: r
           end
  end.

(** Truthiness of an optional string, boolean and number. *)
Definition truthy_str (o : option string) : bool :=
  match o with
  | Some s => negb (String.eqb s EmptyString)
  | None => false
  end.

Definition truthy_bool (o : option bool) : bool :=
  match o with Some b => b | None => false end.

Definition truthy_num (o : option float) : bool :=
  match o with
  | Some x => negb (PrimFloat.eqb x 0 || PrimFloat.is_nan x)
  | None => false
  end.

(** [a || b] on strings, and on numbers. *)
Definition or_str (o : option string) (d : string) : string :=
  if truthy_str o then default d o else d.

Definition or_num (o : option float) (d : float) : float :=
  if truthy_num o then default d o else d.

(** A file size or string length as a number. *)
Definition of_Z (n : Z) : float :=
  match n with
  | Z0 => 0%float
  | Zpos _ => PrimFloat.of_uint63 (Uint63.of_Z n)
  | Zneg p => PrimFloat.opp (PrimFloat.of_uint63 (Uint63.of_Z (Zpos p)))
  end.

Definition signed (s : bool) (m : positive) : Z :=
  if s then Z.neg m else Z.pos m.

Definition zero (s : bool) : float := if s then (-0)%float else 0%float.

(** [Math.round]: the integer nearest to [x], a tie going up. The value
    of a finite float is [m * 2^e]; for [e >= 0] it is an integer. *)
Definition Math_round (x : float) : float :=
  match Prim2SF x with
  | S754_finite s m e =>
      if 0 <=? e then x
      else
        let n := (2 * signed s m + 2 ^ (- e)) / 2 ^ (1 - e) in
        if n =? 0 then zero s else of_Z n
  | _ => x
  end.

(** [Math.ceil]: the least integer not below [x]. *)
Definition Math_ceil (x : float) : float :=
  match Prim2SF x with
  | S754_finite s m e =>
      if 0 <=? e then x
      else
        let n := - ((- signed s m) / 2 ^ (- e)) in
        if n =? 0 then zero s else of_Z n
  | _ => x
  end.

End JS.

(* ===================================================================== *)
(** * Data model                                                          *)
(* ===================================================================== *)

(** ** Options ([ConversionOptions], [ImageConversionOptions]) *)

Record Watermark := {
  wm_text : option string;
  wm_image : option string;
  wm_position : option string;
  wm_opacity : option float;
  wm_fontSize : option float;
  wm_color : option string
}.

Record Effects := {
  fx_blur : option float;
  fx_sharpen : option float;
  fx_brightness : option float;
  fx_contrast : option float;
  fx_saturation : option float;
  fx_hue : option float;
  fx_grayscale : option bool;
  fx_sepia : option bool;
  fx_invert : option bool
}.

Record ImageConversionOptions := {
  io_quality : option float;
  io_width : option float;
  io_height : option float;
  io_fit : option string;
  io_background : option string;
  io_progressive : option bool;
  io_lossless : option bool;
  io_effort : option float;
  io_watermark : option Watermark;
  io_effects : option Effects
}.

Record Margin := {
  mg_top : option string;
  mg_right : option string;
  mg_bottom : option string;
  mg_left : option string
}.

Record PdfOptions := {
  po_format : option string;
  po_landscape : option bool;
  po_printBackground : option bool;
  po_scale : option float;
  po_margin : option Margin;
  po_header : option string;
  po_footer : option string;
  po_prefer_chinese_fonts : option bool
}.

Record ConversionOptions := {
  preserve_formatting : option bool;
  extract_images : option bool;
  image_output_dir : option string;
  image_options : option ImageConversionOptions;
  pdf_options : option PdfOptions
}.

(** The empty option objects [{}]. *)
Definition no_image_options : ImageConversionOptions :=
  {| io_quality := None; io_width := None; io_height := None;
     io_fit := None; io_background := None; io_progressive := None;
     io_lossless := None; io_effort := None; io_watermark := None;
     io_effects := None |}.

Definition no_pdf_options : PdfOptions :=
  {| po_format := None; po_landscape := None; po_printBackground := None;
     po_scale := None; po_margin := None; po_header := None;
     po_footer := None; po_prefer_chinese_fonts := None |}.

Definition no_options : ConversionOptions :=
  {| preserve_formatting := None; extract_images := None;
     image_output_dir := None; image_options := None;
     pdf_options := None |}.

(** ** Results *)

Record ImageConversionResult := {
  ir_success : bool;
  ir_output_path : string;
  ir_message : string;
  ir_original_size : option float;
  ir_new_size : option float;
  ir_compression_ratio : option float
}.

(** The [metadata] object [convertDocument] builds from an image result. *)
Record ImageMetadata := {
  original_size : option float;
  new_size : option float;
  compression_ratio : option float
}.

Record ConversionResult := {
  success : bool;
  output_path : string;
  message : string;
  metadata : option ImageMetadata
}.

Record DocumentInfo := {
  di_format : string;
  di_size : Z;
  di_pages : option float;
  di_title : option string;
  di_author : option string;
  di_created : Z;
  di_modified : Z
}.

Record ImageInfo := {
  ii_format : string;
  ii_width : float;
  ii_height : float;
  ii_channels : float;
  ii_density : option float;
  ii_hasAlpha : bool;
  ii_size : Z;
  ii_colorSpace : option string;
  ii_created : Z;
  ii_modified : Z
}.

Record BatchResult := {
  b_success : Z;
  b_failed : Z;
  b_results : list ImageConversionResult
}.

(** ** What the collaborators exchange with the engine *)

Record PdfInfo := { Title : option string; Author : option string }.

Record PdfData := {
  numpages : float;
  pdf_text : string;
  pdf_info : option PdfInfo
}.

Record MammothHtml := { mh_value : string; mh_messages : list string }.

Variant ContentMetadata :=
  | MetaPdf (info : option PdfInfo)
  | MetaDocx (messages : list string).

(** The intermediate document representation handed from the read stage
    to the write stage. *)
Record Content := {
  text : string;
  html : option string;
  content_metadata : option ContentMetadata
}.

(** A paragraph of the generated Word document. *)
Variant Paragraph := ParaEmpty | ParaText (line : string).

(** The argument of [page.pdf]. *)
Record PdfCall := {
  pc_path : string;
  pc_format : string;
  pc_landscape : option bool;
  pc_printBackground : bool;
  pc_margin : string * string * string * string;
  pc_scale : option float;
  pc_headerFooter : option (string * string)
}.

(** The calls made on a sharp pipeline, in the order they are made. *)
Variant Background := BgColor (c : string) | BgWhite.

Variant Overlay := OverlayBuffer (svg : string) | OverlayFile (path : string).

Variant SharpOp :=
  | SResize (w h : option float) (fit : string) (bg : Background)
  | SBlur (sigma : float)
  | SSharpen (sigma : float)
  | SModulate (brightness saturation hue : option float)
  | SGrayscale
  | SNegate
  | SJpeg (quality : float) (progressive : bool)
  | SPng (quality : float) (progressive : bool)
  | SWebp (quality : float) (lossless : bool) (effort : float)
  | SAvif (quality : float) (lossless : bool) (effort : float)
  | STiff (quality : float)
  | SComposite (input : Overlay) (gravity blend : string).

Record SharpPipeline := {
  sp_input : string;
  sp_density : option float;
  sp_ops : list SharpOp
}.

Record SharpMetadata := {
  sm_width : option float;
  sm_height : option float;
  sm_channels : option float;
  sm_density : option float;
  sm_hasAlpha : option bool;
  sm_space : option string
}.

(** The calls made on a Jimp image. *)
Variant JimpOp :=
  | JResize (w h : float)
  | JBlur (r : float)
  | JBrightness (v : float)
  | JContrast (v : float)
  | JGreyscale
  | JSepia
  | JInvert
  | JQuality (q : float).

Record JimpImage := {
  ji_input : string;
  ji_width : float;
  ji_height : float;
  ji_ops : list JimpOp
}.

(** ** The world: file system and trace *)

Variant Node := File (content : string) | Dir.

Record Stats := { st_size : Z; st_birthtime : Z; st_mtime : Z }.

(** One entry per call that leaves the engine. *)
Variant Event :=
  | EvPathExists (p : string)
  | EvEnsureDir (p : string)
  | EvStat (p : string)
  | EvReadFile (p : string)
  | EvWriteFile (p : string)
  | EvReaddir (p : string)
  | EvMkdtemp (prefix : string)
  | EvSpawn (cmd : string) (args : list string) (vars : list (string * string))
  | EvPdfParse
  | EvMammothHtml
  | EvMammothText
  | EvTurndown
  | EvMarked
  | EvDocxPack
  | EvLaunch
  | EvNewPage
  | EvSetContent
  | EvPagePdf (call : PdfCall)
  | EvBrowserClose
  | EvSharp (op : SharpOp)
  | EvSharpToFile (p : SharpPipeline) (out : string)
  | EvSharpMetadata (p : string)
  | EvJimpRead (p : string)
  | EvJimp (op : JimpOp)
  | EvJimpWrite (img : JimpImage) (out : string)
  | EvWarn (msg : string).

Record World := {
  fs : gmap string Node;
  trace : list Event
}.

(** A call returns a value or throws; the message of the thrown error is
    all the engine ever reads of it. *)
Variant Outcome (A : Type) := Return (a : A) | Throw (msg : string).
Arguments Return {A} a.
Arguments Throw {A} msg.

(** ** The environment: everything outside the repository

    A collaborator may answer differently each time: it reads the whole
    world, trace included. *)
Record Env := {
  (* process and os *)
  platform : string;
  cwd : string;
  tmpdir : string;
  (* path *)
  extname : string -> string;
  dirname : string -> string;
  basename : string -> string -> string;
  join : list string -> string;
  resolve : list string -> string;
  (* mime-types: [None] is the [false] of an unknown type *)
  mime_lookup : string -> option string;
  (* template literals and buffers *)
  num_to_string : float -> string;
  base64 : string -> string;
  (* fs *)
  dir_size : Z;
  file_times : World -> string -> Z * Z;
  mkdtemp_suffix : World -> string;
  (* child_process: the exit code, if the process ran and closed, and
     what it did to the file system *)
  spawn : World -> string -> list string -> list (string * string) ->
          option Z * gmap string Node;
  (* the document libraries *)
  pdfParse : World -> string -> Outcome PdfData;
  mammoth_convertToHtml : World -> string -> Outcome MammothHtml;
  mammoth_extractRawText : World -> string -> Outcome string;
  turndown : World -> string -> Outcome string;
  marked : World -> string -> Outcome string;
  docx_toBuffer : World -> list Paragraph -> Outcome string;
  (* puppeteer *)
  launch : World -> Outcome unit;
  newPage : World -> Outcome unit;
  setContent : World -> string -> Outcome unit;
  page_pdf : World -> string -> PdfCall -> Outcome string;
  browser_close : World -> Outcome unit;
  (* sharp *)
  sharp_call : World -> SharpPipeline -> SharpOp -> option string;
  sharp_toFile : World -> SharpPipeline -> string -> Outcome string;
  sharp_metadata : World -> string -> Outcome SharpMetadata;
  (* Jimp *)
  jimp_read : World -> string -> Outcome (float * float);
  jimp_call : World -> JimpImage -> JimpOp -> option string;
  jimp_write : World -> JimpImage -> string -> Outcome string
}.

(* ===================================================================== *)
(** * The monad of asynchronous methods                                   *)
(* ===================================================================== *)

Definition M (A : Type) : Type := World -> Outcome A * World.

Definition ret {A} (a : A) : M A := fun w => (Return a, w).

Definition throw {A} (msg : string) : M A := fun w => (Throw msg, w).

Definition bind {A B} (m : M A) (k : A -> M B) : M B :=
  fun w =>
    match m w with
    | (Return a, w') => k a w'
    | (Throw e, w') => (Throw e, w')
    end.

Notation "'await' x ':=' m 'in' k" := (bind m (fun x => k))
  (at level 10, x name, m at level 100, k at level 200,
   format "'[v' 'await'  x  ':='  m  'in' '/' k ']'").

Notation "'run' m 'in' k" := (bind m (fun _ => k))
  (at level 10, m at level 100, k at level 200,
   format "'[v' 'run'  m  'in' '/' k ']'").

(** [try { m } catch (error) { h error.message }]. *)
Definition try_catch {A} (m : M A) (h : string -> M A) : M A :=
  fun w =>
    match m w with
    | (Return a, w') => (Return a, w')
    | (Throw e, w') => h e w'
    end.

(** [try { m } finally { f }]: [f] runs on both exits, and an error of
    [f] replaces the outcome of [m]. *)
Definition try_finally {A} (m : M A) (f : M unit) : M A :=
  fun w =>
    match m w with
    | (o, w') =>
        match f w' with
        | (Return _, w'') => (o, w'')
        | (Throw e, w'') => (Throw e, w'')
        end
    end.

Definition log (ev : Event) (w : World) : World :=
  {| fs := fs w; trace := trace w ++ [ev] |}.

(** A call to a collaborator that leaves the file system alone. *)
Definition extern {A} (ev : Event) (f : World -> Outcome A) : M A :=
  fun w => (f w, log ev w).

(** A call that checks its argument and throws when it is refused. *)
Definition checked (ev : Event) (f : World -> option string) : M unit :=
  extern ev (fun w => match f w with
                      | Some e => Throw e
                      | None => Return tt
                      end).

Definition put_fs (m : gmap string Node) (w : World) : World :=
  {| fs := m; trace := trace w |}.

Notation "a === b" := (String.eqb a b) (at level 70, no associativity).

(** [array.includes(s)] on an array of strings. *)
Definition one_of (s : string) (l : list string) : bool :=
  existsb (String.eqb s) l.

(** [String(error)] and the interpolation of a caught error into a
    template literal: the error's name, then its message. *)
Definition error_to_string (e : string) : string := "Error: " +:+ e.

(* ===================================================================== *)
(** * The engine                                                          *)
(* ===================================================================== *)

Section Engine.

Variable env : Env.

(** ** fs-extra *)

(** Writing a file needs its directory; a directory cannot be
    overwritten by a file. *)
Definition fs_write (p content : string) (m : gmap string Node)
  : Outcome (gmap string Node) :=
  match m !! p with
  | Some Dir => Throw ("EISDIR: illegal operation on a directory, open '" +:+ p +:+ "'")
  | _ =>
      match m !! dirname env p with
      | Some Dir => Return (<[p := File content]> m)
      | _ => Throw ("ENOENT: no such file or directory, open '" +:+ p +:+ "'")
      end
  end.

Definition pathExists (p : string) : M bool :=
  fun w =>
    (Return (match fs w !! p with Some _ => true | None => false end),
     log (EvPathExists p) w).

(** The directories above [d], the nearest first: [path.dirname] again
    and again, until it gives back its argument (the root, or [.]). A
    path has no more directories above it than it has characters, which
    bounds the number of steps. *)
Fixpoint above (fuel : nat) (d : string) : list string :=
  match fuel with
  | O => []
  | S k =>
      let up := dirname env d in
      if up === d then [] else up :: above k up
  end.

Definition ancestors (d : string) : list string :=
  above (S (String.length d)) d.

Definition is_file (m : gmap string Node) (p : string) : bool :=
  match m !! p with Some (File _) => true | _ => false end.

Definition make_dirs (dirs : list string) (m : gmap string Node)
  : gmap string Node :=
  foldr (fun d acc => <[d := Dir]> acc) m dirs.

(** [fs.ensureDir(d)] is [mkdir -p]: it makes [d] and every ancestor
    that is missing, and fails, making nothing, when [d] or one of its
    ancestors is a file. *)
Definition ensureDir (d : string) : M unit :=
  fun w =>
    if is_file (fs w) d then
      (Throw ("EEXIST: file already exists, mkdir '" +:+ d +:+ "'"),
       log (EvEnsureDir d) w)
    else if existsb (is_file (fs w)) (ancestors d) then
      (Throw ("ENOTDIR: not a directory, mkdir '" +:+ d +:+ "'"),
       log (EvEnsureDir d) w)
    else
      (Return tt,
       put_fs (make_dirs (d :: ancestors d) (fs w)) (log (EvEnsureDir d) w)).

Definition stat (p : string) : M Stats :=
  fun w =>
    let times := file_times env w p in
    (match fs w !! p with
     | Some (File c) =>
         Return {| st_size := JS.byteLength c;
                   st_birthtime := fst times; st_mtime := snd times |}
     | Some Dir =>
         Return {| st_size := dir_size env;
                   st_birthtime := fst times; st_mtime := snd times |}
     | None => Throw ("ENOENT: no such file or directory, stat '" +:+ p +:+ "'")
     end,
     log (EvStat p) w).

Definition readFile (p : string) : M string :=
  fun w =>
    (match fs w !! p with
     | Some (File c) => Return c
     | Some Dir => Throw "EISDIR: illegal operation on a directory, read"
     | None => Throw ("ENOENT: no such file or directory, open '" +:+ p +:+ "'")
     end,
     log (EvReadFile p) w).

Definition writeFile (p content : string) : M unit :=
  fun w =>
    match fs_write p content (fs w) with
    | Return m => (Return tt, put_fs m (log (EvWriteFile p) w))
    | Throw e => (Throw e, log (EvWriteFile p) w)
    end.

(** The entries of a directory: the base names of the paths it holds. *)
Definition entries (d : string) (m : gmap string Node) : list string :=
  map (fun p => basename env p EmptyString)
      (List.filter (fun p => (dirname env p === d) && negb (p === d))
                   (map fst (map_to_list m))).

Definition readdir (d : string) : M (list string) :=
  fun w =>
    (match fs w !! d with
     | Some Dir => Return (entries d (fs w))
     | Some (File _) => Throw ("ENOTDIR: not a directory, scandir '" +:+ d +:+ "'")
     | None => Throw ("ENOENT: no such file or directory, scandir '" +:+ d +:+ "'")
     end,
     log (EvReaddir d) w).

(** [fs.mkdtemp(prefix)]: a new directory named by the prefix and a
    suffix of the system's choice. *)
Definition mkdtemp (prefix : string) : M string :=
  fun w =>
    let d := prefix +:+ mkdtemp_suffix env w in
    match fs w !! d with
    | Some _ =>
        (Throw ("EEXIST: file already exists, mkdtemp '" +:+ d +:+ "'"),
         log (EvMkdtemp prefix) w)
    | None => (Return d, put_fs (<[d := Dir]> (fs w)) (log (EvMkdtemp prefix) w))
    end.

(** A library call that writes the file it produces at [out]. *)
Definition emit (ev : Event) (f : World -> Outcome string) (out : string)
  : M unit :=
  fun w =>
    match f w with
    | Throw e => (Throw e, log ev w)
    | Return bytes =>
        match fs_write out bytes (fs w) with
        | Return m => (Return tt, put_fs m (log ev w))
        | Throw e => (Throw e, log ev w)
        end
    end.

(** [spawn(cmd, args, {env})], resolved on ['error'] or ['close']. *)
Definition spawn_proc (cmd : string) (args : list string)
    (vars : list (string * string)) : M (option Z) :=
  fun w =>
    let r := spawn env w cmd args vars in
    (Return (fst r), put_fs (snd r) (log (EvSpawn cmd args vars) w)).

(** [console.warn]. *)
Definition warn (msg : string) : M unit :=
  fun w => (Return tt, log (EvWarn msg) w).

(** ** ImageConverter ([src/image-converter.ts]) *)

Definition image_failure (outputPath e : string) : ImageConversionResult :=
  {| ir_success := false; ir_output_path := outputPath;
     ir_message := "Image conversion failed: " +:+ e;
     ir_original_size := None; ir_new_size := None;
     ir_compression_ratio := None |}.


Definition getSupportedImageFormats_output : list string :=
  ["jpg"; "jpeg"; "png"; "webp"; "avif"; "tiff"; "gif"; "bmp"; "pdf"].

(** [mimeType.split('/')[1]]. *)
Definition subtype (mimeType : string) : string :=
  default EmptyString (JS.split "/" mimeType !! 1%nat).

Definition detectImageFormat (filePath : string) : string :=
  let ext := JS.toLowerCase (extname env filePath) in
  let mimeType := mime_lookup env filePath in
  if one_of ext [".jpg"; ".jpeg"] then "jpeg"
  else if ext === ".png" then "png"
  else if ext === ".webp" then "webp"
  else if ext === ".avif" then "avif"
  else if one_of ext [".tiff"; ".tif"] then "tiff"
  else if ext === ".gif" then "gif"
  else if ext === ".bmp" then "bmp"
  else if ext === ".svg" then "svg"
  else if ext === ".heic" then "heic"
  else if ext === ".heif" then "heif"
  else match mimeType with
       | Some mt =>
           if JS.truthy_str mimeType && JS.startsWith mt "image/"
           then subtype mt else "unknown"
       | None => "unknown"
       end.

(** [sharp(inputPath)] and [sharp(inputPath, {density})]: nothing is
    read before [toFile]. *)
Definition sharp (inputPath : string) (density : option float)
  : SharpPipeline :=
  {| sp_input := inputPath; sp_density := density; sp_ops := [] |}.

(** One call on the pipeline: sharp checks the argument, throws when it
    refuses it, and otherwise records the operation. *)
Definition sharp_op (p : SharpPipeline) (op : SharpOp) : M SharpPipeline :=
  run checked (EvSharp op) (fun w => sharp_call env w p op) in
  ret {| sp_input := sp_input p; sp_density := sp_density p;
         sp_ops := sp_ops p ++ [op] |}.

Definition toFile (p : SharpPipeline) (outputPath : string) : M unit :=
  emit (EvSharpToFile p outputPath)
       (fun w => sharp_toFile env w p outputPath) outputPath.

Definition background_of (options : ImageConversionOptions) : Background :=
  if JS.truthy_str (io_background options)
  then BgColor (default EmptyString (io_background options))
  else BgWhite.

Definition getWatermarkGravity (position : string) : string :=
  if position === "top-left" then "northwest"
  else if position === "top-right" then "northeast"
  else if position === "bottom-left" then "southwest"
  else if position === "bottom-right" then "southeast"
  else if position === "center" then "center"
  else "southeast".

(** The vector markup of a text watermark. *)
Definition svgText (fontSize color opacity wmText : string) : string :=
  "
        <svg width=" +:+ JS.quoted "400" +:+ " height=" +:+ JS.quoted "100" +:+ ">
          <text x=" +:+ JS.quoted "200" +:+ " y=" +:+ JS.quoted "50"
  +:+ " font-family=" +:+ JS.quoted "Arial"
  +:+ " font-size=" +:+ JS.quoted fontSize +:+ " 
                fill=" +:+ JS.quoted color
  +:+ " text-anchor=" +:+ JS.quoted "middle"
  +:+ " dominant-baseline=" +:+ JS.quoted "middle" +:+ "
                opacity=" +:+ JS.quoted opacity +:+ ">
            " +:+ wmText +:+ "
          </text>
        </svg>
      ".

Definition addWatermark (pipeline : SharpPipeline) (watermark : Watermark)
  : M SharpPipeline :=
  if JS.truthy_str (wm_text watermark) then
    let fontSize := JS.or_num (wm_fontSize watermark) 24%float in
    let color := JS.or_str (wm_color watermark) "rgba(255, 255, 255, 0.8)" in
    let opacity := JS.or_num (wm_opacity watermark) 0.8%float in
    let textBuffer :=
      svgText (num_to_string env fontSize) color (num_to_string env opacity)
              (default EmptyString (wm_text watermark)) in
    let gravity :=
      getWatermarkGravity (JS.or_str (wm_position watermark) "bottom-right") in
    sharp_op pipeline (SComposite (OverlayBuffer textBuffer) gravity "over")
  else if JS.truthy_str (wm_image watermark) then
    let gravity :=
      getWatermarkGravity (JS.or_str (wm_position watermark) "bottom-right") in
    sharp_op pipeline
      (SComposite (OverlayFile (default EmptyString (wm_image watermark)))
                  gravity "over")
  else ret pipeline.

Definition quality_of (options : ImageConversionOptions) : float :=
  JS.or_num (io_quality options) 80%float.

Definition effort_of (options : ImageConversionOptions) : float :=
  JS.or_num (io_effort options) 4%float.

Definition applySharpFormat (pipeline : SharpPipeline) (targetFormat : string)
    (options : ImageConversionOptions) : M SharpPipeline :=
  let tf := JS.toLowerCase targetFormat in
  if one_of tf ["jpeg"; "jpg"] then
    sharp_op pipeline
      (SJpeg (quality_of options) (JS.truthy_bool (io_progressive options)))
  else if tf === "png" then
    sharp_op pipeline
      (SPng (quality_of options) (JS.truthy_bool (io_progressive options)))
  else if tf === "webp" then
    sharp_op pipeline
      (SWebp (quality_of options) (JS.truthy_bool (io_lossless options))
             (effort_of options))
  else if tf === "avif" then
    sharp_op pipeline
      (SAvif (quality_of options) (JS.truthy_bool (io_lossless options))
             (effort_of options))
  else if tf === "tiff" then
    sharp_op pipeline (STiff (quality_of options))
  else ret pipeline.

Definition wants_resize (options : ImageConversionOptions) : bool :=
  JS.truthy_num (io_width options) || JS.truthy_num (io_height options).

Definition processSvgImage (inputPath outputPath targetFormat : string)
    (options : ImageConversionOptions) : M unit :=
  let pipeline := sharp inputPath (Some 300%float) in
  await pipeline :=
    (if wants_resize options then
       sharp_op pipeline
         (SResize (Some (JS.or_num (io_width options) 800%float))
                  (Some (JS.or_num (io_height options) 600%float))
                  (JS.or_str (io_fit options) "inside")
                  (background_of options))
     else ret pipeline) in
  await pipeline := applySharpFormat pipeline targetFormat options in
  toFile pipeline outputPath.

(** [Jimp.AUTO]. *)
Definition Jimp_AUTO : float := (-1)%float.

Definition jimp_op (image : JimpImage) (op : JimpOp) : M JimpImage :=
  run checked (EvJimp op) (fun w => jimp_call env w image op) in
  ret {| ji_input := ji_input image; ji_width := ji_width image;
         ji_height := ji_height image; ji_ops := ji_ops image ++ [op] |}.

Definition Jimp_read (inputPath : string) : M JimpImage :=
  await dims := extern (EvJimpRead inputPath)
                       (fun w => jimp_read env w inputPath) in
  ret {| ji_input := inputPath; ji_width := fst dims;
         ji_height := snd dims; ji_ops := [] |}.

(** [if (c) image.op()]. *)
Definition jimp_when (c : bool) (op : JimpOp) (image : JimpImage)
  : M JimpImage :=
  if c then jimp_op image op else ret image.

Definition processWithJimp (inputPath outputPath targetFormat : string)
    (options : ImageConversionOptions) : M unit :=
  await image := Jimp_read inputPath in
  await image :=
    jimp_when (wants_resize options)
      (JResize (JS.or_num (io_width options) Jimp_AUTO)
               (JS.or_num (io_height options) Jimp_AUTO)) image in
  await image :=
    match io_effects options with
    | Some effects =>
        await image :=
          jimp_when (JS.truthy_num (fx_blur effects))
            (JBlur (default 0%float (fx_blur effects))) image in
        await image :=
          match fx_brightness effects with
          | Some v => jimp_op image (JBrightness v)
          | None => ret image
          end in
        await image :=
          match fx_contrast effects with
          | Some v => jimp_op image (JContrast v)
          | None => ret image
          end in
        await image :=
          jimp_when (JS.truthy_bool (fx_grayscale effects)) JGreyscale image in
        await image :=
          jimp_when (JS.truthy_bool (fx_sepia effects)) JSepia image in
        jimp_when (JS.truthy_bool (fx_invert effects)) JInvert image
    | None => ret image
    end in
  await image :=
    jimp_when (JS.truthy_num (io_quality options)
               && one_of targetFormat ["jpeg"; "jpg"])
      (JQuality (default 0%float (io_quality options))) image in
  emit (EvJimpWrite image outputPath)
       (fun w => jimp_write env w image outputPath) outputPath.

(** The page an image is embedded in on its way to PDF. *)
Definition image_page (mimeType base64Image : string) : string :=
  "
        <!DOCTYPE html>
        <html>
        <head>
          <style>
            body { margin: 0; padding: 20px; display: flex; justify-content: center; align-items: center; min-height: 100vh; }
            img { max-width: 100%; max-height: 100%; object-fit: contain; }
          </style>
        </head>
        <body>
          <img src=" +:+ JS.quoted ("data:" +:+ mimeType +:+ ";base64," +:+ base64Image)
  +:+ " alt=" +:+ JS.quoted "Image" +:+ " />
        </body>
        </html>
      ".

(** [page.pdf(call)]: the rendering of the page's content is written at
    [call.path]. *)
Definition pagePdf (content : string) (call : PdfCall) : M unit :=
  emit (EvPagePdf call) (fun w => page_pdf env w content call) (pc_path call).

(** [browser = await puppeteer.launch(); try { m } finally
    { if (browser) await browser.close() }]: when the launch throws there
    is no browser to close. *)
Definition with_browser {A} (m : M A) : M A :=
  run extern EvLaunch (launch env) in
  try_finally m (extern EvBrowserClose (browser_close env)).

Definition convertImageToPdf (inputPath outputPath : string)
    (options : ImageConversionOptions) : M unit :=
  with_browser
    (run extern EvNewPage (newPage env) in
     await imageBuffer := readFile inputPath in
     let base64Image := base64 env imageBuffer in
     let mimeType := JS.or_str (mime_lookup env inputPath) "image/jpeg" in
     let html := image_page mimeType base64Image in
     run extern EvSetContent (fun w => setContent env w html) in
     pagePdf html
       {| pc_path := outputPath; pc_format := "A4"; pc_landscape := None;
          pc_printBackground := true;
          pc_margin := ("10mm", "10mm", "10mm", "10mm");
          pc_scale := None; pc_headerFooter := None |}).

(** [if (c) pipeline = pipeline.op()]. *)
Definition sharp_when (c : bool) (op : SharpOp) (p : SharpPipeline)
  : M SharpPipeline :=
  if c then sharp_op p op else ret p.

(** The statements of [processImage] between [let pipeline] and the
    [switch]: resize, then effects. *)
Definition sharp_transforms (pipeline : SharpPipeline)
    (options : ImageConversionOptions) : M SharpPipeline :=
  await pipeline :=
    sharp_when (wants_resize options)
      (SResize (io_width options) (io_height options)
               (JS.or_str (io_fit options) "inside") (background_of options))
      pipeline in
  match io_effects options with
  | Some effects =>
      await pipeline :=
        sharp_when (JS.truthy_num (fx_blur effects))
          (SBlur (default 0%float (fx_blur effects))) pipeline in
      await pipeline :=
        sharp_when (JS.truthy_num (fx_sharpen effects))
          (SSharpen (default 0%float (fx_sharpen effects))) pipeline in
      await pipeline :=
        sharp_when
          (bool_decide (is_Some (fx_brightness effects))
           || bool_decide (is_Some (fx_contrast effects))
           || bool_decide (is_Some (fx_saturation effects))
           || bool_decide (is_Some (fx_hue effects)))
          (SModulate
             (if JS.truthy_num (fx_brightness effects)
              then Some (1 + default 0 (fx_brightness effects))%float
              else None)
             (if JS.truthy_num (fx_saturation effects)
              then Some (1 + default 0 (fx_saturation effects))%float
              else None)
             (fx_hue effects))
          pipeline in
      await pipeline :=
        sharp_when (JS.truthy_bool (fx_grayscale effects)) SGrayscale pipeline in
      sharp_when (JS.truthy_bool (fx_invert effects)) SNegate pipeline
  | None => ret pipeline
  end.

(** How the [try] block of [processImage] is left. A [return] of the
    promise of another method is not awaited inside the [try]: the
    block ends, and an error of that method is not its [catch]'s. *)
Variant Leave :=
  | Finished
  | ReturnJimp
  | ReturnPdf.

(** The [switch] on the lower-cased target format. *)
Definition sharp_encoder (pipeline : SharpPipeline) (targetFormat : string)
    (options : ImageConversionOptions) : M (SharpPipeline + Leave) :=
  let tf := JS.toLowerCase targetFormat in
  if one_of tf ["jpeg"; "jpg"] then
    await pipeline :=
      sharp_op pipeline
        (SJpeg (quality_of options) (JS.truthy_bool (io_progressive options))) in
    ret (inl pipeline)
  else if tf === "png" then
    await pipeline :=
      sharp_op pipeline
        (SPng (quality_of options) (JS.truthy_bool (io_progressive options))) in
    ret (inl pipeline)
  else if tf === "webp" then
    await pipeline :=
      sharp_op pipeline
        (SWebp (quality_of options) (JS.truthy_bool (io_lossless options))
               (effort_of options)) in
    ret (inl pipeline)
  else if tf === "avif" then
    await pipeline :=
      sharp_op pipeline
        (SAvif (quality_of options) (JS.truthy_bool (io_lossless options))
               (effort_of options)) in
    ret (inl pipeline)
  else if tf === "tiff" then
    await pipeline := sharp_op pipeline (STiff (quality_of options)) in
    ret (inl pipeline)
  else if tf === "gif" then ret (inr ReturnJimp)
  else if tf === "bmp" then ret (inr ReturnJimp)
  else if tf === "pdf" then ret (inr ReturnPdf)
  else throw ("Unsupported output format: " +:+ targetFormat).

(** The [try] block of [processImage]. *)
Definition sharp_stage (inputPath outputPath targetFormat : string)
    (options : ImageConversionOptions) : M Leave :=
  let pipeline := sharp inputPath None in
  await pipeline := sharp_transforms pipeline options in
  await encoded := sharp_encoder pipeline targetFormat options in
  match encoded with
  | inr leave => ret leave
  | inl pipeline =>
      await pipeline :=
        match io_watermark options with
        | Some watermark => addWatermark pipeline watermark
        | None => ret pipeline
        end in
      run toFile pipeline outputPath in
      ret Finished
  end.

Definition processImage (inputPath outputPath targetFormat : string)
    (options : ImageConversionOptions) : M unit :=
  let inputFormat := detectImageFormat inputPath in
  if inputFormat === "svg" then
    processSvgImage inputPath outputPath targetFormat options
  else
    await leave :=
      try_catch (sharp_stage inputPath outputPath targetFormat options)
        (fun error =>
           run warn ("Sharp processing failed, falling back to Jimp: "
                     +:+ error_to_string error) in
           run processWithJimp inputPath outputPath targetFormat options in
           ret Finished) in
    match leave with
    | Finished => ret tt
    | ReturnJimp => processWithJimp inputPath outputPath targetFormat options
    | ReturnPdf => convertImageToPdf inputPath outputPath options
    end.

(** [Math.round(compressionRatio * 100) / 100] of
    [(originalSize - newSize) / originalSize * 100]. *)
Definition compressionRatio (originalSize newSize : float) : float :=
  ((originalSize - newSize) / originalSize * 100)%float.

Definition round2 (x : float) : float :=
  (JS.Math_round (x * 100) / 100)%float.

Definition convertImage_body (inputPath outputPath targetFormat : string)
    (options : ImageConversionOptions) : M ImageConversionResult :=
  await found := pathExists inputPath in
  if negb found then throw ("Input file does not exist: " +:+ inputPath)
  else
    run ensureDir (dirname env outputPath) in
    await originalStats := stat inputPath in
    let originalSize := JS.of_Z (st_size originalStats) in
    let inputFormat := detectImageFormat inputPath in
    run processImage inputPath outputPath targetFormat options in
    await newStats := stat outputPath in
    let newSize := JS.of_Z (st_size newStats) in
    ret {| ir_success := true; ir_output_path := outputPath;
           ir_message := "Successfully converted " +:+ inputFormat
                         +:+ " to " +:+ targetFormat;
           ir_original_size := Some originalSize;
           ir_new_size := Some newSize;
           ir_compression_ratio :=
             Some (round2 (compressionRatio originalSize newSize)) |}.

Definition convertImage (inputPath outputPath targetFormat : string)
    (options : ImageConversionOptions) : M ImageConversionResult :=
  try_catch (convertImage_body inputPath outputPath targetFormat options)
            (fun error => ret (image_failure outputPath error)).

Definition getImageInfo (filePath : string) : M ImageInfo :=
  await stats := stat filePath in
  let format := detectImageFormat filePath in
  try_catch
    (await metadata := extern (EvSharpMetadata filePath)
                              (fun w => sharp_metadata env w filePath) in
     ret {| ii_format := format;
            ii_width := JS.or_num (sm_width metadata) 0%float;
            ii_height := JS.or_num (sm_height metadata) 0%float;
            ii_channels := JS.or_num (sm_channels metadata) 0%float;
            ii_density := sm_density metadata;
            ii_hasAlpha := JS.truthy_bool (sm_hasAlpha metadata);
            ii_size := st_size stats;
            ii_colorSpace := sm_space metadata;
            ii_created := st_birthtime stats;
            ii_modified := st_mtime stats |})
    (fun error =>
       try_catch
         (await image := Jimp_read filePath in
          ret {| ii_format := format;
                 ii_width := ji_width image;
                 ii_height := ji_height image;
                 ii_channels := 4%float;
                 ii_density := None;
                 ii_hasAlpha := true;
                 ii_size := st_size stats;
                 ii_colorSpace := None;
                 ii_created := st_birthtime stats;
                 ii_modified := st_mtime stats |})
         (fun jimpError =>
            throw ("Unable to read image metadata: "
                   +:+ error_to_string error))).

(** The extensions [batchConvertImages] picks from the directory. *)
Definition batch_extensions : list string :=
  [".jpg"; ".jpeg"; ".png"; ".webp"; ".avif"; ".tiff"; ".tif"; ".gif";
   ".bmp"; ".svg"; ".heic"; ".heif"].

Definition is_image_file (file : string) : bool :=
  one_of (JS.toLowerCase (extname env file)) batch_extensions.

(** The [for] loop of [batchConvertImages] from the counters and the
    results collected so far. *)
Fixpoint batch_loop (inputDir outputDir targetFormat : string)
    (options : ImageConversionOptions) (imageFiles : list string)
    (acc : BatchResult) : M BatchResult :=
  match imageFiles with
  | [] => ret acc
  | file :: rest =>
      let inputPath := join env [inputDir; file] in
      let outputFileName :=
        basename env file (extname env file) +:+ "." +:+ targetFormat in
      let outputPath := join env [outputDir; outputFileName] in
      await result := convertImage inputPath outputPath targetFormat options in
      batch_loop inputDir outputDir targetFormat options rest
        {| b_success := if ir_success result
                        then b_success acc + 1 else b_success acc;
           b_failed := if ir_success result
                       then b_failed acc else b_failed acc + 1;
           b_results := b_results acc ++ [result] |}
  end.

Definition batchConvertImages (inputDir outputDir targetFormat : string)
    (options : ImageConversionOptions) : M BatchResult :=
  run ensureDir outputDir in
  await files := readdir inputDir in
  let imageFiles := List.filter is_image_file files in
  batch_loop inputDir outputDir targetFormat options imageFiles
    {| b_success := 0; b_failed := 0; b_results := [] |}.

(** [optimizeImage(inputPath, outputPath, quality = 80)]: a conversion
    to the format the file already has. *)
Definition optimize_options (quality : option float)
  : ImageConversionOptions :=
  {| io_quality := Some (default 80%float quality); io_width := None;
     io_height := None; io_fit := None; io_background := None;
     io_progressive := Some true; io_lossless := None; io_effort := None;
     io_watermark := None; io_effects := None |}.

Definition optimizeImage (inputPath outputPath : string)
    (quality : option float) : M ImageConversionResult :=
  let format := detectImageFormat inputPath in
  let options := optimize_options quality in
  convertImage inputPath outputPath format options.

(** ** DocumentConverter ([src/converter.ts]) *)

Definition imageFormats : list string :=
  ["jpeg"; "jpg"; "png"; "webp"; "avif"; "tiff"; "gif"; "bmp"; "svg";
   "heic"; "heif"].

Definition detectFormat (filePath : string) : string :=
  let ext := JS.toLowerCase (extname env filePath) in
  let mimeType := mime_lookup env filePath in
  if ext === ".pdf" then "pdf"
  else if ext === ".docx" then "docx"
  else if ext === ".doc" then "doc"
  else if one_of ext [".html"; ".htm"] then "html"
  else if one_of ext [".md"; ".markdown"] then "md"
  else if ext === ".txt" then "txt"
  else if one_of ext [".jpg"; ".jpeg"] then "jpeg"
  else if ext === ".png" then "png"
  else if ext === ".webp" then "webp"
  else if ext === ".avif" then "avif"
  else if one_of ext [".tiff"; ".tif"] then "tiff"
  else if ext === ".gif" then "gif"
  else if ext === ".bmp" then "bmp"
  else if ext === ".svg" then "svg"
  else if ext === ".heic" then "heic"
  else if ext === ".heif" then "heif"
  else match mimeType with
       | Some mt =>
           if JS.truthy_str mimeType then
             if JS.includes mt "pdf" then "pdf"
             else if JS.includes mt "word" then "docx"
             else if JS.includes mt "html" then "html"
             else if JS.startsWith mt "image/" then subtype mt
             else "txt"
           else "txt"
       | None => "txt"
       end.

(** The [conversion_matrix] of [getSupportedFormats]. *)
Definition conversion_matrix : list (string * list string) :=
  [("pdf", ["txt"; "md"; "html"]);
   ("docx", ["txt"; "md"; "html"; "pdf"]);
   ("html", ["txt"; "md"; "pdf"]);
   ("md", ["html"; "pdf"; "txt"]);
   ("txt", ["html"; "md"; "pdf"]);
   ("jpg", getSupportedImageFormats_output);
   ("jpeg", getSupportedImageFormats_output);
   ("png", getSupportedImageFormats_output);
   ("webp", getSupportedImageFormats_output);
   ("avif", getSupportedImageFormats_output);
   ("tiff", getSupportedImageFormats_output);
   ("gif", getSupportedImageFormats_output);
   ("bmp", getSupportedImageFormats_output);
   ("svg", getSupportedImageFormats_output);
   ("heic", getSupportedImageFormats_output);
   ("heif", getSupportedImageFormats_output)].

(** A pair of formats is in the matrix when the row of the source lists
    the target. *)
Definition in_matrix (source target : string) : bool :=
  existsb (fun row => (fst row === source) && one_of target (snd row))
          conversion_matrix.

Definition readDocument (filePath format : string)
    (options : ConversionOptions) : M Content :=
  await buffer := readFile filePath in
  if format === "pdf" then
    await pdfData := extern EvPdfParse (fun w => pdfParse env w buffer) in
    ret {| text := pdf_text pdfData; html := None;
           content_metadata := Some (MetaPdf (pdf_info pdfData)) |}
  else if format === "docx" then
    await result :=
      extern EvMammothHtml (fun w => mammoth_convertToHtml env w buffer) in
    await textResult :=
      extern EvMammothText (fun w => mammoth_extractRawText env w buffer) in
    ret {| text := textResult; html := Some (mh_value result);
           content_metadata := Some (MetaDocx (mh_messages result)) |}
  else if format === "html" then
    let htmlContent := JS.toString_utf8 buffer in
    await text := extern EvTurndown (fun w => turndown env w htmlContent) in
    ret {| text := text; html := Some htmlContent; content_metadata := None |}
  else if format === "md" then
    let mdContent := JS.toString_utf8 buffer in
    await html := extern EvMarked (fun w => marked env w mdContent) in
    ret {| text := mdContent; html := Some html; content_metadata := None |}
  else
    let text := JS.toString_utf8 buffer in
    ret {| text := text; html := None; content_metadata := None |}.

(** The document shell of the [html] target. *)
Definition html_shell (html : string) : string :=
  "<!DOCTYPE html>
<html>
<head>
  <meta charset=" +:+ JS.quoted "UTF-8" +:+ ">
  <title>Converted Document</title>
  <style>
    body { font-family: Arial, sans-serif; max-width: 800px; margin: 0 auto; padding: 20px; }
    pre { background: #f5f5f5; padding: 10px; border-radius: 5px; }
    code { background: #f5f5f5; padding: 2px 4px; border-radius: 3px; }
  </style>
</head>
<body>
" +:+ html +:+ "
</body>
</html>".

(** The page rendered for the [pdf] target. *)
Definition pdf_shell (fontFamily html : string) : string :=
  "<!DOCTYPE html>
<html>
<head>
  <meta charset=" +:+ JS.quoted "UTF-8" +:+ ">
  <style>
    body { font-family: " +:+ fontFamily +:+ "; line-height: 1.6; margin: 40px; }
    h1, h2, h3 { color: #333; }
    pre { background: #f5f5f5; padding: 10px; border-radius: 5px; }
    code { background: #f5f5f5; padding: 2px 4px; border-radius: 3px; }
  </style>
</head>
<body>
" +:+ html +:+ "
</body>
</html>".

(** [esc]: the three characters of markup are replaced by entities. *)
Fixpoint esc (s : string) : string :=
  match s with
  | EmptyString => EmptyString
  | String a t =>
      (if Ascii.eqb a "&" then "&amp;"
       else if Ascii.eqb a "<" then "&lt;"
       else if Ascii.eqb a ">" then "&gt;"
       else String a EmptyString) +:+ esc t
  end.

Definition page_numbers : string :=
  "<span class=" +:+ JS.quoted "pageNumber" +:+ "></span>/<span class="
  +:+ JS.quoted "totalPages" +:+ "></span>".

Definition headerTemplate (header : option string) : string :=
  if JS.truthy_str header then
    "<div style="
    +:+ JS.quoted "font-size:10px; color:#555; margin-left: 10mm; margin-right: 10mm;"
    +:+ ">" +:+ esc (default EmptyString header) +:+ "</div>"
  else "<div></div>".

Definition footerTemplate (footer : option string) : string :=
  if JS.truthy_str footer then
    "<div style="
    +:+ JS.quoted "font-size:10px; color:#555; margin-left: 10mm; margin-right: 10mm; width:100%; text-align:center;"
    +:+ ">" +:+ esc (default EmptyString footer)
    +:+ "<span style=" +:+ JS.quoted "margin-left:8px;" +:+ ">"
    +:+ page_numbers +:+ "</span></div>"
  else
    "<div style="
    +:+ JS.quoted "font-size:10px; color:#555; text-align:center; width:100%;"
    +:+ ">" +:+ page_numbers +:+ "</div>".

Definition margin_of (pdfOpts : PdfOptions) (side : Margin -> option string)
  : string :=
  JS.or_str (m ← po_margin pdfOpts; side m) "20mm".

Definition pdf_call (outputPath : string) (pdfOpts : PdfOptions) : PdfCall :=
  let hasHeaderFooter :=
    JS.truthy_str (po_header pdfOpts) || JS.truthy_str (po_footer pdfOpts) in
  {| pc_path := outputPath;
     pc_format := JS.or_str (po_format pdfOpts) "A4";
     pc_landscape := Some (JS.truthy_bool (po_landscape pdfOpts));
     pc_printBackground := default true (po_printBackground pdfOpts);
     pc_margin := (margin_of pdfOpts mg_top, margin_of pdfOpts mg_right,
                   margin_of pdfOpts mg_bottom, margin_of pdfOpts mg_left);
     pc_scale := if JS.truthy_num (po_scale pdfOpts)
                 then po_scale pdfOpts else None;
     pc_headerFooter :=
       if hasHeaderFooter
       then Some (headerTemplate (po_header pdfOpts),
                  footerTemplate (po_footer pdfOpts))
       else None |}.

Definition convertToPdf (content : Content) (outputPath : string)
    (options : ConversionOptions) : M unit :=
  with_browser
    (run extern EvNewPage (newPage env) in
     await html :=
       (if negb (JS.truthy_str (html content))
           || match preserve_formatting options with
              | Some false => true
              | _ => false
              end
        then extern EvMarked (fun w => marked env w (text content))
        else ret (default EmptyString (html content))) in
     let preferChinese :=
       default true (o ← pdf_options options; po_prefer_chinese_fonts o) in
     let fontFamily :=
       if preferChinese
       then "'Microsoft YaHei','SimSun','Noto Sans SC','Arial',sans-serif"
       else "Arial, sans-serif" in
     let fullHtml := pdf_shell fontFamily html in
     run extern EvSetContent (fun w => setContent env w fullHtml) in
     let pdfOpts := default no_pdf_options (pdf_options options) in
     pagePdf fullHtml (pdf_call outputPath pdfOpts)).

Definition convertToDocx (content : Content) (outputPath : string) : M unit :=
  let lines := JS.split (ascii_of_nat 10) (text content) in
  let paragraphs :=
    map (fun line => if JS.blank line then ParaEmpty else ParaText line)
        lines in
  await buffer :=
    extern EvDocxPack (fun w => docx_toBuffer env w paragraphs) in
  writeFile outputPath buffer.

(** The write stage. Every target returns the empty partial result
    [{}], which adds nothing to the result of [convertDocument]. *)
Definition writeDocument (content : Content) (outputPath format : string)
    (options : ConversionOptions) : M unit :=
  if format === "txt" then
    writeFile outputPath (text content)
  else if format === "md" then
    await markdown :=
      (if JS.truthy_str (html content)
       then extern EvTurndown
              (fun w => turndown env w (default EmptyString (html content)))
       else ret (text content)) in
    writeFile outputPath markdown
  else if format === "html" then
    await html :=
      (if negb (JS.truthy_str (html content))
       then extern EvMarked (fun w => marked env w (text content))
       else ret (default EmptyString (html content))) in
    writeFile outputPath (html_shell html)
  else if format === "pdf" then
    convertToPdf content outputPath options
  else if format === "docx" then
    convertToDocx content outputPath
  else throw ("Unsupported output format: " +:+ format).

(** The script handed to [cscript]. *)
Definition vbs : string :=
  String.concat JS.crlf
    ["On Error Resume Next";
     "Dim inputPath, outputPath";
     "inputPath = WScript.Arguments(0)";
     "outputPath = WScript.Arguments(1)";
     "Dim word";
     "Set word = CreateObject(" +:+ JS.quoted "Word.Application" +:+ ")";
     "If Err.Number <> 0 Then WScript.Quit 1";
     "word.Visible = False";
     "Dim doc";
     "Set doc = word.Documents.Open(inputPath)";
     "If Err.Number <> 0 Then WScript.Quit 2";
     "doc.ExportAsFixedFormat outputPath, 17";
     "doc.Close False";
     "word.Quit"].

(** The check made after a helper has exited: the output exists and is
    not empty. *)
Definition output_present (outputPath : string) : M bool :=
  await found := pathExists outputPath in
  if found then
    await st := stat outputPath in
    ret (0 <? st_size st)
  else ret false.

Definition exited_cleanly (code : option Z) : bool :=
  match code with
  | Some c => c =? 0
  | None => false
  end.

Definition convertDocxToPdfViaWordCom (inputPath outputPath : string)
  : M bool :=
  if negb (platform env === "win32") then ret false
  else
    try_catch
      (await tempDir := mkdtemp (join env [tmpdir env; "docx2pdf-"]) in
       let vbsPath := join env [tempDir; "docx2pdf.vbs"] in
       run writeFile vbsPath vbs in
       await code :=
         spawn_proc "cscript" ["//nologo"; vbsPath; inputPath; outputPath] [] in
       if exited_cleanly code then output_present outputPath
       else ret false)
      (fun _ => ret false).

Definition python_vars : list (string * string) :=
  [("DOCX_PDF_METHOD", "word"); ("DOCX_PDF_SKIP_MCP", "1")].

Definition convertDocxToPdfViaPython (inputPath outputPath : string)
  : M bool :=
  try_catch
    (let scriptPath :=
       resolve env [cwd env; "DocumentAssistant"; "docx_to_pdf_converter.py"] in
     await scriptExists := pathExists scriptPath in
     if negb scriptExists then ret false
     else
       let args := [scriptPath; inputPath; outputPath] in
       await code := spawn_proc "python" args python_vars in
       await ok :=
         (if negb (exited_cleanly code) then
            await code := spawn_proc "py" ("-3" :: args) python_vars in
            ret (exited_cleanly code)
          else ret true) in
       if ok then output_present outputPath
       else ret false)
    (fun _ => ret false).

Definition conversion_failure (outputPath e : string) : ConversionResult :=
  {| success := false; output_path := outputPath;
     message := "Conversion failed: " +:+ e; metadata := None |}.

Definition converted (outputPath msg : string) : ConversionResult :=
  {| success := true; output_path := outputPath; message := msg;
     metadata := None |}.

(** The two dedicated strategies for Word documents going to PDF; the
    result, if one of them made the file. *)
Definition docx_to_pdf_strategies (inputPath outputPath : string)
  : M (option ConversionResult) :=
  await usedWordCom := convertDocxToPdfViaWordCom inputPath outputPath in
  if usedWordCom then
    ret (Some (converted outputPath
      "Successfully converted docx to pdf via Microsoft Word (COM)"))
  else
    await usedPython := convertDocxToPdfViaPython inputPath outputPath in
    if usedPython then
      ret (Some (converted outputPath
        "Successfully converted docx to pdf via DocumentAssistant script"))
    else ret None.

(** What [convertDocument] does once the dedicated strategies are behind
    it: the image converter for an image, the read and write stages for
    a document. *)
Definition generic_path (inputPath outputPath targetFormat : string)
    (options : ConversionOptions) (inputFormat : string)
  : M ConversionResult :=
  if one_of inputFormat imageFormats then
    await imageResult :=
      convertImage inputPath outputPath targetFormat
        (default no_image_options (image_options options)) in
    ret {| success := ir_success imageResult;
           output_path := ir_output_path imageResult;
           message := ir_message imageResult;
           metadata :=
             Some {| original_size := ir_original_size imageResult;
                     new_size := ir_new_size imageResult;
                     compression_ratio :=
                       ir_compression_ratio imageResult |} |}
  else
    await content := readDocument inputPath inputFormat options in
    run writeDocument content outputPath targetFormat options in
    ret (converted outputPath
           ("Successfully converted " +:+ inputFormat +:+ " to "
            +:+ targetFormat)).

(** The [try] block of [convertDocument]. *)
Definition convertDocument_body (inputPath outputPath targetFormat : string)
    (options : ConversionOptions) : M ConversionResult :=
  await found := pathExists inputPath in
  if negb found then throw ("Input file does not exist: " +:+ inputPath)
  else
    run ensureDir (dirname env outputPath) in
    let inputFormat := detectFormat inputPath in
    await early :=
      (if (inputFormat === "docx") && (targetFormat === "pdf")
       then docx_to_pdf_strategies inputPath outputPath
       else ret None) in
    match early with
    | Some result => ret result
    | None =>
        generic_path inputPath outputPath targetFormat options inputFormat
    end.

Definition convertDocument (inputPath outputPath targetFormat : string)
    (options : ConversionOptions) : M ConversionResult :=
  try_catch (convertDocument_body inputPath outputPath targetFormat options)
            (fun error => ret (conversion_failure outputPath error)).

(** [Math.ceil(result.value.length / 2000)]. *)
Definition estimated_pages (rawText : string) : float :=
  JS.Math_ceil (JS.of_Z (JS.length rawText) / 2000)%float.

Definition getDocumentInfo (filePath : string) : M DocumentInfo :=
  await stats := stat filePath in
  let format := detectFormat filePath in
  let info :=
    {| di_format := format; di_size := st_size stats; di_pages := None;
       di_title := None; di_author := None;
       di_created := st_birthtime stats; di_modified := st_mtime stats |} in
  try_catch
    (if one_of format imageFormats then
       await imageInfo := getImageInfo filePath in
       ret {| di_format := ii_format imageInfo;
              di_size := ii_size imageInfo;
              di_pages := Some 1%float;
              di_title :=
                Some (basename env filePath (extname env filePath));
              di_author := None;
              di_created := ii_created imageInfo;
              di_modified := ii_modified imageInfo |}
     else if format === "pdf" then
       await buffer := readFile filePath in
       await pdfData := extern EvPdfParse (fun w => pdfParse env w buffer) in
       ret {| di_format := format; di_size := st_size stats;
              di_pages := Some (numpages pdfData);
              di_title := i ← pdf_info pdfData; Title i;
              di_author := i ← pdf_info pdfData; Author i;
              di_created := st_birthtime stats;
              di_modified := st_mtime stats |}
     else if format === "docx" then
       await buffer := readFile filePath in
       await rawText :=
         extern EvMammothText
                (fun w => mammoth_extractRawText env w buffer) in
       ret {| di_format := format; di_size := st_size stats;
              di_pages := Some (estimated_pages rawText);
              di_title := None; di_author := None;
              di_created := st_birthtime stats;
              di_modified := st_mtime stats |}
     else ret info)
    (fun _ => ret info).



(** The paragraphs [convertToDocx] hands to the packer. *)
Definition docx_paragraphs (text : string) : list Paragraph :=
  map (fun line => if JS.blank line then ParaEmpty else ParaText line)
      (JS.split (ascii_of_nat 10) text).

End Engine.

(* ===================================================================== *)
(** * Concrete hosts                                                      *)
(* ===================================================================== *)

(** The [path] module of a POSIX host on paths that are already
    normalised: enough to run the engine on examples. *)
Module Posix.

Definition sep : ascii := "/".

Definition last_part (p : string) : string :=
  List.last (JS.split sep p) EmptyString.

Definition dirname (p : string) : string :=
  match removelast (JS.split sep p) with
  | [] => "."
  | parts =>
      let d := String.concat "/" parts in
      if d === EmptyString then "/" else d
  end.

Definition extname (p : string) : string :=
  match JS.split "." (last_part p) with
  | [] | [_] => EmptyString
  | [first; rest] =>
      if first === EmptyString then EmptyString else "." +:+ rest
  | parts => "." +:+ List.last parts EmptyString
  end.

Fixpoint strip_suffix (n : nat) (s : string) : string :=
  match n with
  | O => EmptyString
  | S k =>
      match s with
      | EmptyString => EmptyString
      | String a t => String a (strip_suffix k t)
      end
  end.

Definition ends_with (s suffix : string) : bool :=
  let n := String.length s in
  let k := String.length suffix in
  (k <=? n)%nat && (String.substring (n - k) k s === suffix).

Definition basename (p ext : string) : string :=
  let b := last_part p in
  if negb (ext === EmptyString) && negb (b === ext) && ends_with b ext
  then strip_suffix (String.length b - String.length ext) b
  else b.

Definition join (parts : list string) : string := String.concat "/" parts.

Definition mime_lookup (p : string) : option string :=
  let ext := JS.toLowerCase (extname p) in
  if ext === ".txt" then Some "text/plain"
  else if ext === ".md" then Some "text/markdown"
  else if ext === ".pdf" then Some "application/pdf"
  else if ext === ".png" then Some "image/png"
  else if ext === ".svg" then Some "image/svg+xml"
  else None.

End Posix.

(** A host on which the document libraries, puppeteer and Jimp answer
    when [up], sharp writes when [sharp_up], and each throws when not.
    No helper process can be started on it. *)
Definition answer {A} (up : bool) (a : A) : Outcome A :=
  if up then Return a else Throw "unavailable".

Definition host (platform : string) (up sharp_up : bool) : Env :=
  {| platform := platform;
     cwd := "/app";
     tmpdir := "/tmp";
     extname := Posix.extname;
     dirname := Posix.dirname;
     basename := Posix.basename;
     join := Posix.join;
     resolve := Posix.join;
     mime_lookup := Posix.mime_lookup;
     num_to_string := fun x => if PrimFloat.eqb x 24 then "24" else "0.8";
     base64 := fun s => s;
     dir_size := 4096;
     file_times := fun _ _ => (0, 0);
     mkdtemp_suffix := fun _ => "Ab12Cd";
     spawn := fun w _ _ _ => (None, fs w);
     pdfParse := fun _ _ =>
       answer up {| numpages := 1; pdf_text := "Report"; pdf_info := None |};
     mammoth_convertToHtml := fun _ _ =>
       answer up {| mh_value := "<p>Minutes</p>"; mh_messages := [] |};
     mammoth_extractRawText := fun _ _ => answer up "Minutes";
     turndown := fun _ s => answer up s;
     marked := fun _ s => answer up ("<p>" +:+ s +:+ "</p>");
     docx_toBuffer := fun _ _ => answer up "PK";
     launch := fun _ => answer up tt;
     newPage := fun _ => answer up tt;
     setContent := fun _ _ => answer up tt;
     page_pdf := fun _ _ _ => answer up "%PDF";
     browser_close := fun _ => Return tt;
     sharp_call := fun _ _ _ => None;
     sharp_toFile := fun _ _ _ => answer sharp_up "pixels";
     sharp_metadata := fun _ _ => Throw "unavailable";
     jimp_read := fun _ _ => answer up (1%float, 1%float);
     jimp_call := fun _ _ _ => None;
     jimp_write := fun _ _ _ => answer up "bitmap" |}.

Definition disk (files : list (string * Node)) : World :=
  {| fs := list_to_map files; trace := [] |}.

(** A directory [/in] holding one file. *)
Definition one_file (name content : string) : World :=
  disk [("/in", Dir); ("/in/" +:+ name, File content)].

(** The hosts and files of the examples. *)
Definition linux : Env := host "linux" true true.
Definition linux_without_sharp : Env := host "linux" true false.
Definition windows : Env := host "win32" true true.

Definition note : World := one_file "note.txt" "hello".
Definition report : World := one_file "report.pdf" "%PDF-1.4".
Definition minutes : World := one_file "minutes.docx" "PK".
Definition photo : World := one_file "photo.png" "0123456789".
Definition drawing : World := one_file "drawing.svg" "<svg/>".

Definition photos : World :=
  disk [("/in", Dir); ("/in/a.jpg", File "aaaa"); ("/in/b.txt", File "bbb");
        ("/in/c.gif", File "cc")].



(** A photo resized and stamped with a text watermark. *)
Definition stamped : ImageConversionOptions :=
  {| io_quality := None; io_width := Some 100%float; io_height := None;
     io_fit := None; io_background := None; io_progressive := None;
     io_lossless := None; io_effort := None;
     io_watermark :=
       Some {| wm_text := Some "draft"; wm_image := None;
               wm_position := Some "center"; wm_opacity := None;
               wm_fontSize := None; wm_color := None |};
     io_effects := None |}.

Definition stamp : SharpOp :=
  SComposite
    (OverlayBuffer (svgText "24" "rgba(255, 255, 255, 0.8)" "0.8" "draft"))
    "center" "over".

Definition photo_stamped : Outcome ImageConversionResult * World :=
  convertImage linux "/in/photo.png" "/out/photo.jpg" "jpg" stamped photo.

(** A photo converted to JPEG. *)
Definition photo_to_jpg : Outcome ImageConversionResult * World :=
  convertImage linux "/in/photo.png" "/out/photo.jpg" "jpg"
    no_image_options photo.

(** A drawing converted while sharp cannot write, and to BMP. *)
Definition drawing_to_png : Outcome ImageConversionResult * World :=
  convertImage linux_without_sharp "/in/drawing.svg" "/out/drawing.png" "png"
    no_image_options drawing.

Definition drawing_to_bmp : Outcome ImageConversionResult * World :=
  convertImage linux "/in/drawing.svg" "/out/drawing.bmp" "bmp"
    no_image_options drawing.

(** Minutes converted to PDF on Windows, where no helper starts. *)
Definition minutes_to_pdf : Outcome ConversionResult * World :=
  convertDocument windows "/in/minutes.docx" "/out/minutes.pdf" "pdf"
    no_options minutes.


Definition drawing_with_out : World := snd (ensureDir linux "/out" drawing).

(** A directory of papers, with a picture among them, and
    [path.parse(file).name] on the POSIX host. *)
Definition papers : World :=
  disk [("/in", Dir); ("/in/note.txt", File "hello");
        ("/in/photo.png", File "0123456789");
        ("/in/readme.md", File "# Read me")].

Definition posix_name (file : string) : string :=
  Posix.basename file (Posix.extname file).


(** The host [e] with the helper processes of [processes]. *)
Definition with_processes (e : Env)
    (processes : World -> string -> list string -> list (string * string) ->
                 option Z * gmap string Node) : Env :=
  {| platform := platform e;
     cwd := cwd e;
     tmpdir := tmpdir e;
     extname := extname e;
     dirname := dirname e;
     basename := basename e;
     join := join e;
     resolve := resolve e;
     mime_lookup := mime_lookup e;
     num_to_string := num_to_string e;
     base64 := base64 e;
     dir_size := dir_size e;
     file_times := file_times e;
     mkdtemp_suffix := mkdtemp_suffix e;
     spawn := processes;
     pdfParse := pdfParse e;
     mammoth_convertToHtml := mammoth_convertToHtml e;
     mammoth_extractRawText := mammoth_extractRawText e;
     turndown := turndown e;
     marked := marked e;
     docx_toBuffer := docx_toBuffer e;
     launch := launch e;
     newPage := newPage e;
     setContent := setContent e;
     page_pdf := page_pdf e;
     browser_close := browser_close e;
     sharp_call := sharp_call e;
     sharp_toFile := sharp_toFile e;
     sharp_metadata := sharp_metadata e;
     jimp_read := jimp_read e;
     jimp_call := jimp_call e;
     jimp_write := jimp_write e |}.

(** Windows with Word installed: [cscript] writes the PDF named by its
    last argument and exits with code 0; no other process starts. *)
Definition windows_with_word : Env :=
  with_processes windows
    (fun w cmd args _ =>
       if cmd === "cscript"
       then (Some 0, <[List.last args EmptyString := File "%PDF-1.7"]> (fs w))
       else (None, fs w)).

Definition minutes_by_word : Outcome ConversionResult * World :=
  convertDocument windows_with_word "/in/minutes.docx" "/out/minutes.pdf"
    "pdf" no_options minutes.

(* ===================================================================== *)
(** * Notions the properties are stated with                              *)
(* ===================================================================== *)

(** The size [stat] reports for a path, if the path exists. *)
Definition size_of (env : Env) (m : gmap string Node) (p : string)
  : option Z :=
  match m !! p with
  | Some (File c) => Some (JS.byteLength c)
  | Some Dir => Some (dir_size env)
  | None => None
  end.

(** ** Footprints on the file system

    What a run may do to the file system: anything, or write files at
    the paths of a set and make directories there, leaving every other
    path and every directory as it is. *)
Variant Footprint := Anywhere | Paths (allowed : string -> Prop).

Definition touches (F : Footprint) (p : string) : Prop :=
  match F with
  | Anywhere => True
  | Paths allowed => allowed p
  end.

Definition within (F : Footprint) (m m' : gmap string Node) : Prop :=
  match F with
  | Anywhere => True
  | Paths allowed =>
      (forall p, ~ allowed p -> m' !! p = m !! p) /\
      (forall p, m !! p = Some Dir -> m' !! p = Some Dir)
  end.

Definition anywhere : Footprint := Anywhere.
Definition nowhere : Footprint := Paths (fun _ => False).
Definition only (out : string) : Footprint := Paths (fun p => p = out).
Definition any_value {A} : A -> Prop := fun _ => True.

(** No restriction on the calls made. *)
Definition any_call : Event -> Prop := fun _ => True.

(** The targets the write stage of the document pipeline knows. *)
Definition text_targets : list string := ["txt"; "md"; "html"; "pdf"; "docx"].

(** The number of successes and of failures in a list of results. *)
Definition succeeded (results : list ImageConversionResult) : Z :=
  Z.of_nat (length (List.filter ir_success results)).

Definition failed (results : list ImageConversionResult) : Z :=
  Z.of_nat (length (List.filter (fun r => negb (ir_success r)) results)).


(** ** The calls on the sharp pipeline, stage by stage *)

Definition call_if (c : bool) (op : SharpOp) : list SharpOp :=
  if c then [op] else [].

(** Resize and fit. *)
Definition resize_calls (options : ImageConversionOptions) : list SharpOp :=
  call_if (wants_resize options)
    (SResize (io_width options) (io_height options)
             (JS.or_str (io_fit options) "inside") (background_of options)).

(** Effects. *)
Definition effect_calls (options : ImageConversionOptions) : list SharpOp :=
  match io_effects options with
  | Some effects =>
      call_if (JS.truthy_num (fx_blur effects))
        (SBlur (default 0%float (fx_blur effects)))
      ++ call_if (JS.truthy_num (fx_sharpen effects))
           (SSharpen (default 0%float (fx_sharpen effects)))
      ++ call_if
           (bool_decide (is_Some (fx_brightness effects))
            || bool_decide (is_Some (fx_contrast effects))
            || bool_decide (is_Some (fx_saturation effects))
            || bool_decide (is_Some (fx_hue effects)))
           (SModulate
              (if JS.truthy_num (fx_brightness effects)
               then Some (1 + default 0 (fx_brightness effects))%float
               else None)
              (if JS.truthy_num (fx_saturation effects)
               then Some (1 + default 0 (fx_saturation effects))%float
               else None)
              (fx_hue effects))
      ++ call_if (JS.truthy_bool (fx_grayscale effects)) SGrayscale
      ++ call_if (JS.truthy_bool (fx_invert effects)) SNegate
  | None => []
  end.

(** The options of the encoder. *)
Definition encoder_calls (targetFormat : string)
    (options : ImageConversionOptions) : list SharpOp :=
  let tf := JS.toLowerCase targetFormat in
  if one_of tf ["jpeg"; "jpg"] then
    [SJpeg (quality_of options) (JS.truthy_bool (io_progressive options))]
  else if tf === "png" then
    [SPng (quality_of options) (JS.truthy_bool (io_progressive options))]
  else if tf === "webp" then
    [SWebp (quality_of options) (JS.truthy_bool (io_lossless options))
           (effort_of options)]
  else if tf === "avif" then
    [SAvif (quality_of options) (JS.truthy_bool (io_lossless options))
           (effort_of options)]
  else if tf === "tiff" then [STiff (quality_of options)]
  else [].

(** The stage of the transform chain a call belongs to. *)
Definition stage (op : SharpOp) : nat :=
  match op with
  | SResize _ _ _ _ => 1
  | SBlur _ | SSharpen _ | SModulate _ _ _ | SGrayscale | SNegate => 2
  | SJpeg _ _ | SPng _ _ | SWebp _ _ _ | SAvif _ _ _ | STiff _ => 3
  | SComposite _ _ _ => 4
  end.

(** A pipeline after more calls, and a world after more events. *)
Definition extend (p : SharpPipeline) (calls : list SharpOp) : SharpPipeline :=
  {| sp_input := sp_input p; sp_density := sp_density p;
     sp_ops := sp_ops p ++ calls |}.

Definition logs (events : list Event) (w : World) : World :=
  {| fs := fs w; trace := trace w ++ events |}.

(** [m] makes the calls [calls] on the pipeline [p], in this order, and
    nothing else: it returns the pipeline extended by them, or throws
    when sharp refuses one of them. *)
Definition builds (m : M SharpPipeline) (p : SharpPipeline)
    (calls : list SharpOp) : Prop :=
  forall w,
    match m w with
    | (Return p', w') => p' = extend p calls /\ w' = logs (map EvSharp calls) w
    | (Throw _, w') => exists tried, w' = logs (map EvSharp tried) w
    end.

(** Kinds of events. *)
Definition is_spawn (ev : Event) : Prop :=
  match ev with EvSpawn _ _ _ => True | _ => False end.

Definition no_spawn : Event -> Prop := fun ev => ~ is_spawn ev.

Definition is_toFile (ev : Event) : Prop :=
  match ev with EvSharpToFile _ _ => True | _ => False end.

Definition is_jimp (ev : Event) : Prop :=
  match ev with
  | EvJimpRead _ | EvJimp _ | EvJimpWrite _ _ => True
  | _ => False
  end.

Section Notions.

Variable env : Env.

(** The watermark. *)
Definition watermark_calls (options : ImageConversionOptions)
  : list SharpOp :=
  match io_watermark options with
  | Some watermark =>
      let gravity :=
        getWatermarkGravity (JS.or_str (wm_position watermark) "bottom-right") in
      if JS.truthy_str (wm_text watermark) then
        [SComposite
           (OverlayBuffer
              (svgText
                 (num_to_string env (JS.or_num (wm_fontSize watermark) 24%float))
                 (JS.or_str (wm_color watermark) "rgba(255, 255, 255, 0.8)")
                 (num_to_string env (JS.or_num (wm_opacity watermark) 0.8%float))
                 (default EmptyString (wm_text watermark))))
           gravity "over"]
      else if JS.truthy_str (wm_image watermark) then
        [SComposite (OverlayFile (default EmptyString (wm_image watermark)))
                    gravity "over"]
      else []
  | None => []
  end.

(** The calls [processImage] makes on the pipeline of an image that is
    not an SVG before it writes the file. *)
Definition transform_chain (targetFormat : string)
    (options : ImageConversionOptions) : list SharpOp :=
  resize_calls options ++ effect_calls options
  ++ encoder_calls targetFormat options ++ watermark_calls options.

(** The conversions of a list of files, one after the other, each from
    the world the one before left behind. *)
Inductive converted_in_turn
    (inputDir outputDir targetFormat : string)
    (options : ImageConversionOptions)
  : list string -> World -> list ImageConversionResult -> World -> Prop :=
  | turn_done w : converted_in_turn inputDir outputDir targetFormat options [] w [] w
  | turn_next file rest w result w1 results w2 :
      convertImage env (join env [inputDir; file])
        (join env [outputDir;
                   basename env file (extname env file) +:+ "." +:+ targetFormat])
        targetFormat options w
      = (Return result, w1) ->
      converted_in_turn inputDir outputDir targetFormat options rest w1 results w2 ->
      converted_in_turn inputDir outputDir targetFormat options
        (file :: rest) w (result :: results) w2.


(** ** The strategies for Word documents going to PDF *)

(** The calls of the Word COM strategy, when it runs to its end. *)
Definition com_calls (tempDir inputPath outputPath : string) : list Event :=
  [EvMkdtemp (join env [tmpdir env; "docx2pdf-"]);
   EvWriteFile (join env [tempDir; "docx2pdf.vbs"]);
   EvSpawn "cscript"
     ["//nologo"; join env [tempDir; "docx2pdf.vbs"]; inputPath; outputPath] [];
   EvPathExists outputPath;
   EvStat outputPath].

Definition python_script : string :=
  resolve env [cwd env; "DocumentAssistant"; "docx_to_pdf_converter.py"].

(** The calls of the Python strategy, when it runs to its end; [second]
    when the interpreter [python] did not exit cleanly and [py] is
    tried. *)
Definition python_calls (inputPath outputPath : string) (second : bool)
  : list Event :=
  [EvPathExists python_script;
   EvSpawn "python" [python_script; inputPath; outputPath] python_vars]
  ++ (if second
      then [EvSpawn "py" ["-3"; python_script; inputPath; outputPath]
                    python_vars]
      else [])
  ++ [EvPathExists outputPath; EvStat outputPath].

(** The check made after a helper has exited, on the file system it
    left: the output is there and its size is above 0. *)
Definition output_made (m : gmap string Node) (outputPath : string) : bool :=
  match size_of env m outputPath with
  | Some n => 0 <? n
  | None => false
  end.

(** A helper process, started by one of [calls], exited with code 0,
    and the output is there and not empty. *)
Definition helper_made (calls : list Event) (m : gmap string Node)
    (outputPath : string) : Prop :=
  (exists cmd args vars ws,
      In (EvSpawn cmd args vars) calls /\
      fst (spawn env ws cmd args vars) = Some 0) /\
  exists n, size_of env m outputPath = Some n /\ 0 < n.

(** The directory of [p] and the directories above it: what
    [ensureDir] of the directory makes when it is missing. *)
Definition directories_of (p : string) : list string :=
  dirname env p :: ancestors env (dirname env p).

(** A file can be written at [p] after [ensureDir] of its directory:
    neither the directory nor a directory above it is a file, and [p]
    is neither a directory nor one of the directories above itself. *)
Definition writable (w : World) (p : string) : bool :=
  negb (existsb (is_file (fs w)) (directories_of p))
  && match fs w !! p with Some Dir => false | _ => true end
  && negb (one_of p (directories_of p)).

(** The output path, its directory and the directories above it. *)
Definition output_paths (outputPath : string) : Footprint :=
  Paths (fun p => p = outputPath \/ In p (directories_of outputPath)).

(** The pipeline a file is written from carries a composite call only
    as the last call of the transform chain. *)
Definition composited_last (targetFormat : string)
    (options : ImageConversionOptions) (p : SharpPipeline) : Prop :=
  forall overlay gravity blend,
    In (SComposite overlay gravity blend) (sp_ops p) ->
    sp_ops p
    = (resize_calls options ++ effect_calls options
       ++ encoder_calls targetFormat options
       ++ [SComposite overlay gravity blend])%list.

Definition toFile_composited_last (targetFormat : string)
    (options : ImageConversionOptions) (ev : Event) : Prop :=
  match ev with
  | EvSharpToFile p _ => composited_last targetFormat options p
  | _ => True
  end.

(** ** Notions of the further properties *)

(** The calls by which a file is looked at, not changed: [stat],
    reading, and the parsers. *)
Definition inspects (filePath : string) (ev : Event) : Prop :=
  match ev with
  | EvStat p | EvReadFile p | EvSharpMetadata p | EvJimpRead p => p = filePath
  | EvPdfParse | EvMammothText => True
  | _ => False
  end.

(** The calls made between the launch of the browser and its end. *)
Definition inside_browser (ev : Event) : Prop :=
  match ev with
  | EvLaunch | EvBrowserClose => False
  | _ => True
  end.

(** The line feed, the number of times a character occurs in a string,
    and the text of a paragraph. *)
Definition LF : ascii := ascii_of_nat 10.

Fixpoint occurrences (a : ascii) (s : string) : nat :=
  match s with
  | EmptyString => 0
  | String b t => (if Ascii.eqb b a then 1 else 0) + occurrences a t
  end.

Definition paragraph_text (p : Paragraph) : string :=
  match p with
  | ParaEmpty => EmptyString
  | ParaText line => line
  end.

(** The calls [processSvgImage] makes on the pipeline: a resize whose
    missing side is 800 or 600, and the options of the encoder. *)
Definition svg_calls (targetFormat : string)
    (options : ImageConversionOptions) : list SharpOp :=
  call_if (wants_resize options)
    (SResize (Some (JS.or_num (io_width options) 800%float))
             (Some (JS.or_num (io_height options) 600%float))
             (JS.or_str (io_fit options) "inside") (background_of options))
  ++ encoder_calls targetFormat options.

(** The calls [processWithJimp] makes on the image it has read. *)
Definition jimp_if (c : bool) (op : JimpOp) : list JimpOp :=
  if c then [op] else [].

Definition jimp_calls (targetFormat : string)
    (options : ImageConversionOptions) : list JimpOp :=
  jimp_if (wants_resize options)
    (JResize (JS.or_num (io_width options) Jimp_AUTO)
             (JS.or_num (io_height options) Jimp_AUTO))
  ++ match io_effects options with
     | Some effects =>
         jimp_if (JS.truthy_num (fx_blur effects))
           (JBlur (default 0%float (fx_blur effects)))
         ++ match fx_brightness effects with
            | Some v => [JBrightness v]
            | None => []
            end
         ++ match fx_contrast effects with
            | Some v => [JContrast v]
            | None => []
            end
         ++ jimp_if (JS.truthy_bool (fx_grayscale effects)) JGreyscale
         ++ jimp_if (JS.truthy_bool (fx_sepia effects)) JSepia
         ++ jimp_if (JS.truthy_bool (fx_invert effects)) JInvert
     | None => []
     end
  ++ jimp_if (JS.truthy_num (io_quality options)
              && one_of targetFormat ["jpeg"; "jpg"])
       (JQuality (default 0%float (io_quality options))).

Definition jimp_extend (image : JimpImage) (calls : list JimpOp) : JimpImage :=
  {| ji_input := ji_input image; ji_width := ji_width image;
     ji_height := ji_height image; ji_ops := ji_ops image ++ calls |}.

(** [m] makes the calls [calls] on the image, in this order: it returns
    the image after all of them, or throws at one of them, the calls
    before it made. *)
Definition jimp_builds (m : M JimpImage) (image : JimpImage)
    (calls : list JimpOp) : Prop :=
  forall w,
    match m w with
    | (Return image', w') =>
        image' = jimp_extend image calls /\ w' = logs (map EvJimp calls) w
    | (Throw _, w') =>
        exists tried, prefix tried calls /\
                      w' = logs (map EvJimp tried) w
    end.

(** The target of a file of a batch. *)
Definition batch_target (outputDir targetFormat file : string) : string :=
  join env [outputDir;
            basename env file (extname env file) +:+ "." +:+ targetFormat].

(** [m] makes the calls [calls] on the sharp pipeline, in this order:
    it returns the pipeline after all of them, or throws at one of
    them, the calls before it made. *)
Definition sharp_builds (m : M SharpPipeline) (p : SharpPipeline)
    (calls : list SharpOp) : Prop :=
  forall w,
    match m w with
    | (Return p', w') => p' = extend p calls /\ w' = logs (map EvSharp calls) w
    | (Throw _, w') =>
        exists tried, prefix tried calls /\
                      w' = logs (map EvSharp tried) w
    end.

End Notions.

(* ===================================================================== *)
(** * The command line ([src/cli.ts])                                     *)
(* ===================================================================== *)

(** What an action of the command line prints: a line of [console.log]
    or of [console.error]. *)
Variant Line := Out (text : string) | Err (text : string).

(** The process: the world of the engine, and the lines printed by the
    command line so far. *)
Record Shell := { world : World; console : list Line }.

(** An action runs to its end, is cut short by [process.exit(code)], or
    throws. *)
Variant Ended (A : Type) :=
  | Done (a : A)
  | Exit (code : Z)
  | Raised (msg : string).
Arguments Done {A} a.
Arguments Exit {A} code.
Arguments Raised {A} msg.

Definition Cmd (A : Type) : Type := Shell -> Ended A * Shell.

Definition done {A} (a : A) : Cmd A := fun s => (Done a, s).

Definition exit {A} (code : Z) : Cmd A := fun s => (Exit code, s).

Definition and_then {A B} (c : Cmd A) (k : A -> Cmd B) : Cmd B :=
  fun s =>
    match c s with
    | (Done a, s') => k a s'
    | (Exit code, s') => (Exit code, s')
    | (Raised e, s') => (Raised e, s')
    end.

Notation "'exec' x ':=' c 'in' k" := (and_then c (fun x => k))
  (at level 10, x name, c at level 100, k at level 200,
   format "'[v' 'exec'  x  ':='  c  'in' '/' k ']'").

Notation "'exec_' c 'in' k" := (and_then c (fun _ => k))
  (at level 10, c at level 100, k at level 200,
   format "'[v' 'exec_'  c  'in' '/' k ']'").

(** [try { c } catch (error) { h error.message }]: an exit is not
    caught. *)
Definition catching {A} (c : Cmd A) (h : string -> Cmd A) : Cmd A :=
  fun s =>
    match c s with
    | (Raised e, s') => h e s'
    | r => r
    end.

Definition print (l : Line) : Cmd unit :=
  fun s => (Done tt, {| world := world s; console := console s ++ [l] |}).

(** A call of a method of the engine. *)
Definition engine {A} (m : M A) : Cmd A :=
  fun s =>
    match m (world s) with
    | (Return a, w) => (Done a, {| world := w; console := console s |})
    | (Throw e, w) => (Raised e, {| world := w; console := console s |})
    end.

(** [s.endsWith(suffix)]. *)
Definition endsWith (s suffix : string) : bool :=
  let n := String.length s in
  let k := String.length suffix in
  (k <=? n)%nat && (String.substring (n - k) k s === suffix).

Section Cli.

Variable env : Env.

(** [path.parse(file).name]. *)
Variable parse_name : string -> string.

(** ** [convert] *)

(** The options commander hands to the action: the three required ones,
    the two flags, which are [false] when not given, and the image
    directory. *)
Record ConvertArgs := {
  arg_input : string;
  arg_output : string;
  arg_format : string;
  arg_preserveFormatting : bool;
  arg_extractImages : bool;
  arg_imageDir : option string
}.

Definition isWordToPdf (options : ConvertArgs) : bool :=
  let inputExt := JS.toLowerCase (extname env (arg_input options)) in
  ((inputExt === ".docx") || (inputExt === ".doc"))
  && (JS.toLowerCase (arg_format options) === "pdf").

Definition convert_options (options : ConvertArgs) : ConversionOptions :=
  let convOpts :=
    {| preserve_formatting := Some (arg_preserveFormatting options);
       extract_images := Some (arg_extractImages options);
       image_output_dir :=
         if JS.truthy_str (arg_imageDir options)
         then Some (resolve env [default EmptyString (arg_imageDir options)])
         else None;
       image_options := None;
       pdf_options := None |} in
  if isWordToPdf options then
    {| preserve_formatting :=
         Some (default true (preserve_formatting convOpts));
       extract_images := extract_images convOpts;
       image_output_dir := image_output_dir convOpts;
       image_options := image_options convOpts;
       pdf_options :=
         let given := default no_pdf_options (pdf_options convOpts) in
         Some {| po_format := po_format given;
                 po_landscape := po_landscape given;
                 po_printBackground := po_printBackground given;
                 po_scale := po_scale given;
                 po_margin := po_margin given;
                 po_header := po_header given;
                 po_footer := po_footer given;
                 po_prefer_chinese_fonts :=
                   Some (default true
                           (o ← pdf_options convOpts;
                            po_prefer_chinese_fonts o)) |} |}
  else convOpts.

(** The action of [convert]. The engine never sets
    [extracted_images], so the line that counts them is never
    printed. *)
Definition convert_action (options : ConvertArgs) : Cmd unit :=
  catching
    (exec_ print (Out "🔄 Converting document...") in
     let convOpts := convert_options options in
     exec result :=
       engine (convertDocument env (resolve env [arg_input options])
                 (resolve env [arg_output options])
                 (arg_format options) convOpts) in
     if success result then
       exec_ print (Out "✅ Conversion completed successfully!") in
       print (Out ("📄 Output: " +:+ output_path result))
     else
       exec_ print (Err ("❌ Conversion failed: " +:+ message result)) in
       exit 1)
    (fun error =>
       exec_ print (Err ("❌ Error: " +:+ error)) in
       exit 1).

(** ** [batch] *)

Record BatchArgs := {
  arg_dir : string;
  arg_out : string;
  arg_target : string;
  arg_pattern : string;
  arg_preserve : bool
}.

Definition supportedExts : list string :=
  [".pdf"; ".docx"; ".doc"; ".html"; ".htm"; ".md"; ".txt"].

Definition batch_selects (file : string) : bool :=
  existsb (fun ext => endsWith (JS.toLowerCase file) ext) supportedExts.

Definition batch_options (options : BatchArgs) : ConversionOptions :=
  {| preserve_formatting := Some (arg_preserve options);
     extract_images := None; image_output_dir := None;
     image_options := None; pdf_options := None |}.

(** The [for] loop of [batch] from the two counters. *)
Fixpoint batch_files (inputDir outputDir : string) (options : BatchArgs)
    (filesToConvert : list string) (successCount failCount : Z)
  : Cmd (Z * Z) :=
  match filesToConvert with
  | [] => done (successCount, failCount)
  | file :: rest =>
      let inputPath := join env [inputDir; file] in
      let baseName := parse_name file in
      let outputPath :=
        join env [outputDir; baseName +:+ "." +:+ arg_target options] in
      exec counts :=
        catching
          (exec_ print (Out ("  Converting: " +:+ file)) in
           exec result :=
             engine (convertDocument env inputPath outputPath
                       (arg_target options) (batch_options options)) in
           if success result then
             exec_ print (Out "    ✅ Success") in
             done (successCount + 1, failCount)
           else
             exec_ print (Out ("    ❌ Failed: " +:+ message result)) in
             done (successCount, failCount + 1))
          (fun error =>
             exec_ print (Out ("    ❌ Error: " +:+ error)) in
             done (successCount, failCount + 1)) in
      batch_files inputDir outputDir options rest (fst counts) (snd counts)
  end.

(** A counter in a template literal. *)
Definition count_to_string (n : Z) : string := num_to_string env (JS.of_Z n).

Definition batch_action (options : BatchArgs) : Cmd unit :=
  catching
    (let inputDir := resolve env [arg_dir options] in
     let outputDir := resolve env [arg_out options] in
     exec found := engine (pathExists inputDir) in
     if negb found then
       exec_ print (Err ("❌ Input directory does not exist: " +:+ inputDir)) in
       exit 1
     else
       exec_ engine (ensureDir env outputDir) in
       exec files := engine (readdir env inputDir) in
       let filesToConvert := List.filter batch_selects files in
       if (Z.of_nat (length filesToConvert) =? 0) then
         print (Out "⚠️  No supported files found in the directory")
       else
         exec_ print (Out ("🔄 Converting "
                           +:+ count_to_string
                                 (Z.of_nat (length filesToConvert))
                           +:+ " files...")) in
         exec counts :=
           batch_files inputDir outputDir options filesToConvert 0 0 in
         exec_ print (Out (String (ascii_of_nat 10)
                             "📊 Batch conversion completed:")) in
         exec_ print (Out ("  ✅ Successful: "
                           +:+ count_to_string (fst counts))) in
         print (Out ("  ❌ Failed: " +:+ count_to_string (snd counts))))
    (fun error =>
       exec_ print (Err ("❌ Error: " +:+ error)) in
       exit 1).

(** ** Notions of the properties of [batch] *)

(** The conversions [batch] makes for a list of files, one after the
    other, each from the world the one before left behind. *)
Inductive batch_in_turn (inputDir outputDir : string) (options : BatchArgs)
  : list string -> World -> list ConversionResult -> World -> Prop :=
  | batch_none w : batch_in_turn inputDir outputDir options [] w [] w
  | batch_next file rest w result w1 results w2 :
      convertDocument env (join env [inputDir; file])
        (join env [outputDir; parse_name file +:+ "." +:+ arg_target options])
        (arg_target options) (batch_options options) w
      = (Return result, w1) ->
      batch_in_turn inputDir outputDir options rest w1 results w2 ->
      batch_in_turn inputDir outputDir options
        (file :: rest) w (result :: results) w2.

(** The two lines printed for a file. *)
Definition file_lines (file : string) (result : ConversionResult)
  : list Line :=
  [Out ("  Converting: " +:+ file);
   if success result then Out "    ✅ Success"
   else Out ("    ❌ Failed: " +:+ message result)].

Fixpoint batch_lines (files : list string) (results : list ConversionResult)
  : list Line :=
  match files, results with
  | file :: files, result :: results =>
      file_lines file result ++ batch_lines files results
  | _, _ => []
  end.

Definition successes (results : list ConversionResult) : Z :=
  Z.of_nat (length (List.filter success results)).

Definition failures (results : list ConversionResult) : Z :=
  Z.of_nat (length (List.filter (fun r => negb (success r)) results)).

End Cli.

(** A command line on the POSIX host. *)
Definition papers_to_txt : BatchArgs :=
  {| arg_dir := "/in"; arg_out := "/out"; arg_target := "txt";
     arg_pattern := "**/*"; arg_preserve := false |}.

Definition at_prompt (w : World) : Shell := {| world := w; console := [] |}.

(* ===================================================================== *)
(** * Reasoning about runs                                                *)
(* ===================================================================== *)

(** ** The equations of the monad *)

Section Runs.

Context {A B : Type}.

Lemma bind_Return (m : M A) (k : A -> M B) w a w' :
  m w = (Return a, w') -> bind m k w = k a w'.
Proof. intros E. unfold bind. now rewrite E. Qed.

Lemma bind_Throw (m : M A) (k : A -> M B) w e w' :
  m w = (Throw e, w') -> bind m k w = (Throw e, w').
Proof. intros E. unfold bind. now rewrite E. Qed.

Lemma bind_inv_Return (m : M A) (k : A -> M B) w b w2 :
  bind m k w = (Return b, w2) ->
  exists a w1, m w = (Return a, w1) /\ k a w1 = (Return b, w2).
Proof.
  unfold bind. destruct (m w) as [[a | e] w1]; intros E.
  - now exists a, w1.
  - discriminate.
Qed.


Lemma try_catch_Return (m : M A) (h : string -> M A) w a w' :
  m w = (Return a, w') -> try_catch m h w = (Return a, w').
Proof. intros E. unfold try_catch. now rewrite E. Qed.

Lemma try_catch_Throw (m : M A) (h : string -> M A) w e w' :
  m w = (Throw e, w') -> try_catch m h w = h e w'.
Proof. intros E. unfold try_catch. now rewrite E. Qed.

(** A [catch] block that returns makes the whole statement return. *)
Lemma try_catch_returns (m : M A) (f : string -> A) w :
  exists a w', try_catch m (fun e => ret (f e)) w = (Return a, w').
Proof.
  unfold try_catch, ret. destruct (m w) as [[a | e] w']; eauto.
Qed.

End Runs.

(** A run whose result is thrown away is the run itself when the result
    is [()]. *)
Lemma bind_ret_tt (m : M unit) w : bind m (fun _ => ret tt) w = m w.
Proof.
  unfold bind, ret. destruct (m w) as [[[] | e] w']; reflexivity.
Qed.

(** ** Specifications: frame, events, value

    [spec F P Q m]: whatever the world, a run of [m] stays within the
    footprint [F] on the file system, makes only calls of [P], and
    returns only values of [Q]. *)

Definition spec {A} (F : Footprint) (P : Event -> Prop) (Q : A -> Prop)
    (m : M A) : Prop :=
  forall w,
    within F (fs w) (fs (snd (m w))) /\
    (exists d, trace (snd (m w)) = (trace w ++ d)%list /\ Forall P d) /\
    (forall a, fst (m w) = Return a -> Q a).

Lemma within_refl F m : within F m m.
Proof. destruct F; cbn; auto. Qed.

Lemma within_trans F m1 m2 m3 :
  within F m1 m2 -> within F m2 m3 -> within F m1 m3.
Proof.
  destruct F as [| allowed]; cbn; [done |].
  intros [H1 D1] [H2 D2]. split.
  - intros p Hp. now rewrite H2, H1.
  - intros p Hp. now apply D2, D1.
Qed.

Lemma within_same F (m1 m2 : gmap string Node) : m1 = m2 -> within F m1 m2.
Proof. intros ->. apply within_refl. Qed.

(** The three parts of a specification. *)
Ltac split3 := split; [ | split ].

Section Rules.

Context {A B : Type}.
Variable F : Footprint.
Variable P : Event -> Prop.

Lemma spec_ret (Q : A -> Prop) a : Q a -> spec F P Q (ret a).
Proof.
  intros HQ w. cbn. split3; [apply within_refl | | now intros ? [= <-]].
  exists []. now rewrite app_nil_r.
Qed.

Lemma spec_throw (Q : A -> Prop) e : spec F P Q (throw e).
Proof.
  intros w. cbn. split3; [apply within_refl | | discriminate].
  exists []. now rewrite app_nil_r.
Qed.

Lemma spec_bind (Q1 : A -> Prop) (Q2 : B -> Prop) m k :
  spec F P Q1 m -> (forall a, Q1 a -> spec F P Q2 (k a)) ->
  spec F P Q2 (bind m k).
Proof.
  intros Hm Hk w. destruct (Hm w) as (Hf & (d & Hd & HP) & HQ).
  unfold bind. destruct (m w) as [[a | e] w1]; cbn in *.
  - destruct (Hk a (HQ a eq_refl) w1) as (Hf' & (d' & Hd' & HP') & HQ').
    split3.
    + eapply within_trans; eauto.
    + exists (d ++ d')%list. rewrite Hd', Hd, app_assoc. split; [done |].
      now apply Forall_app.
    + exact HQ'.
  - split3; [exact Hf | now exists d | discriminate].
Qed.

Lemma spec_try_catch (Q : A -> Prop) m h :
  spec F P Q m -> (forall e, spec F P Q (h e)) ->
  spec F P Q (try_catch m h).
Proof.
  intros Hm Hh w. destruct (Hm w) as (Hf & (d & Hd & HP) & HQ).
  unfold try_catch. destruct (m w) as [[a | e] w1]; cbn in *.
  - split3; [exact Hf | now exists d | exact HQ].
  - destruct (Hh e w1) as (Hf' & (d' & Hd' & HP') & HQ').
    split3.
    + eapply within_trans; eauto.
    + exists (d ++ d')%list. rewrite Hd', Hd, app_assoc. split; [done |].
      now apply Forall_app.
    + exact HQ'.
Qed.

Lemma spec_try_finally (Q : A -> Prop) m f :
  spec F P Q m -> spec F P any_value f -> spec F P Q (try_finally m f).
Proof.
  intros Hm Hf w. destruct (Hm w) as (Hf1 & (d & Hd & HP) & HQ).
  unfold try_finally. destruct (m w) as [o w1]; cbn in *.
  destruct (Hf w1) as (Hf2 & (d' & Hd' & HP') & _).
  destruct (f w1) as [[[] | e] w2]; cbn in *.
  - split3.
    + eapply within_trans; eauto.
    + exists (d ++ d')%list. rewrite Hd', Hd, app_assoc. split; [done |].
      now apply Forall_app.
    + exact HQ.
  - split3.
    + eapply within_trans; eauto.
    + exists (d ++ d')%list. rewrite Hd', Hd, app_assoc. split; [done |].
      now apply Forall_app.
    + discriminate.
Qed.

Lemma spec_extern ev (f : World -> Outcome A) :
  P ev -> spec F P any_value (extern ev f).
Proof.
  intros HP w. cbn. split3; [apply within_refl | | done].
  exists [ev]. split; [done | now constructor].
Qed.

End Rules.

(** Weakening: more calls, more values. *)
Lemma spec_weaken {A} (F : Footprint) (P P' : Event -> Prop)
    (Q Q' : A -> Prop) m :
  spec F P Q m ->
  (forall ev, P ev -> P' ev) -> (forall a, Q a -> Q' a) ->
  spec F P' Q' m.
Proof.
  intros Hm HP HQ w. destruct (Hm w) as (Hf & (d & Hd & Hd') & Hq).
  split3.
  - exact Hf.
  - exists d. split; [done |]. eapply Forall_impl; eauto.
  - intros a Ha. apply HQ, Hq, Ha.
Qed.

(** When nothing may change, nothing changes. *)
Lemma spec_nowhere_fs {A} (P : Event -> Prop) (Q : A -> Prop) m w :
  spec nowhere P Q m -> fs (snd (m w)) = fs w.
Proof.
  intros Hm. destruct (Hm w) as ([Hf _] & _). apply map_eq. intros p.
  now apply Hf.
Qed.

(** ** The primitives *)

(** ** Directories made by [ensureDir] *)

Lemma make_dirs_in dirs (m : gmap string Node) p :
  In p dirs -> make_dirs dirs m !! p = Some Dir.
Proof.
  induction dirs as [| d dirs IH]; cbn; [done |].
  intros [-> | Hin].
  - apply lookup_insert_eq.
  - destruct (string_dec d p) as [-> | Hne].
    + apply lookup_insert_eq.
    + rewrite lookup_insert_ne; auto.
Qed.

Lemma make_dirs_out dirs (m : gmap string Node) p :
  ~ In p dirs -> make_dirs dirs m !! p = m !! p.
Proof.
  induction dirs as [| d dirs IH]; cbn; [done |].
  intros Hn. rewrite lookup_insert_ne; [| intros ->; apply Hn; now left].
  apply IH. intros Hin. apply Hn. now right.
Qed.

Lemma make_dirs_keeps dirs (m : gmap string Node) p :
  forallb (fun d => negb (is_file m d)) dirs = true ->
  m !! p <> None -> make_dirs dirs m !! p = m !! p.
Proof.
  intros Hd Hp. destruct (in_dec string_dec p dirs) as [Hin | Hout].
  - rewrite make_dirs_in by done.
    rewrite forallb_forall in Hd. specialize (Hd p Hin).
    unfold is_file in Hd. destruct (m !! p) as [[] |]; done.
  - now apply make_dirs_out.
Qed.

Section Primitives.

Variable env : Env.
Variable F : Footprint.
Variable P : Event -> Prop.

Lemma fs_write_other p c m m' q :
  fs_write env p c m = Return m' -> q <> p -> m' !! q = m !! q.
Proof.
  unfold fs_write. intros E Hq.
  destruct (m !! p) as [[] |]; try discriminate;
    destruct (m !! dirname env p) as [[] |]; try discriminate;
    injection E as <-; now rewrite lookup_insert_ne.
Qed.

Lemma fs_write_same p c m m' :
  fs_write env p c m = Return m' -> m' !! p = Some (File c).
Proof.
  unfold fs_write. intros E.
  destruct (m !! p) as [[] |]; try discriminate;
    destruct (m !! dirname env p) as [[] |]; try discriminate;
    injection E as <-; now rewrite lookup_insert_eq.
Qed.

Lemma fs_write_dirs p c m m' q :
  fs_write env p c m = Return m' -> m !! q = Some Dir -> m' !! q = Some Dir.
Proof.
  intros E Hq. destruct (decide (q = p)) as [-> | Hne].
  - unfold fs_write in E. now rewrite Hq in E.
  - now rewrite (fs_write_other _ _ _ _ _ E Hne).
Qed.

Lemma fs_write_within p c m m' :
  touches F p -> fs_write env p c m = Return m' -> within F m m'.
Proof.
  destruct F as [| allowed]; cbn; [done |]. intros HS E. split.
  - intros q Hq. eapply fs_write_other; eauto. now intros ->.
  - intros q Hq. eapply fs_write_dirs; eauto.
Qed.

Lemma spec_checked ev f : P ev -> spec F P any_value (checked ev f).
Proof. intros HP. unfold checked. now apply spec_extern. Qed.

Lemma spec_warn msg : P (EvWarn msg) -> spec F P any_value (warn msg).
Proof.
  intros HP w. cbn. split3; [apply within_refl | | done].
  exists [EvWarn msg]. split; [done | now constructor].
Qed.

Lemma spec_pathExists p :
  P (EvPathExists p) -> spec F P any_value (pathExists p).
Proof.
  intros HP w. cbn. split3; [apply within_refl | | done].
  exists [EvPathExists p]. split; [done | now constructor].
Qed.

Lemma spec_stat p : P (EvStat p) -> spec F P any_value (stat env p).
Proof.
  intros HP w. cbn. split3; [apply within_refl | | done].
  exists [EvStat p]. split; [done | now constructor].
Qed.

Lemma spec_readFile p : P (EvReadFile p) -> spec F P any_value (readFile p).
Proof.
  intros HP w. cbn. split3; [apply within_refl | | done].
  exists [EvReadFile p]. split; [done | now constructor].
Qed.

Lemma spec_ensureDir d :
  (forall q, In q (d :: ancestors env d) -> touches F q) ->
  P (EvEnsureDir d) -> spec F P any_value (ensureDir env d).
Proof.
  intros HS HP w. unfold ensureDir.
  destruct (is_file (fs w) d) eqn:Hd;
    [| destruct (existsb (is_file (fs w)) (ancestors env d)) eqn:Hup];
    cbn [fst snd fs trace log put_fs]; (split3; [ | | done]);
    try apply within_refl;
    try (exists [EvEnsureDir d]; split; [done | now constructor]).
  destruct F as [| allowed]; cbn [within]; [done |]. split.
  - intros p Hp. apply make_dirs_out. intros Hin. apply Hp, (HS p Hin).
  - intros p Hp. destruct (in_dec string_dec p (d :: ancestors env d)).
    + now apply make_dirs_in.
    + now rewrite make_dirs_out.
Qed.

Lemma spec_writeFile p c :
  touches F p -> P (EvWriteFile p) -> spec F P any_value (writeFile env p c).
Proof.
  intros HS HP w. unfold writeFile.
  destruct (fs_write env p c (fs w)) as [m |] eqn:E; cbn;
    (split3; [ | | done]);
    try apply within_refl;
    try (exists [EvWriteFile p]; split; [done | now constructor]).
  eapply fs_write_within; eauto.
Qed.

Lemma spec_emit ev f out :
  touches F out -> P ev -> spec F P any_value (emit env ev f out).
Proof.
  intros HS HP w. unfold emit.
  destruct (f w) as [bytes | e]; cbn.
  - destruct (fs_write env out bytes (fs w)) as [m |] eqn:E; cbn;
      (split3; [ | | done]);
      try apply within_refl;
      try (exists [ev]; split; [done | now constructor]).
    eapply fs_write_within; eauto.
  - split3; [apply within_refl | | done].
    exists [ev]. split; [done | now constructor].
Qed.

Lemma spec_mkdtemp prefix :
  P (EvMkdtemp prefix) -> spec anywhere P any_value (mkdtemp env prefix).
Proof.
  intros HP w. unfold mkdtemp.
  destruct (fs w !! _); cbn; (split3; [done | | done]);
    exists [EvMkdtemp prefix]; split; done || now constructor.
Qed.

Lemma spec_spawn_proc cmd args vars :
  P (EvSpawn cmd args vars) ->
  spec anywhere P any_value (spawn_proc env cmd args vars).
Proof.
  intros HP w. cbn. split3; [done | | done].
  exists [EvSpawn cmd args vars]. split; [done | now constructor].
Qed.

End Primitives.

(** ** Walking through the code

    [spec_go] proves a specification with any value allowed by following
    the code: the rules above for the constructs of the monad, the
    lemmas above for the calls that leave the engine, a case analysis
    for each branch, and the definition for each method of the engine. *)

Ltac head_of t := lazymatch t with ?f _ => head_of f | _ => t end.

Ltac spec_side :=
  cbn; unfold any_value; try done; auto; tauto.

Ltac spec_go :=
  cbv zeta beta;
  lazymatch goal with
  | |- spec _ _ _ (ret _) => apply spec_ret; spec_side
  | |- spec _ _ _ (throw _) => apply spec_throw
  | |- spec ?S ?P _ (bind _ _) =>
      apply (spec_bind S P any_value); [spec_go | intros ? _; spec_go]
  | |- spec _ _ _ (try_catch _ _) =>
      apply spec_try_catch; [spec_go | intros ?; spec_go]
  | |- spec _ _ _ (try_finally _ _) =>
      apply spec_try_finally; [spec_go | spec_go]
  | |- spec _ _ _ (match ?x with _ => _ end) => destruct x; spec_go
  | |- spec _ _ _ (extern _ _) => apply spec_extern; spec_side
  | |- spec _ _ _ (checked _ _) => apply spec_checked; spec_side
  | |- spec _ _ _ (warn _) => apply spec_warn; spec_side
  | |- spec _ _ _ (pathExists _) => apply spec_pathExists; spec_side
  | |- spec _ _ _ (stat _ _) => apply spec_stat; spec_side
  | |- spec _ _ _ (readFile _) => apply spec_readFile; spec_side
  | |- spec _ _ _ (ensureDir _ _) => apply spec_ensureDir; spec_side
  | |- spec _ _ _ (writeFile _ _ _) => apply spec_writeFile; spec_side
  | |- spec _ _ _ (emit _ _ _ _) => apply spec_emit; spec_side
  | |- spec _ _ _ (mkdtemp _ _) => apply spec_mkdtemp; spec_side
  | |- spec _ _ _ (spawn_proc _ _ _ _) => apply spec_spawn_proc; spec_side
  | |- spec _ _ _ ?m => let h := head_of m in unfold h; spec_go
  end.

(* ===================================================================== *)
(** * Properties of the engine                                            *)
(* ===================================================================== *)

Section Claims.

Variable env : Env.

(** ** Errors never leave [convertDocument] and [convertImage] *)

(** C3. [convertDocument] and [convertImage] always return a result,
    whatever the world and whatever the collaborators do: an error
    thrown anywhere inside the [try] block comes back as a result with
    [success: false] whose message is the fixed prefix followed by the
    text of the error. *)
Theorem convert_never_throws
    (inputPath outputPath targetFormat : string)
    (options : ConversionOptions) (imageOptions : ImageConversionOptions)
    (w : World) :
  (exists r w',
      convertDocument env inputPath outputPath targetFormat options w
      = (Return r, w'))
  /\ (forall e w',
        convertDocument_body env inputPath outputPath targetFormat options w
        = (Throw e, w') ->
        convertDocument env inputPath outputPath targetFormat options w
        = (Return {| success := false; output_path := outputPath;
                     message := "Conversion failed: " +:+ e;
                     metadata := None |}, w'))
  /\ (exists r w',
        convertImage env inputPath outputPath targetFormat imageOptions w
        = (Return r, w'))
  /\ (forall e w',
        convertImage_body env inputPath outputPath targetFormat imageOptions w
        = (Throw e, w') ->
        convertImage env inputPath outputPath targetFormat imageOptions w
        = (Return {| ir_success := false; ir_output_path := outputPath;
                     ir_message := "Image conversion failed: " +:+ e;
                     ir_original_size := None; ir_new_size := None;
                     ir_compression_ratio := None |}, w')).
Proof.
  split; [apply try_catch_returns |].
  split; [intros e w' E; unfold convertDocument;
          now rewrite (try_catch_Throw _ _ _ _ _ E) |].
  split; [apply try_catch_returns |].
  intros e w' E. unfold convertImage.
  now rewrite (try_catch_Throw _ _ _ _ _ E).
Qed.

(** ** Facts about the file system calls *)

Lemma stat_Return p w st w' :
  stat env p w = (Return st, w') ->
  size_of env (fs w) p = Some (st_size st) /\ w' = log (EvStat p) w.
Proof.
  unfold stat, size_of.
  destruct (fs w !! p) as [[c |] |]; intros [= <- <-]; done.
Qed.

(** [ensureDir] either fails, changing nothing, because the directory
    or a directory above it is a file, or makes them all. *)
Lemma ensureDir_cases d w :
  (existsb (is_file (fs w)) (d :: ancestors env d) = true /\
   exists e, ensureDir env d w = (Throw e, log (EvEnsureDir d) w)) \/
  (existsb (is_file (fs w)) (d :: ancestors env d) = false /\
   ensureDir env d w
   = (Return tt,
      put_fs (make_dirs (d :: ancestors env d) (fs w))
             (log (EvEnsureDir d) w))).
Proof.
  unfold ensureDir. cbn [existsb].
  destruct (is_file (fs w) d); cbn [orb]; [left; eauto |].
  destruct (existsb (is_file (fs w)) (ancestors env d)); [left | right]; eauto.
Qed.

Lemma existsb_false_forallb {A} (f : A -> bool) l :
  existsb f l = false -> forallb (fun x => negb (f x)) l = true.
Proof.
  induction l as [| a l IH]; cbn; [done |].
  destruct (f a); cbn; [done | exact IH].
Qed.

Lemma ensureDir_keeps d w o w' p :
  ensureDir env d w = (o, w') -> fs w !! p <> None -> fs w' !! p = fs w !! p.
Proof.
  intros E Hp.
  destruct (ensureDir_cases d w) as [[_ [e E']] | [Hf E']];
    rewrite E' in E; injection E as <- <-; [done |].
  apply (make_dirs_keeps (d :: ancestors env d) (fs w) p); [| exact Hp].
  now apply existsb_false_forallb.
Qed.

Lemma ensureDir_trace d w o w' :
  ensureDir env d w = (o, w') -> trace w' = (trace w ++ [EvEnsureDir d])%list.
Proof.
  intros E.
  destruct (ensureDir_cases d w) as [[_ [e E']] | [Hf E']];
    rewrite E' in E; now injection E as <- <-.
Qed.

Lemma ensureDir_Return d w w' :
  ensureDir env d w = (Return tt, w') -> fs w' !! d = Some Dir.
Proof.
  intros E.
  destruct (ensureDir_cases d w) as [[_ [e E']] | [Hf E']];
    rewrite E' in E; [discriminate |].
  injection E as <-.
  apply (make_dirs_in (d :: ancestors env d) (fs w) d). now left.
Qed.

(** What [ensureDir] does to the file system: nothing when it fails;
    when it returns, the directory and the directories above it are
    there, and every other path, and every path that held something,
    holds what it held. *)
Lemma ensureDir_fs d w o w' :
  ensureDir env d w = (o, w') ->
  (o <> Return tt -> fs w' = fs w) /\
  (o = Return tt ->
   forall q, In q (d :: ancestors env d) -> fs w' !! q = Some Dir) /\
  (forall p, ~ In p (d :: ancestors env d) -> fs w' !! p = fs w !! p) /\
  (forall p, fs w !! p <> None -> fs w' !! p = fs w !! p).
Proof.
  intros E. split; [| split; [| split]].
  - intros Ho.
    destruct (ensureDir_cases d w) as [[_ [e E']] | [Hf E']];
      rewrite E' in E; injection E as <- <-; done.
  - intros -> q Hq.
    destruct (ensureDir_cases d w) as [[_ [e E']] | [Hf E']];
      rewrite E' in E; [discriminate |].
    injection E as <-.
    now apply (make_dirs_in (d :: ancestors env d) (fs w) q).
  - intros p Hp.
    destruct (ensureDir_cases d w) as [[_ [e E']] | [Hf E']];
      rewrite E' in E; injection E as <- <-; [done |].
    now apply (make_dirs_out (d :: ancestors env d) (fs w) p).
  - intros p Hp. apply (ensureDir_keeps d w o w' p E Hp).
Qed.

(** ** The compression ratio *)

(** C5. A successful image conversion reports the sizes [stat] gave for
    the input before and for the output after the conversion, and as
    ratio [Math.round(((original - new) / original * 100) * 100) / 100]
    in binary64 arithmetic, with no clamping. For sizes 1000 and 800 the
    ratio is 20, for 1000 and 1200 it is -20. *)
Theorem compression_ratio_reported
    (inputPath outputPath targetFormat : string)
    (options : ImageConversionOptions) (w w' : World)
    (r : ImageConversionResult) :
  convertImage env inputPath outputPath targetFormat options w
  = (Return r, w') ->
  ir_success r = true ->
  (exists original new : Z,
      size_of env (fs w) inputPath = Some original /\
      size_of env (fs w') outputPath = Some new /\
      ir_original_size r = Some (JS.of_Z original) /\
      ir_new_size r = Some (JS.of_Z new) /\
      ir_compression_ratio r
      = Some (JS.Math_round
                ((JS.of_Z original - JS.of_Z new) / JS.of_Z original
                 * 100 * 100) / 100)%float)
  /\ round2 (compressionRatio (JS.of_Z 1000) (JS.of_Z 800)) = 20%float
  /\ round2 (compressionRatio (JS.of_Z 1000) (JS.of_Z 1200)) = (-20)%float.
Proof.
  intros H Hs. split; [| split; reflexivity].
  unfold convertImage, try_catch in H.
  destruct (convertImage_body _ _ _ _ _ _) as [[r0 | e] w0] eqn:E.
  2: { injection H as <- <-. discriminate. }
  injection H as -> ->. unfold convertImage_body in E.
  apply bind_inv_Return in E as (found & w1 & E1 & E).
  injection E1 as <- <-.
  destruct (fs w !! inputPath) as [node |] eqn:Hin; cbn in E; [| discriminate].
  apply bind_inv_Return in E as ([] & w2 & E2 & E).
  apply bind_inv_Return in E as (st & w3 & E3 & E).
  apply bind_inv_Return in E as ([] & w4 & E4 & E).
  apply bind_inv_Return in E as (st' & w5 & E5 & E).
  injection E as <- <-. cbn.
  apply stat_Return in E3 as [E3 ->]. apply stat_Return in E5 as [E5 ->].
  exists (st_size st), (st_size st'). repeat split; try done.
  assert (K : fs w2 !! inputPath = fs w !! inputPath).
  { apply (ensureDir_keeps _ _ _ _ inputPath E2). cbn. congruence. }
  unfold size_of in *. now rewrite <- K.
Qed.

(** ** Inspecting a Word document *)

(** C9. Once [stat] has answered, [getDocumentInfo] on a Word document
    always returns. When the file can be read and mammoth extracts its
    raw text, [pages] is [Math.ceil(length / 2000)] of that text; when
    either step throws, the error is dropped and [pages] is left out. *)
Theorem docx_pages_estimated (filePath : string) (w w1 : World) (st : Stats) :
  stat env filePath w = (Return st, w1) ->
  detectFormat env filePath = "docx" ->
  exists w',
    getDocumentInfo env filePath w
    = (Return
         {| di_format := "docx";
            di_size := st_size st;
            di_pages :=
              match readFile filePath w1 with
              | (Return buffer, w2) =>
                  match mammoth_extractRawText env w2 buffer with
                  | Return rawText =>
                      Some (JS.Math_ceil (JS.of_Z (JS.length rawText) / 2000))
                  | Throw _ => None
                  end
              | (Throw _, _) => None
              end;
            di_title := None;
            di_author := None;
            di_created := st_birthtime st;
            di_modified := st_mtime st |}, w').
Proof.
  intros Hstat Hfmt. unfold getDocumentInfo.
  rewrite (bind_Return _ _ _ _ _ Hstat), Hfmt.
  change (one_of "docx" imageFormats) with false.
  change ("docx" === "pdf") with false.
  change ("docx" === "docx") with true.
  cbv iota. unfold try_catch, bind.
  destruct (readFile filePath w1) as [[buffer | e] w2] eqn:Hread.
  - unfold extern.
    destruct (mammoth_extractRawText env w2 buffer) as [rawText | e];
      eexists; reflexivity.
  - eexists; reflexivity.
Qed.

(** ** The text pipeline, stage by stage *)



Lemma writeFile_trace p c w o w' :
  writeFile env p c w = (o, w') -> trace w' = (trace w ++ [EvWriteFile p])%list.
Proof.
  unfold writeFile.
  destruct (fs_write env p c (fs w)) as [m | e]; now intros [= <- <-].
Qed.






(** ** Round trip *)

(** The runs that succeed. *)










(** ** Batch conversion *)

Lemma converted_in_turn_length inputDir outputDir targetFormat options
    files w results w' :
  converted_in_turn env inputDir outputDir targetFormat options files w results w' ->
  length results = length files.
Proof. induction 1; cbn; congruence. Qed.

Lemma succeeded_failed results :
  succeeded results + failed results = Z.of_nat (length results).
Proof.
  unfold succeeded, failed.
  induction results as [| r rs IH]; [done |].
  cbn. destruct (ir_success r); cbn; lia.
Qed.

Lemma succeeded_snoc results r :
  succeeded (results ++ [r])
  = if ir_success r then succeeded results + 1 else succeeded results.
Proof.
  unfold succeeded. rewrite List.filter_app, length_app. cbn.
  destruct (ir_success r); cbn; lia.
Qed.

Lemma failed_snoc results r :
  failed (results ++ [r])
  = if ir_success r then failed results else failed results + 1.
Proof.
  unfold failed. rewrite List.filter_app, length_app. cbn.
  destruct (ir_success r); cbn; lia.
Qed.

(** The loop never throws; it appends one result per file and counts
    each result once. *)
Lemma batch_loop_runs inputDir outputDir targetFormat options files :
  forall acc w,
    b_success acc = succeeded (b_results acc) ->
    b_failed acc = failed (b_results acc) ->
    exists results w',
      batch_loop env inputDir outputDir targetFormat options files acc w
      = (Return {| b_success := succeeded (b_results acc ++ results);
                   b_failed := failed (b_results acc ++ results);
                   b_results := b_results acc ++ results |}, w') /\
      converted_in_turn env inputDir outputDir targetFormat options
        files w results w'.
Proof.
  induction files as [| file rest IH]; intros acc w Hs Hf.
  - exists [], w. rewrite app_nil_r, <- Hs, <- Hf. split; [| constructor].
    now destruct acc.
  - cbn [batch_loop].
    destruct (try_catch_returns
                (convertImage_body env (join env [inputDir; file])
                   (join env [outputDir;
                      basename env file (extname env file) +:+ "." +:+ targetFormat])
                   targetFormat options)
                (image_failure
                   (join env [outputDir;
                      basename env file (extname env file) +:+ "." +:+ targetFormat]))
                w) as (result & w1 & E).
    fold (convertImage env (join env [inputDir; file])
            (join env [outputDir;
               basename env file (extname env file) +:+ "." +:+ targetFormat])
            targetFormat options) in E.
    rewrite (bind_Return _ _ _ _ _ E).
    edestruct IH as (results & w' & E' & Hturn); cycle 2.
    + rewrite E'. cbn [b_results]. exists (result :: results), w'.
      rewrite <- !app_assoc. split; [reflexivity |].
      econstructor; eauto.
    + cbn. rewrite succeeded_snoc, Hs. reflexivity.
    + cbn. rewrite failed_snoc, Hf. reflexivity.
Qed.

(** C8. Once the output directory is there and the input directory has
    been listed, [batchConvertImages] returns: it converts the entries
    with a supported extension, each exactly once and in the order of
    the listing, whether or not the conversion before succeeded; the
    result list has one entry per such file, and [success + failed] is
    their number. Entries with another extension are not converted. *)
Theorem batch_converts_each_image_once
    (inputDir outputDir targetFormat : string)
    (options : ImageConversionOptions)
    (w w1 w2 : World) (files : list string) :
  ensureDir env outputDir w = (Return tt, w1) ->
  readdir env inputDir w1 = (Return files, w2) ->
  exists r w',
    batchConvertImages env inputDir outputDir targetFormat options w
    = (Return r, w') /\
    converted_in_turn env inputDir outputDir targetFormat options
      (List.filter (is_image_file env) files) w2 (b_results r) w' /\
    length (b_results r) = length (List.filter (is_image_file env) files) /\
    b_success r = succeeded (b_results r) /\
    b_failed r = failed (b_results r) /\
    b_success r + b_failed r
    = Z.of_nat (length (List.filter (is_image_file env) files)).
Proof.
  intros E1 E2. unfold batchConvertImages.
  rewrite (bind_Return _ _ _ _ _ E1), (bind_Return _ _ _ _ _ E2).
  destruct (batch_loop_runs inputDir outputDir targetFormat options
              (List.filter (is_image_file env) files)
              {| b_success := 0; b_failed := 0; b_results := [] |} w2
              eq_refl eq_refl) as (results & w' & E & Hturn).
  rewrite E. cbn [b_results app]. eexists _, w'. split; [reflexivity |].
  cbn [b_results b_success b_failed].
  pose proof (converted_in_turn_length _ _ _ _ _ _ _ _ Hturn) as Hlen.
  repeat split; try done.
  rewrite succeeded_failed. now rewrite Hlen.
Qed.

(** ** What the stages may touch *)

(** The read stage changes no file. *)
Lemma readDocument_spec filePath format options :
  spec nowhere any_call any_value (readDocument env filePath format options).
Proof. spec_go. Qed.

Lemma readDocument_fs filePath format options w :
  fs (snd (readDocument env filePath format options w)) = fs w.
Proof. eapply spec_nowhere_fs, readDocument_spec. Qed.

(** ** Targets the write stage does not know *)

Lemma text_targets_no tf :
  one_of tf text_targets = false ->
  (tf === "txt") = false /\ (tf === "md") = false /\ (tf === "html") = false /\
  (tf === "pdf") = false /\ (tf === "docx") = false.
Proof.
  cbn. intros H.
  repeat (apply orb_false_elim in H as [? H]). done.
Qed.

(** [ensureDir] writes no file: a path holds what it held, unless it
    held nothing and is the directory or a directory above it, which
    has been made. *)
Lemma ensureDir_only_makes d w o w' :
  ensureDir env d w = (o, w') ->
  forall p,
    fs w' !! p = fs w !! p \/
    (fs w !! p = None /\ fs w' !! p = Some Dir /\
     In p (d :: ancestors env d)).
Proof.
  intros E p.
  destruct (ensureDir_fs _ _ _ _ E) as (Hfail & Hmade & Hout & Hkept).
  destruct (fs w !! p) as [node |] eqn:Hp.
  - left. rewrite <- Hp. apply Hkept. congruence.
  - destruct (in_dec string_dec p (d :: ancestors env d)) as [Hin | Hnot].
    + destruct o as [[] | e].
      * right. rewrite <- Hp at 1. rewrite Hp. auto.
      * left. rewrite Hfail by done. exact Hp.
    + left. rewrite <- Hp. now apply Hout.
Qed.

(** C1 (as amended). A request whose source is not an image and whose
    target is none of [txt], [md], [html], [pdf], [docx] is always
    answered with [success: false], and no file is written: every path
    holds what it held, apart from the output directory and the
    directories above it, which have been made where they were missing.
    The request is refused by the write stage,
    after the input has been looked up: when the input exists, the
    output directory could be made and the read stage went through, the
    message is that of the write stage and the world is the one the
    read stage left. *)
Theorem unsupported_target_rejected
    (inputPath outputPath targetFormat : string)
    (options : ConversionOptions) (w : World) :
  one_of (detectFormat env inputPath) imageFormats = false ->
  one_of targetFormat text_targets = false ->
  exists msg w',
    convertDocument env inputPath outputPath targetFormat options w
    = (Return {| success := false; output_path := outputPath;
                 message := msg; metadata := None |}, w') /\
    (forall p,
        fs w' !! p = fs w !! p \/
        (fs w !! p = None /\ fs w' !! p = Some Dir /\
         In p (directories_of env outputPath))) /\
    (exists rest,
        trace w' = (trace w ++ EvPathExists inputPath :: rest)%list) /\
    (forall w2 content w3,
        fs w !! inputPath <> None ->
        ensureDir env (dirname env outputPath) (log (EvPathExists inputPath) w)
        = (Return tt, w2) ->
        readDocument env inputPath (detectFormat env inputPath) options w2
        = (Return content, w3) ->
        msg = "Conversion failed: Unsupported output format: " +:+ targetFormat
        /\ w' = w3).
Proof.
  intros Himg Htf.
  destruct (text_targets_no _ Htf) as (Ht1 & Ht2 & Ht3 & Ht4 & Ht5).
  unfold convertDocument, try_catch, convertDocument_body.
  unfold bind at 1. unfold pathExists at 1.
  destruct (fs w !! inputPath) as [node |] eqn:Hin; cbn [negb].
  2: { cbn. eexists _, _. split; [reflexivity |]. split; [now left |].
       split; [now exists [] |]. intros ? ? ? K. done. }
  unfold bind at 1.
  destruct (ensureDir _ _ _) as [[[] | e] w2] eqn:E2.
  2: { eexists _, _. split; [reflexivity |].
       split; [exact (ensureDir_only_makes _ _ _ _ E2) |].
       split.
       { rewrite (ensureDir_trace _ _ _ _ E2). cbn. rewrite <- app_assoc. now eexists. }
       intros ? ? ? _ K. discriminate. }
  rewrite Ht4, andb_false_r. unfold bind at 1. cbn [ret].
  unfold generic_path. rewrite Himg. unfold bind at 1.
  pose proof (readDocument_fs inputPath (detectFormat env inputPath) options w2) as Kfs.
  destruct (readDocument_spec inputPath (detectFormat env inputPath) options w2)
    as (_ & (d & Kd & _) & _).
  pose proof (ensureDir_only_makes _ _ _ _ E2) as Kfs2. cbn [fs log] in Kfs2.
  pose proof (ensureDir_trace _ _ _ _ E2) as Kt2. cbn in Kt2.
  destruct (readDocument _ _ _ _ _) as [[c | e] w3] eqn:E3; cbn in Kfs, Kd.
  - unfold bind at 1. unfold writeDocument.
    rewrite Ht1, Ht2, Ht3, Ht4, Ht5. cbn [throw].
    eexists _, _. split; [reflexivity |].
    split; [rewrite Kfs; exact Kfs2 |].
    split; [rewrite Kd, Kt2, <- !app_assoc; now eexists |].
    intros ? ? ? _ [= <-] K. rewrite E3 in K. now injection K as <- <-.
  - eexists _, _. split; [reflexivity |].
    split; [rewrite Kfs; exact Kfs2 |].
    split; [rewrite Kd, Kt2, <- !app_assoc; now eexists |].
    intros ? ? ? _ [= <-] K. rewrite E3 in K. discriminate.
Qed.

(** ** The sharp pipeline *)

Lemma extend_nil p : extend p [] = p.
Proof. destruct p. unfold extend. cbn. now rewrite app_nil_r. Qed.

Lemma extend_extend p a b : extend (extend p a) b = extend p (a ++ b).
Proof. unfold extend. cbn. now rewrite app_assoc. Qed.

Lemma logs_nil w : logs [] w = w.
Proof. destruct w. unfold logs. cbn. now rewrite app_nil_r. Qed.

Lemma logs_logs a b w : logs b (logs a w) = logs (a ++ b) w.
Proof. unfold logs. cbn. now rewrite app_assoc. Qed.

Lemma builds_ret p : builds (ret p) p [].
Proof. intros w. cbn. now rewrite extend_nil, logs_nil. Qed.

Lemma builds_sharp_op p op : builds (sharp_op env p op) p [op].
Proof.
  intros w. unfold sharp_op, bind, checked, extern.
  destruct (sharp_call env w p op) as [e |]; cbn.
  - now exists [op].
  - done.
Qed.

Lemma builds_sharp_when c op p :
  builds (sharp_when env c op p) p (call_if c op).
Proof. destruct c; [apply builds_sharp_op | apply builds_ret]. Qed.

Lemma builds_bind m k p c1 c2 :
  builds m p c1 ->
  builds (k (extend p c1)) (extend p c1) c2 ->
  builds (bind m k) p (c1 ++ c2).
Proof.
  intros Hm Hk w. specialize (Hm w). unfold bind.
  destruct (m w) as [[p1 | e] w1].
  - destruct Hm as [-> ->]. specialize (Hk (logs (map EvSharp c1) w)).
    destruct (k _ _) as [[p2 | e] w2].
    + destruct Hk as [-> ->].
      now rewrite extend_extend, logs_logs, map_app.
    + destruct Hk as [tried ->]. exists (c1 ++ tried)%list.
      now rewrite logs_logs, map_app.
  - exact Hm.
Qed.

Lemma builds_transforms p options :
  builds (sharp_transforms env p options) p
         (resize_calls options ++ effect_calls options).
Proof.
  unfold sharp_transforms, resize_calls, effect_calls.
  apply builds_bind; [apply builds_sharp_when |].
  destruct (io_effects options) as [effects |]; [| apply builds_ret].
  repeat (apply builds_bind; [apply builds_sharp_when |]).
  apply builds_sharp_when.
Qed.

Lemma builds_applySharpFormat p targetFormat options :
  builds (applySharpFormat env p targetFormat options) p
         (encoder_calls targetFormat options).
Proof.
  unfold applySharpFormat, encoder_calls. cbv zeta.
  repeat (destruct (_ : bool); [apply builds_sharp_op |]).
  apply builds_ret.
Qed.

Lemma builds_watermark p options :
  builds (match io_watermark options with
          | Some watermark => addWatermark env p watermark
          | None => ret p
          end) p (watermark_calls env options).
Proof.
  unfold watermark_calls, addWatermark.
  destruct (io_watermark options) as [watermark |]; [| apply builds_ret].
  cbv zeta.
  repeat (destruct (_ : bool); [apply builds_sharp_op |]).
  apply builds_ret.
Qed.

Lemma sharp_encoder_case p op w :
  match bind (sharp_op env p op)
             (fun q => ret (inl q : SharpPipeline + Leave)) w with
  | (Return (inl p'), w') =>
      p' = extend p [op] /\ w' = logs (map EvSharp [op]) w
  | (Return (inr _), _) => False
  | (Throw e, w') => exists tried, w' = logs (map EvSharp tried) w
  end.
Proof.
  unfold bind, sharp_op, checked, extern, bind.
  destruct (sharp_call env w p op) as [e |]; cbn; [now exists [op] | done].
Qed.

Ltac encoder_case :=
  match goal with
  | |- context [bind (sharp_op ?env ?p ?op) ?k ?w] =>
      let K := fresh "K" in
      pose proof (sharp_encoder_case p op w) as K;
      destruct (bind (sharp_op env p op) k w) as [[[? | ?] | ?] ?];
      [exact K | destruct K | exact K]
  end.

(** The [switch]: the encoder's options are set, or the [try] block is
    left without a call, or the target is refused. *)
Lemma sharp_encoder_run p targetFormat options w :
  match sharp_encoder env p targetFormat options w with
  | (Return (inl p'), w') =>
      p' = extend p (encoder_calls targetFormat options) /\
      w' = logs (map EvSharp (encoder_calls targetFormat options)) w
  | (Return (inr leave), w') =>
      w' = w /\ leave <> Finished /\
      (one_of (JS.toLowerCase targetFormat) ["gif"; "bmp"] = true ->
       leave = ReturnJimp)
  | (Throw e, w') => exists tried, w' = logs (map EvSharp tried) w
  end.
Proof.
  unfold sharp_encoder, encoder_calls. cbv zeta.
  destruct (one_of _ ["jpeg"; "jpg"]); [encoder_case |].
  destruct (_ === "png"); [encoder_case |].
  destruct (_ === "webp"); [encoder_case |].
  destruct (_ === "avif"); [encoder_case |].
  destruct (_ === "tiff"); [encoder_case |].
  cbn [one_of existsb].
  destruct (_ === "gif") eqn:Hgif; [cbn; done |].
  destruct (_ === "bmp") eqn:Hbmp; [cbn; done |].
  destruct (_ === "pdf") eqn:Hpdf; cbn; [done |].
  exists []. now rewrite logs_nil.
Qed.

Lemma sharp_encoder_gif_bmp p targetFormat options w :
  one_of (JS.toLowerCase targetFormat) ["gif"; "bmp"] = true ->
  sharp_encoder env p targetFormat options w = (Return (inr ReturnJimp), w).
Proof.
  unfold sharp_encoder. cbv zeta. cbn [one_of existsb].
  intros [H | H]%orb_prop.
  - apply String.eqb_eq in H. now rewrite H.
  - rewrite orb_false_r in H. apply String.eqb_eq in H. now rewrite H.
Qed.

(** The [try] block of [processImage]: calls on the pipeline, then at
    most one [toFile], with the pipeline of the whole transform chain.
    Unless it finishes, it leaves the file system as it was. *)
Lemma sharp_stage_run inputPath outputPath targetFormat options w :
  let chain := transform_chain env targetFormat options in
  let p := extend (sharp inputPath None) chain in
  match sharp_stage env inputPath outputPath targetFormat options w with
  | (o, w') =>
      (exists tried tail,
          trace w' = (trace w ++ map EvSharp tried ++ tail)%list /\
          (tail = [] \/ tail = [EvSharpToFile p outputPath])) /\
      (o <> Return Finished -> fs w' = fs w)
  end.
Proof.
  cbv zeta. unfold sharp_stage, transform_chain. cbv zeta. unfold bind.
  pose proof (builds_transforms (sharp inputPath None) options w) as K1.
  destruct (sharp_transforms _ _ _ _) as [[p1 | e] w1].
  2: { destruct K1 as [tried ->]. split; [| done].
       exists tried, []. cbn. rewrite app_nil_r. auto. }
  destruct K1 as [-> ->].
  pose proof (sharp_encoder_run
                (extend (sharp inputPath None)
                        (resize_calls options ++ effect_calls options))
                targetFormat options
                (logs (map EvSharp (resize_calls options ++ effect_calls options)) w))
    as K2.
  destruct (sharp_encoder _ _ _ _ _) as [[[p2 | leave] | e] w2].
  3: { destruct K2 as [tried ->]. split; [| done].
       exists ((resize_calls options ++ effect_calls options) ++ tried)%list, [].
       rewrite logs_logs. cbn. rewrite app_nil_r, <- map_app. auto. }
  2: { destruct K2 as (-> & Hl & _). split; [| done].
       eexists _, []. cbn. rewrite app_nil_r. auto. }
  destruct K2 as [-> ->]. rewrite extend_extend, logs_logs, <- map_app.
  pose proof (builds_watermark
                (extend (sharp inputPath None)
                   ((resize_calls options ++ effect_calls options)
                    ++ encoder_calls targetFormat options))
                options
                (logs (map EvSharp
                         ((resize_calls options ++ effect_calls options)
                          ++ encoder_calls targetFormat options)) w)) as K3.
  match type of K3 with
  | match ?t with _ => _ end => destruct t as [[p3 | e] w3]
  end.
  2: { destruct K3 as [tried ->]. split; [| done].
       exists (((resize_calls options ++ effect_calls options)
                ++ encoder_calls targetFormat options) ++ tried)%list, [].
       rewrite logs_logs. cbn. rewrite app_nil_r, <- map_app. auto. }
  destruct K3 as [-> ->]. rewrite extend_extend, <- !app_assoc.
  unfold toFile, emit.
  assert (Hshape : forall (m : gmap string Node) tail,
             exists tried tail',
               trace (put_fs m
                        (log tail
                           (logs (map EvSharp (watermark_calls env options))
                              (logs (map EvSharp
                                       (resize_calls options
                                        ++ effect_calls options
                                        ++ encoder_calls targetFormat options)%list)
                                    w))))
               = (trace w ++ map EvSharp tried ++ tail')%list /\
               (tail' = [] \/ tail' = [tail])).
  { intros m tail.
    exists (resize_calls options ++ effect_calls options
            ++ encoder_calls targetFormat options
            ++ watermark_calls env options)%list, [tail].
    cbn. rewrite !map_app, <- !app_assoc. auto. }
  destruct (sharp_toFile env _ _ _) as [bytes | e]; cbn.
  - destruct (fs_write env outputPath bytes (fs w)) as [m |]; cbn.
    + split; [| done]. apply (Hshape m).
    + split; [| done]. apply (Hshape (fs w)).
  - split; [| done]. apply (Hshape (fs w)).
Qed.

(** Each part of the transform chain stays in its stage. *)
Lemma call_if_stage c op k :
  stage op = k -> Forall (fun o => stage o = k) (call_if c op).
Proof. intros H. destruct c; cbn; auto. Qed.

Lemma resize_calls_stage options :
  Forall (fun o => stage o = 1%nat) (resize_calls options).
Proof. now apply call_if_stage. Qed.

Lemma effect_calls_stage options :
  Forall (fun o => stage o = 2%nat) (effect_calls options).
Proof.
  unfold effect_calls. destruct (io_effects options); [| constructor].
  repeat (apply Forall_app; split); now apply call_if_stage.
Qed.

Lemma encoder_calls_stage targetFormat options :
  Forall (fun o => stage o = 3%nat) (encoder_calls targetFormat options).
Proof.
  unfold encoder_calls. cbv zeta.
  destruct (one_of _ ["jpeg"; "jpg"]); [now repeat constructor |].
  destruct (_ === "png"); [now repeat constructor |].
  destruct (_ === "webp"); [now repeat constructor |].
  destruct (_ === "avif"); [now repeat constructor |].
  destruct (_ === "tiff"); now repeat constructor.
Qed.

Lemma watermark_calls_stage options :
  Forall (fun o => stage o = 4%nat) (watermark_calls env options).
Proof.
  unfold watermark_calls. destruct (io_watermark options); [| constructor].
  cbv zeta. destruct (JS.truthy_str _); [now repeat constructor |].
  destruct (JS.truthy_str _); now repeat constructor.
Qed.

Lemma watermark_calls_one options op :
  In op (watermark_calls env options) -> watermark_calls env options = [op].
Proof.
  unfold watermark_calls. destruct (io_watermark options); [| done].
  cbv zeta. destruct (JS.truthy_str _); [now intros [<- | []] |].
  destruct (JS.truthy_str _); [now intros [<- | []] | done].
Qed.

Lemma not_in_stage k calls overlay gravity blend :
  Forall (fun o => stage o = k) calls -> k <> 4%nat ->
  ~ In (SComposite overlay gravity blend) calls.
Proof.
  intros H Hk Hin. rewrite Forall_forall in H.
  specialize (H _ (proj2 (list_elem_of_In _ _) Hin)). cbn in H. congruence.
Qed.

(** A composite call in the chain is the watermark, and comes last. *)
Lemma chain_composited_last inputPath targetFormat options :
  composited_last targetFormat options
    (extend (sharp inputPath None) (transform_chain env targetFormat options)).
Proof.
  intros overlay gravity blend. cbn. unfold transform_chain.
  rewrite !in_app_iff. intros [H | [H | [H | H]]].
  - now destruct (not_in_stage _ _ _ _ _ (resize_calls_stage options)
                    ltac:(lia) H).
  - now destruct (not_in_stage _ _ _ _ _ (effect_calls_stage options)
                    ltac:(lia) H).
  - now destruct (not_in_stage _ _ _ _ _
                    (encoder_calls_stage targetFormat options) ltac:(lia) H).
  - now rewrite (watermark_calls_one _ _ H).
Qed.

(** The transform chain is ordered by stage. *)
Lemma sorted_app (l1 l2 : list nat) :
  StronglySorted le l1 -> StronglySorted le l2 ->
  (forall x y, In x l1 -> In y l2 -> (x <= y)%nat) ->
  StronglySorted le (l1 ++ l2).
Proof.
  intros H1 H2 H. induction H1 as [| x l1 Hs IH Hx]; cbn; [exact H2 |].
  constructor.
  - apply IH. intros a b Ha Hb. apply H; [now right | exact Hb].
  - apply Forall_app. split; [exact Hx |].
    apply List.Forall_forall. intros y Hy. apply H; [now left | exact Hy].
Qed.

Lemma staged_map k (calls : list SharpOp) :
  Forall (fun o => stage o = k) calls ->
  forall n, In n (map stage calls) -> n = k.
Proof.
  intros H n Hn. apply in_map_iff in Hn as (o & <- & Ho).
  exact (proj1 (List.Forall_forall _ _) H o Ho).
Qed.

Lemma staged_sorted k (calls : list SharpOp) :
  Forall (fun o => stage o = k) calls -> StronglySorted le (map stage calls).
Proof.
  intros H. induction H as [| o calls Ho H IH]; cbn; constructor; [exact IH |].
  apply List.Forall_forall. intros n Hn.
  rewrite (staged_map _ _ H n Hn). lia.
Qed.

Lemma stages_sorted (a b c d : list SharpOp) :
  Forall (fun o => stage o = 1%nat) a ->
  Forall (fun o => stage o = 2%nat) b ->
  Forall (fun o => stage o = 3%nat) c ->
  Forall (fun o => stage o = 4%nat) d ->
  StronglySorted le (map stage (a ++ b ++ c ++ d)).
Proof.
  intros Ha Hb Hc Hd. rewrite !map_app.
  repeat apply sorted_app; eauto using staged_sorted;
    intros x y Hx Hy; rewrite ?in_app_iff in Hy;
    repeat match goal with
           | H : _ \/ _ |- _ => destruct H
           | H : In _ (map stage ?l), F : Forall _ ?l |- _ =>
               apply (staged_map _ _ F) in H
           end; lia.
Qed.

Lemma builds_spec (F : Footprint) (P : Event -> Prop) m p calls :
  builds m p calls -> (forall op, P (EvSharp op)) ->
  spec F P (fun p' => p' = extend p calls) m.
Proof.
  intros Hm HP w. specialize (Hm w).
  assert (HF : forall l, Forall P (map EvSharp l)).
  { intros l. apply List.Forall_forall. intros ev Hev.
    apply in_map_iff in Hev as (op & <- & _). apply HP. }
  destruct (m w) as [[p' | e] w'].
  - destruct Hm as [-> ->].
    split3; cbn; [apply within_refl | eauto | now intros a [= <-]].
  - destruct Hm as [tried ->].
    split3; cbn; [apply within_refl | eauto | done].
Qed.

Lemma sharp_stage_spec inputPath outputPath targetFormat options :
  spec anywhere (toFile_composited_last targetFormat options) any_value
       (sharp_stage env inputPath outputPath targetFormat options).
Proof.
  intros w.
  pose proof (sharp_stage_run inputPath outputPath targetFormat options w) as K.
  cbv zeta in K. destruct (sharp_stage _ _ _ _ _ _) as [o w'].
  destruct K as ((tried & tail & Ht & Htail) & _). split3; cbn.
  - done.
  - exists (map EvSharp tried ++ tail)%list. split; [exact Ht |].
    apply Forall_app. split.
    + apply List.Forall_forall. intros ev Hev.
      apply in_map_iff in Hev as (op & <- & _). exact I.
    + destruct Htail as [-> | ->]; repeat constructor.
      apply chain_composited_last.
  - done.
Qed.

Lemma processSvgImage_spec inputPath outputPath targetFormat options :
  spec anywhere (toFile_composited_last targetFormat options) any_value
       (processSvgImage env inputPath outputPath targetFormat options).
Proof.
  unfold processSvgImage. cbv zeta.
  eapply spec_bind.
  { apply (builds_spec _ _ _ _ _
             (builds_sharp_when (wants_resize options) _ _)). done. }
  intros p1 ->. eapply spec_bind.
  { apply (builds_spec _ _ _ _ _ (builds_applySharpFormat _ _ _)). done. }
  intros p2 ->. unfold toFile. apply spec_emit; [done |].
  intros overlay gravity blend. cbn. rewrite !in_app_iff.
  intros [H | H].
  - assert (K : Forall (fun o => stage o = 1%nat)
                 (call_if (wants_resize options)
                    (SResize (Some (JS.or_num (io_width options) 800))
                       (Some (JS.or_num (io_height options) 600))
                       (JS.or_str (io_fit options) "inside")
                       (background_of options))))
      by now apply call_if_stage.
    now destruct (not_in_stage _ _ _ _ _ K ltac:(lia) H).
  - now destruct (not_in_stage _ _ _ _ _
                    (encoder_calls_stage targetFormat options) ltac:(lia) H).
Qed.

Lemma processImage_spec inputPath outputPath targetFormat options :
  spec anywhere (toFile_composited_last targetFormat options) any_value
       (processImage env inputPath outputPath targetFormat options).
Proof.
  unfold processImage. cbv zeta.
  destruct (_ === "svg"); [apply processSvgImage_spec |].
  apply (spec_bind _ _ any_value).
  - apply spec_try_catch; [apply sharp_stage_spec | intros e; spec_go].
  - intros leave _. destruct leave; spec_go.
Qed.

(** ** Watermark after resize *)

Lemma emit_trace ev f out w o w' :
  emit env ev f out w = (o, w') -> trace w' = (trace w ++ [ev])%list.
Proof.
  unfold emit. destruct (f w) as [bytes | e].
  - destruct (fs_write env out bytes (fs w)) as [m | e]; now intros [= <- <-].
  - now intros [= <- <-].
Qed.

(** When the [try] block of [processImage] runs to its end, the calls
    made are the whole transform chain, in its order, and then one
    [toFile] of the pipeline they built. *)
Lemma sharp_stage_finished inputPath outputPath targetFormat options w w' :
  sharp_stage env inputPath outputPath targetFormat options w
  = (Return Finished, w') ->
  trace w'
  = (trace w ++ map EvSharp (transform_chain env targetFormat options)
     ++ [EvSharpToFile
           (extend (sharp inputPath None)
                   (transform_chain env targetFormat options))
           outputPath])%list.
Proof.
  unfold sharp_stage, transform_chain. cbv zeta. intros E.
  apply bind_inv_Return in E as (p1 & w1 & E1 & E).
  pose proof (builds_transforms (sharp inputPath None) options w) as K1.
  rewrite E1 in K1. destruct K1 as [-> ->].
  apply bind_inv_Return in E as (encoded & w2 & E2 & E).
  match type of E2 with
  | sharp_encoder _ ?p _ _ ?w0 = _ =>
      pose proof (sharp_encoder_run p targetFormat options w0) as K2
  end.
  rewrite E2 in K2. destruct encoded as [p2 | leave].
  2: { destruct K2 as (_ & Hl & _). now injection E as -> _. }
  destruct K2 as [-> ->].
  apply bind_inv_Return in E as (p3 & w3 & E3 & E).
  match type of E3 with
  | _ ?w0 = _ =>
      pose proof (builds_watermark
                    (extend (sharp inputPath None)
                       ((resize_calls options ++ effect_calls options)
                        ++ encoder_calls targetFormat options))
                    options w0) as K3
  end.
  rewrite extend_extend in E3. rewrite E3 in K3. destruct K3 as [-> ->].
  apply bind_inv_Return in E as ([] & w4 & E4 & [= <-]).
  unfold toFile in E4. apply emit_trace in E4. rewrite E4. cbn.
  rewrite !extend_extend, !map_app, <- !app_assoc. reflexivity.
Qed.
(** C6. Whenever [processImage] has sharp write a file from a pipeline
    that carries a watermark (a composite call), the calls made on
    that pipeline are, in this order: the resize (if one was asked
    for), the effects, the encoder's options, and last the composite.
    The composite is given a gravity and no coordinates, so sharp
    places the watermark on the image as it is after the calls before
    it; the file is encoded when [toFile] runs, after all of them.
    And when the [try] block of [processImage] runs to its end, the
    calls it made are exactly this chain, resize first and watermark
    last, followed by the one [toFile]. *)
Theorem watermark_composited_after_resize
    (inputPath outputPath targetFormat : string)
    (options : ImageConversionOptions) (w : World) :
  (exists calls,
    trace (snd (processImage env inputPath outputPath targetFormat options w))
    = (trace w ++ calls)%list /\
    forall p out overlay gravity blend,
      In (EvSharpToFile p out) calls ->
      In (SComposite overlay gravity blend) (sp_ops p) ->
      sp_ops p
      = (resize_calls options ++ effect_calls options
         ++ encoder_calls targetFormat options
         ++ [SComposite overlay gravity blend])%list
      /\ Forall (fun op => (stage op < stage (SComposite overlay gravity blend))%nat)
                (resize_calls options ++ effect_calls options
                 ++ encoder_calls targetFormat options)
      /\ StronglySorted le (map stage (sp_ops p))) /\
  (forall w',
      sharp_stage env inputPath outputPath targetFormat options w
      = (Return Finished, w') ->
      trace w'
      = (trace w
         ++ map EvSharp
              (resize_calls options ++ effect_calls options
               ++ encoder_calls targetFormat options
               ++ watermark_calls env options)
         ++ [EvSharpToFile
               (extend (sharp inputPath None)
                       (transform_chain env targetFormat options))
               outputPath])%list).
Proof.
  split; [| apply sharp_stage_finished].
  destruct (processImage_spec inputPath outputPath targetFormat options w)
    as (_ & (calls & Ht & HF) & _).
  exists calls. split; [exact Ht |].
  intros p out overlay gravity blend Hin Hc.
  pose proof (proj1 (List.Forall_forall _ _) HF _ Hin) as K. cbn in K.
  specialize (K _ _ _ Hc). split; [exact K |]. split.
  - repeat (apply Forall_app; split);
      [eapply Forall_impl; [apply resize_calls_stage |]
      | eapply Forall_impl; [apply effect_calls_stage |]
      | eapply Forall_impl; [apply encoder_calls_stage |]];
      cbn; intros op ->; lia.
  - rewrite K.
    apply stages_sorted;
      auto using resize_calls_stage, effect_calls_stage, encoder_calls_stage.
Qed.

(** ** Fallback to Jimp *)

(** The handler of [processImage]: the warning, then the whole Jimp
    pipeline. *)
Lemma jimp_handler inputPath outputPath targetFormat options msg w :
  bind (bind (warn msg)
          (fun _ =>
             bind (processWithJimp env inputPath outputPath targetFormat options)
                  (fun _ => ret Finished)))
       (fun leave =>
          match leave with
          | Finished => ret tt
          | ReturnJimp =>
              processWithJimp env inputPath outputPath targetFormat options
          | ReturnPdf => convertImageToPdf env inputPath outputPath options
          end) w
  = processWithJimp env inputPath outputPath targetFormat options
      (log (EvWarn msg) w).
Proof.
  unfold bind, warn, ret.
  destruct (processWithJimp _ _ _ _ _ _) as [[[] | e] w']; reflexivity.
Qed.

Lemma processImage_on_throw inputPath outputPath targetFormat options w e w1 :
  (detectImageFormat env inputPath === "svg") = false ->
  sharp_stage env inputPath outputPath targetFormat options w = (Throw e, w1) ->
  processImage env inputPath outputPath targetFormat options w
  = processWithJimp env inputPath outputPath targetFormat options
      (log (EvWarn ("Sharp processing failed, falling back to Jimp: "
                    +:+ error_to_string e)) w1).
Proof.
  intros Hsvg E. unfold processImage. cbv zeta. rewrite Hsvg.
  rewrite <- jimp_handler. unfold bind at 1 3.
  now rewrite (try_catch_Throw _ _ _ _ _ E).
Qed.

(** For a GIF or BMP target the [try] block ends before any encoder is
    set: it is left for Jimp, unless sharp refused a transform. *)
Lemma sharp_stage_gif_bmp inputPath outputPath targetFormat options w :
  one_of (JS.toLowerCase targetFormat) ["gif"; "bmp"] = true ->
  exists tried,
    sharp_stage env inputPath outputPath targetFormat options w
    = (Return ReturnJimp, logs (map EvSharp tried) w)
    \/ exists e,
      sharp_stage env inputPath outputPath targetFormat options w
      = (Throw e, logs (map EvSharp tried) w).
Proof.
  intros Htf.
  destruct (sharp_stage _ _ _ _ _ _) as [o w'] eqn:E.
  unfold sharp_stage in E. cbv zeta in E. unfold bind at 1 in E.
  pose proof (builds_transforms (sharp inputPath None) options w) as K.
  destruct (sharp_transforms _ _ _ _) as [[p1 | e] w1].
  - destruct K as [-> ->]. unfold bind in E.
    rewrite sharp_encoder_gif_bmp in E by done. injection E as <- <-.
    eexists. left. reflexivity.
  - injection E as <- <-. destruct K as [tried ->].
    exists tried. right. now exists e.
Qed.

(** C4 (as amended). For an image that is not an SVG: when anything
    throws in the [try] block of [processImage] (a transform sharp
    refuses, an unknown target, the encoding in [toFile]), the file
    system is as it was before the block and the rest of
    [processImage] is, after the warning, exactly one run of the Jimp
    pipeline on the same input, output, target and options, starting
    with its own read of the input. When the target is [gif] or [bmp]
    (in any case of letters), [processImage] is a run of the Jimp
    pipeline from a world in which only transforms were set on the
    sharp pipeline or a warning written: sharp was never asked to
    write the file. *)
Theorem sharp_failure_retried_with_jimp
    (inputPath outputPath targetFormat : string)
    (options : ImageConversionOptions) (w : World) :
  (detectImageFormat env inputPath === "svg") = false ->
  (forall e w1,
      sharp_stage env inputPath outputPath targetFormat options w
      = (Throw e, w1) ->
      fs w1 = fs w /\
      processImage env inputPath outputPath targetFormat options w
      = processWithJimp env inputPath outputPath targetFormat options
          (log (EvWarn ("Sharp processing failed, falling back to Jimp: "
                        +:+ error_to_string e)) w1))
  /\ (one_of (JS.toLowerCase targetFormat) ["gif"; "bmp"] = true ->
      exists w1 calls,
        processImage env inputPath outputPath targetFormat options w
        = processWithJimp env inputPath outputPath targetFormat options w1 /\
        fs w1 = fs w /\
        trace w1 = (trace w ++ calls)%list /\
        Forall (fun ev => ~ is_toFile ev /\ ~ is_jimp ev) calls).
Proof.
  intros Hsvg. split.
  - intros e w1 E. split; [| now apply processImage_on_throw].
    pose proof (sharp_stage_run inputPath outputPath targetFormat options w) as K.
    cbv zeta in K. rewrite E in K. now apply K.
  - intros Htf.
    assert (HF : forall l, Forall (fun ev => ~ is_toFile ev /\ ~ is_jimp ev)
                             (map EvSharp l)).
    { intros l. apply List.Forall_forall. intros ev Hev.
      apply in_map_iff in Hev as (op & <- & _). cbn. tauto. }
    destruct (sharp_stage_gif_bmp inputPath outputPath targetFormat options w Htf)
      as (tried & [E | [e E]]).
    + exists (logs (map EvSharp tried) w), (map EvSharp tried).
      split; [| split; [done | split; [done | apply HF]]].
      unfold processImage. cbv zeta. rewrite Hsvg. unfold bind.
      now rewrite (try_catch_Return _ _ _ _ _ E).
    + eexists _, (map EvSharp tried ++ [EvWarn _])%list.
      split; [eapply processImage_on_throw; eassumption |].
      split; [done |]. split; [cbn; now rewrite app_assoc |].
      apply Forall_app. split; [apply HF |]. repeat constructor; cbn; tauto.
Qed.

(** ** The strategies for Word documents going to PDF *)

Lemma output_present_run outputPath w :
  exists b w' calls,
    output_present env outputPath w = (Return b, w') /\
    fs w' = fs w /\ trace w' = (trace w ++ calls)%list /\
    (calls = [EvPathExists outputPath] \/
     calls = [EvPathExists outputPath; EvStat outputPath]) /\
    (b = true ->
     calls = [EvPathExists outputPath; EvStat outputPath] /\
     exists n, size_of env (fs w) outputPath = Some n /\ 0 < n).
Proof.
  unfold output_present, bind, pathExists, stat, ret, size_of.
  destruct (fs w !! outputPath) as [[c |] |] eqn:Hout; cbn.
  - rewrite Hout. eexists _, _, [_; _]. split; [reflexivity |].
    cbn. rewrite <- app_assoc.
    repeat split; auto. eexists. split; [done |]. now apply Z.ltb_lt.
  - rewrite Hout. eexists _, _, [_; _]. split; [reflexivity |].
    cbn. rewrite <- app_assoc.
    repeat split; auto. eexists. split; [done |]. now apply Z.ltb_lt.
  - eexists _, _, [_]. split; [reflexivity |]. cbn. repeat split; auto; done.
Qed.

Lemma WordCom_run inputPath outputPath w :
  exists b w' calls,
    convertDocxToPdfViaWordCom env inputPath outputPath w = (Return b, w') /\
    trace w' = (trace w ++ calls)%list /\
    (exists tempDir, calls `prefix_of` com_calls env tempDir inputPath outputPath) /\
    ((platform env === "win32") = false -> calls = [] /\ b = false /\ w' = w) /\
    (b = true ->
     (platform env === "win32") = true /\
     (exists tempDir, calls = com_calls env tempDir inputPath outputPath) /\
     helper_made env calls (fs w') outputPath).
Proof.
  unfold convertDocxToPdfViaWordCom.
  destruct (platform env === "win32") eqn:Hp; cbn [negb].
  2: { exists false, w, []. split; [reflexivity |]. rewrite app_nil_r.
       repeat split; try done. exists EmptyString. apply prefix_nil. }
  unfold try_catch, bind at 1, mkdtemp.
  set (tempDir := join env [tmpdir env; "docx2pdf-"] +:+ mkdtemp_suffix env w).
  destruct (fs w !! tempDir) as [node |] eqn:Htmp.
  { eexists false, _, [_]. split; [reflexivity |]. cbn.
    repeat split; try done. exists tempDir. now eexists. }
  unfold bind at 1, writeFile. cbn [fs put_fs log].
  destruct (fs_write env _ vbs _) as [m |] eqn:Hw.
  2: { eexists false, _, [_; _]. split; [reflexivity |]. cbn.
       rewrite <- app_assoc. repeat split; try done.
       exists tempDir. now eexists. }
  unfold bind at 1, spawn_proc. cbn [fst snd].
  match goal with
  | |- context [spawn env ?w0 ?cmd ?args ?vars] =>
      set (ws := w0); destruct (spawn env ws cmd args vars) as [code m'] eqn:Hs
  end.
  cbn [fst snd].
  destruct (exited_cleanly code) eqn:Hc.
  2: { eexists false, _, [_; _; _]. split; [reflexivity |]. cbn.
       rewrite <- !app_assoc. repeat split; try done.
       exists tempDir. now eexists. }
  match goal with
  | |- context [output_present env outputPath ?w1] =>
      destruct (output_present_run outputPath w1)
        as (b & w' & calls & E & Hfs & Ht & Hshape & Hb)
  end.
  rewrite E.
  exists b, w', (firstn 3 (com_calls env tempDir inputPath outputPath) ++ calls)%list.
  split; [reflexivity |].
  rewrite Ht. unfold ws. cbn. rewrite <- !app_assoc. cbn.
  split; [reflexivity |]. split.
  { exists tempDir. destruct Hshape as [-> | ->]; [now exists [EvStat outputPath] | now exists []]. }
  split; [done |]. intros ->. destruct (Hb eq_refl) as (-> & n & Hn & Hpos).
  split; [done |]. split; [now exists tempDir |]. split.
  - eexists _, _, _, ws. split; [right; right; now left |].
    rewrite Hs. cbn. destruct code as [c |]; [| done]. cbn in Hc.
    apply Z.eqb_eq in Hc. now subst.
  - exists n. now rewrite Hfs.
Qed.

Lemma exited_cleanly_zero code : exited_cleanly code = true -> code = Some 0.
Proof.
  destruct code as [c |]; cbn; [| done]. now intros ->%Z.eqb_eq.
Qed.

Lemma Python_run inputPath outputPath w :
  exists b w' calls,
    convertDocxToPdfViaPython env inputPath outputPath w = (Return b, w') /\
    trace w' = (trace w ++ calls)%list /\
    (exists second,
        calls `prefix_of` python_calls env inputPath outputPath second) /\
    (b = true ->
     (exists second, calls = python_calls env inputPath outputPath second) /\
     helper_made env calls (fs w') outputPath).
Proof.
  unfold convertDocxToPdfViaPython. cbv zeta. fold (python_script env).
  unfold try_catch, bind at 1, pathExists.
  destruct (fs w !! python_script env) as [node |] eqn:Hscript; cbn [negb].
  2: { eexists false, _, [_]. split; [reflexivity |]. cbn.
       repeat split; try done. exists false. now eexists. }
  unfold bind at 1, spawn_proc. cbn [fst snd].
  match goal with
  | |- context [spawn env ?w0 ?cmd ?args ?vars] =>
      set (ws1 := w0); destruct (spawn env ws1 cmd args vars) as [code1 m1] eqn:Hs1
  end.
  cbn [fst snd]. unfold bind at 1.
  destruct (exited_cleanly code1) eqn:Hc1; cbn [negb ret].
  - match goal with
    | |- context [output_present env outputPath ?w1] =>
        destruct (output_present_run outputPath w1)
          as (b & w' & calls & E & Hfs & Ht & Hshape & Hb)
    end.
    rewrite E.
    exists b, w',
      (firstn 2 (python_calls env inputPath outputPath false) ++ calls)%list.
    split; [reflexivity |].
    rewrite Ht. unfold ws1. cbn. rewrite <- !app_assoc. cbn.
    split; [reflexivity |]. split.
    { exists false.
      destruct Hshape as [-> | ->];
        [now exists [EvStat outputPath] | now exists []]. }
    intros ->. destruct (Hb eq_refl) as (-> & n & Hn & Hpos).
    split; [now exists false |]. split.
    + eexists _, _, _, ws1. split; [right; now left |].
      rewrite Hs1. cbn. now apply exited_cleanly_zero.
    + exists n. now rewrite Hfs.
  - unfold bind at 1. cbn [fst snd].
    match goal with
    | |- context [spawn env ?w0 "py" ?args ?vars] =>
        set (ws2 := w0);
        destruct (spawn env ws2 "py" args vars) as [code2 m2] eqn:Hs2
    end.
    cbn [fst snd ret].
    destruct (exited_cleanly code2) eqn:Hc2.
    2: { eexists false, _,
           (firstn 3 (python_calls env inputPath outputPath true)).
         split; [reflexivity |]. unfold ws2, ws1. cbn.
         rewrite <- !app_assoc. cbn.
         repeat split; try done. exists true. now eexists. }
    match goal with
    | |- context [output_present env outputPath ?w1] =>
        destruct (output_present_run outputPath w1)
          as (b & w' & calls & E & Hfs & Ht & Hshape & Hb)
    end.
    rewrite E.
    exists b, w',
      (firstn 3 (python_calls env inputPath outputPath true) ++ calls)%list.
    split; [reflexivity |].
    rewrite Ht. unfold ws2, ws1. cbn. rewrite <- !app_assoc. cbn.
    split; [reflexivity |]. split.
    { exists true.
      destruct Hshape as [-> | ->];
        [now exists [EvStat outputPath] | now exists []]. }
    intros ->. destruct (Hb eq_refl) as (-> & n & Hn & Hpos).
    split; [now exists true |]. split.
    + eexists _, _, _, ws2. split; [right; right; now left |].
      rewrite Hs2. cbn. now apply exited_cleanly_zero.
    + exists n. now rewrite Hfs.
Qed.

(** *** The strategies are attempted, and when they succeed *)

Lemma output_present_exact outputPath w :
  exists w' calls,
    output_present env outputPath w
    = (Return (output_made env (fs w) outputPath), w') /\
    fs w' = fs w /\ trace w' = (trace w ++ calls)%list.
Proof.
  unfold output_present, output_made, bind, pathExists, stat, ret, size_of.
  destruct (fs w !! outputPath) as [[c |] |] eqn:Hout; cbn.
  - rewrite Hout. eexists _, [_; _]. split; [reflexivity |].
    cbn. now rewrite <- app_assoc.
  - rewrite Hout. eexists _, [_; _]. split; [reflexivity |].
    cbn. now rewrite <- app_assoc.
  - eexists _, [_]. split; [reflexivity |]. now cbn.
Qed.

Lemma mkdtemp_trace prefix w o w' :
  mkdtemp env prefix w = (o, w') ->
  trace w' = (trace w ++ [EvMkdtemp prefix])%list.
Proof.
  unfold mkdtemp. destruct (fs w !! _); now intros [= <- <-].
Qed.

(** On [win32] the Word COM bridge starts: its first call is made. *)
Lemma WordCom_starts inputPath outputPath w :
  (platform env === "win32") = true ->
  exists b w' rest,
    convertDocxToPdfViaWordCom env inputPath outputPath w = (Return b, w') /\
    trace w'
    = (trace w ++ EvMkdtemp (join env [tmpdir env; "docx2pdf-"]) :: rest)%list.
Proof.
  intros Hp.
  assert (Hk : forall tempDir,
    spec anywhere any_call any_value
      (run writeFile env (join env [tempDir; "docx2pdf.vbs"]) vbs in
       await code :=
         spawn_proc env "cscript"
           ["//nologo"; join env [tempDir; "docx2pdf.vbs"]; inputPath;
            outputPath] [] in
       if exited_cleanly code then output_present env outputPath
       else ret false))
    by (intros; unfold any_call; spec_go).
  unfold convertDocxToPdfViaWordCom. rewrite Hp. cbn [negb].
  unfold try_catch.
  destruct (mkdtemp env (join env [tmpdir env; "docx2pdf-"]) w)
    as [[tempDir | e] wa] eqn:Em;
    pose proof (mkdtemp_trace _ _ _ _ Em) as Ha.
  2: { erewrite bind_Throw by exact Em.
       exists false, wa, []. split; [reflexivity | exact Ha]. }
  erewrite bind_Return by exact Em. cbv zeta.
  destruct (Hk tempDir wa) as (_ & (rest & Hrest & _) & _).
  match type of Hrest with
  | trace (snd ?t) = _ => destruct t as [[b | e] w']
  end; cbn [snd] in Hrest.
  - exists b, w', rest. split; [reflexivity |].
    now rewrite Hrest, Ha, <- app_assoc.
  - exists false, w', rest. split; [reflexivity |].
    now rewrite Hrest, Ha, <- app_assoc.
Qed.

(** Once the script is written, the [cscript] process is started, and
    the bridge reports success exactly when the process exited with
    code 0 and left an output that is not empty. *)
Lemma WordCom_exact inputPath outputPath w tempDir wa wb :
  (platform env === "win32") = true ->
  mkdtemp env (join env [tmpdir env; "docx2pdf-"]) w = (Return tempDir, wa) ->
  writeFile env (join env [tempDir; "docx2pdf.vbs"]) vbs wa = (Return tt, wb) ->
  let ran :=
    spawn env wb "cscript"
      ["//nologo"; join env [tempDir; "docx2pdf.vbs"]; inputPath; outputPath]
      [] in
  exists w' tail,
    convertDocxToPdfViaWordCom env inputPath outputPath w
    = (Return (exited_cleanly (fst ran)
               && output_made env (snd ran) outputPath), w') /\
    trace w'
    = (trace w ++ firstn 3 (com_calls env tempDir inputPath outputPath)
       ++ tail)%list.
Proof.
  intros Hp Hm Hw ran.
  pose proof (mkdtemp_trace _ _ _ _ Hm) as Ha.
  pose proof (writeFile_trace _ _ _ _ _ Hw) as Hb.
  unfold convertDocxToPdfViaWordCom. rewrite Hp. cbn [negb].
  unfold try_catch.
  erewrite bind_Return by exact Hm. cbv zeta.
  erewrite bind_Return by exact Hw.
  unfold bind at 1, spawn_proc. cbn [fst snd]. fold ran.
  destruct (exited_cleanly (fst ran)) eqn:Hc; cbn [andb].
  - match goal with
    | |- context [output_present env outputPath ?w1] =>
        destruct (output_present_exact outputPath w1)
          as (w' & calls & E & Hfs & Ht)
    end.
    rewrite E. cbn [fs put_fs]. exists w', calls. split; [reflexivity |].
    rewrite Ht. cbn. rewrite Hb, Ha, <- !app_assoc. reflexivity.
  - eexists _, []. split; [reflexivity |].
    cbn. rewrite Hb, Ha, <- !app_assoc. reflexivity.
Qed.

(** The Python helper always looks for its script; when the script is
    there it starts [python], and [py] when [python] did not exit
    cleanly, and it reports success exactly when the last process
    exited with code 0 and left an output that is not empty. *)
Lemma Python_exact inputPath outputPath w :
  let args := [python_script env; inputPath; outputPath] in
  let wp := log (EvPathExists (python_script env)) w in
  let first := spawn env wp "python" args python_vars in
  let wq := put_fs (snd first) (log (EvSpawn "python" args python_vars) wp) in
  let second := spawn env wq "py" ("-3" :: args) python_vars in
  exists w' rest,
    convertDocxToPdfViaPython env inputPath outputPath w
    = (Return
         (match fs w !! python_script env with
          | None => false
          | Some _ =>
              if exited_cleanly (fst first)
              then output_made env (snd first) outputPath
              else exited_cleanly (fst second)
                   && output_made env (snd second) outputPath
          end), w') /\
    trace w' = (trace w ++ EvPathExists (python_script env) :: rest)%list /\
    (fs w !! python_script env <> None ->
     In (EvSpawn "python" args python_vars) rest /\
     (exited_cleanly (fst first) = false ->
      In (EvSpawn "py" ("-3" :: args) python_vars) rest)).
Proof.
  intros args wp first wq second.
  unfold convertDocxToPdfViaPython. cbv zeta. fold (python_script env).
  unfold try_catch, bind at 1, pathExists.
  destruct (fs w !! python_script env) as [node |] eqn:Hscript; cbn [negb].
  2: { eexists _, []. split; [reflexivity |]. split; [reflexivity | done]. }
  unfold bind at 1, spawn_proc. cbn [fst snd].
  fold args. fold wp. fold first. fold wq.
  unfold bind at 1.
  destruct (exited_cleanly (fst first)) eqn:Hc1; cbn [negb ret].
  - match goal with
    | |- context [output_present env outputPath ?w1] =>
        destruct (output_present_exact outputPath w1)
          as (w' & calls & E & Hfs & Ht)
    end.
    rewrite E. exists w', (EvSpawn "python" args python_vars :: calls).
    split; [reflexivity |]. split.
    + rewrite Ht. unfold wq, wp. cbn. now rewrite <- !app_assoc.
    + intros _. split; [now left | discriminate].
  - unfold bind at 1. cbn [fst snd]. fold second.
    destruct (exited_cleanly (fst second)) eqn:Hc2; cbn [andb ret].
    + match goal with
      | |- context [output_present env outputPath ?w1] =>
          destruct (output_present_exact outputPath w1)
            as (w' & calls & E & Hfs & Ht)
      end.
      rewrite E.
      exists w', (EvSpawn "python" args python_vars
                  :: EvSpawn "py" ("-3" :: args) python_vars :: calls).
      split; [reflexivity |]. split.
      * rewrite Ht. unfold wq, wp. cbn. now rewrite <- !app_assoc.
      * intros _. split; [now left | intros _; right; now left].
    + eexists _, [EvSpawn "python" args python_vars;
                  EvSpawn "py" ("-3" :: args) python_vars].
      split; [reflexivity |]. split.
      * unfold wq, wp. cbn. now rewrite <- !app_assoc.
      * intros _. split; [now left | intros _; right; now left].
Qed.

Lemma render_path_spec inputPath outputPath options :
  spec anywhere no_spawn any_value
    (await content := readDocument env inputPath "docx" options in
     run convertToPdf env content outputPath options in
     ret (converted outputPath "Successfully converted docx to pdf")).
Proof. unfold no_spawn. spec_go. Qed.


(** C2. A request to convert a Word document to PDF, once the input
    has been found and the output directory made, goes through the
    strategies in this order.
    - First the Word COM bridge, once: its calls are a beginning of
      [mkdtemp], the script written, one [cscript] process, the look
      at the output and its size; on a platform other than [win32] it
      makes no call at all. On [win32] it is attempted: [mkdtemp] is
      called, and once the script is written the process is started.
      It reports success exactly when the process exited with code 0
      and the output is there with a size above 0.
    - Then, only if the bridge did not succeed, the Python helper,
      once: its calls are a beginning of the look for the script, one
      [python] process, one [py] process if [python] did not exit
      cleanly, the look at the output and its size. It is attempted
      whenever the bridge did not succeed: the script is looked for,
      and when it is there the processes are started. It reports
      success exactly when the script is there, the last process
      started exited with code 0 and the output is there with a size
      above 0.
    - If neither succeeded, the request is not refused: the result is
      that of the read stage followed by the HTML rendering of
      [convertToPdf], inside the same [try], and these stages start no
      helper process. *)
Theorem docx_to_pdf_strategies_in_order
    (inputPath outputPath : string) (options : ConversionOptions)
    (w w1 : World) :
  fs w !! inputPath <> None ->
  detectFormat env inputPath = "docx" ->
  ensureDir env (dirname env outputPath) (log (EvPathExists inputPath) w)
  = (Return tt, w1) ->
  exists usedCom w2 com usedPy w3 py,
    convertDocxToPdfViaWordCom env inputPath outputPath w1
    = (Return usedCom, w2) /\
    trace w2 = (trace w1 ++ com)%list /\
    (exists tempDir,
        com `prefix_of` com_calls env tempDir inputPath outputPath) /\
    ((platform env === "win32") = false -> com = [] /\ usedCom = false) /\
    (usedCom = true -> helper_made env com (fs w2) outputPath) /\
    (if usedCom then usedPy = false /\ w3 = w2
     else convertDocxToPdfViaPython env inputPath outputPath w2
          = (Return usedPy, w3)) /\
    trace w3 = (trace w2 ++ py)%list /\
    (exists second,
        py `prefix_of` python_calls env inputPath outputPath second) /\
    (usedPy = true -> helper_made env py (fs w3) outputPath) /\
    convertDocument env inputPath outputPath "pdf" options w
    = (if usedCom then
         (Return (converted outputPath
            "Successfully converted docx to pdf via Microsoft Word (COM)"), w2)
       else if usedPy then
         (Return (converted outputPath
            "Successfully converted docx to pdf via DocumentAssistant script"), w3)
       else
         try_catch
           (await content := readDocument env inputPath "docx" options in
            run convertToPdf env content outputPath options in
            ret (converted outputPath "Successfully converted docx to pdf"))
           (fun error => ret (conversion_failure outputPath error)) w3) /\
    (exists gen,
        trace (snd ((await content := readDocument env inputPath "docx" options in
                     run convertToPdf env content outputPath options in
                     ret (converted outputPath
                            "Successfully converted docx to pdf")) w3))
        = (trace w3 ++ gen)%list /\
        Forall (fun ev => ~ is_spawn ev) gen) /\
    ((platform env === "win32") = true ->
     (exists rest,
         com = EvMkdtemp (join env [tmpdir env; "docx2pdf-"]) :: rest) /\
     (forall tempDir wa wb,
         mkdtemp env (join env [tmpdir env; "docx2pdf-"]) w1
         = (Return tempDir, wa) ->
         writeFile env (join env [tempDir; "docx2pdf.vbs"]) vbs wa
         = (Return tt, wb) ->
         let script := join env [tempDir; "docx2pdf.vbs"] in
         let ran :=
           spawn env wb "cscript"
             ["//nologo"; script; inputPath; outputPath] [] in
         In (EvSpawn "cscript" ["//nologo"; script; inputPath; outputPath] [])
            com /\
         usedCom
         = exited_cleanly (fst ran)
           && output_made env (snd ran) outputPath)) /\
    (usedCom = false ->
     let args := [python_script env; inputPath; outputPath] in
     let wp := log (EvPathExists (python_script env)) w2 in
     let first := spawn env wp "python" args python_vars in
     let wq :=
       put_fs (snd first) (log (EvSpawn "python" args python_vars) wp) in
     let second := spawn env wq "py" ("-3" :: args) python_vars in
     (exists rest, py = EvPathExists (python_script env) :: rest) /\
     usedPy
     = match fs w2 !! python_script env with
       | None => false
       | Some _ =>
           if exited_cleanly (fst first)
           then output_made env (snd first) outputPath
           else exited_cleanly (fst second)
                && output_made env (snd second) outputPath
       end /\
     (fs w2 !! python_script env <> None ->
      In (EvSpawn "python" args python_vars) py /\
      (exited_cleanly (fst first) = false ->
       In (EvSpawn "py" ("-3" :: args) python_vars) py))).
Proof.
  intros Hin Hfmt Hdir.
  destruct (WordCom_run inputPath outputPath w1)
    as (usedCom & w2 & com & E1 & Ht1 & Hp1 & Hw1 & Hb1).
  assert (Hattempt :
    (platform env === "win32") = true ->
    (exists rest,
        com = EvMkdtemp (join env [tmpdir env; "docx2pdf-"]) :: rest) /\
    (forall tempDir wa wb,
        mkdtemp env (join env [tmpdir env; "docx2pdf-"]) w1
        = (Return tempDir, wa) ->
        writeFile env (join env [tempDir; "docx2pdf.vbs"]) vbs wa
        = (Return tt, wb) ->
        let script := join env [tempDir; "docx2pdf.vbs"] in
        let ran :=
          spawn env wb "cscript"
            ["//nologo"; script; inputPath; outputPath] [] in
        In (EvSpawn "cscript" ["//nologo"; script; inputPath; outputPath] [])
           com /\
        usedCom
        = exited_cleanly (fst ran)
          && output_made env (snd ran) outputPath)).
  { intros Hp. split.
    - destruct (WordCom_starts inputPath outputPath w1 Hp)
        as (b & w' & rest & E & Ht).
      rewrite E1 in E. injection E as _ <-.
      rewrite Ht1 in Ht. apply app_inv_head in Ht. now exists rest.
    - intros tempDir wa wb Hm Hw. cbv zeta.
      destruct (WordCom_exact inputPath outputPath w1 tempDir wa wb Hp Hm Hw)
        as (w' & tail & E & Ht).
      rewrite E1 in E. injection E as Hb <-.
      rewrite Ht1 in Ht. apply app_inv_head in Ht.
      split; [| exact Hb].
      rewrite Ht. cbn. right. right. now left. }
  assert (Hstart :
    forall k,
      try_catch
        (await found := pathExists inputPath in
         if negb found then throw ("Input file does not exist: " +:+ inputPath)
         else
           run ensureDir env (dirname env outputPath) in
           k)
        (fun error => ret (conversion_failure outputPath error)) w
      = try_catch k (fun error => ret (conversion_failure outputPath error)) w1).
  { intros k. unfold try_catch, bind at 1, pathExists.
    destruct (fs w !! inputPath); [| done]. cbn [negb].
    unfold bind at 1. now rewrite Hdir. }
  unfold convertDocument, convertDocument_body. cbv zeta.
  rewrite Hstart, Hfmt.
  change (("docx" === "docx") && ("pdf" === "pdf")) with true. cbv iota.
  unfold docx_to_pdf_strategies, try_catch, bind at 1 2. rewrite E1.
  destruct usedCom.
  - exists true, w2, com, false, w2, [].
    rewrite app_nil_r.
    split; [reflexivity |]. split; [exact Ht1 |]. split; [exact Hp1 |].
    split; [intros Hp; now destruct (Hw1 Hp) as (? & ? & ?) |].
    split; [intros _; now apply Hb1 |].
    split; [done |]. split; [done |].
    split; [exists false; apply prefix_nil |].
    split; [done |]. split; [reflexivity |].
    split.
    { destruct (render_path_spec inputPath outputPath options w2)
        as (_ & (gen & Hgen & HF) & _). now exists gen. }
    split; [exact Hattempt | discriminate].
  - destruct (Python_run inputPath outputPath w2)
      as (usedPy & w3 & py & E2 & Ht2 & Hp2 & Hb2).
    exists false, w2, com, usedPy, w3, py.
    unfold bind at 1. rewrite E2.
    split; [reflexivity |]. split; [exact Ht1 |]. split; [exact Hp1 |].
    split; [intros Hp; now destruct (Hw1 Hp) as (? & ? & ?) |].
    split; [done |].
    split; [reflexivity |]. split; [exact Ht2 |]. split; [exact Hp2 |].
    split; [intros ->; now apply Hb2 |].
    split.
    { destruct usedPy; [reflexivity |]. cbn [ret].
      unfold generic_path.
      change (one_of "docx" imageFormats) with false. cbv iota.
      reflexivity. }
    split.
    { destruct (render_path_spec inputPath outputPath options w3)
        as (_ & (gen & Hgen & HF) & _). now exists gen. }
    split; [exact Hattempt |].
    intros _. cbv zeta.
    destruct (Python_exact inputPath outputPath w2)
      as (w' & rest & E & Ht & Hstarted).
    rewrite E2 in E. injection E as Hb <-.
    rewrite Ht2 in Ht. apply app_inv_head in Ht. subst py.
    split; [now exists rest |]. split; [exact Hb |].
    intros Hs. destruct (Hstarted Hs) as [Hpy Hpy2].
    split; [now right | intros Hc; right; now apply Hpy2].
Qed.

(** ** What a request leaves behind *)





(* ===================================================================== *)
(** * More of the document converter                                      *)
(* ===================================================================== *)

(** ** The two format detectors *)

(** A hypothesis that a format which is not one of the image formats is
    one of them. *)
Ltac not_an_image H :=
  match type of H with
  | one_of ?s imageFormats = true =>
      lazymatch s with
      | String _ _ => exfalso; vm_compute in H; discriminate H
      end
  end.

Ltac by_cases_in H :=
  repeat match type of H with
         | context [if ?b then _ else _] =>
             destruct b eqn:?; try reflexivity; try not_an_image H
         | context [match ?o with Some _ => _ | None => _ end] =>
             destruct o eqn:?; try reflexivity; try not_an_image H
         end.

Lemma image_format_agreed filePath :
  one_of (detectFormat env filePath) imageFormats = true ->
  detectImageFormat env filePath = detectFormat env filePath.
Proof.
  unfold detectFormat, detectImageFormat. cbv zeta. intros H.
  by_cases_in H.
Qed.

(** X3. Whenever [detectFormat] names one of the image formats the
    document converter hands over to the image converter,
    [detectImageFormat] names the same format for the path, and so never
    answers [unknown] for it. *)
Theorem detectors_agree_on_images (filePath : string) :
  one_of (detectFormat env filePath) imageFormats = true ->
  detectImageFormat env filePath = detectFormat env filePath /\
  detectImageFormat env filePath <> "unknown".
Proof.
  intros H. pose proof (image_format_agreed filePath H) as K.
  split; [exact K |]. rewrite K. intros E. rewrite E in H. discriminate H.
Qed.

(** ** A missing input *)

(** X1. When the input path does not exist, both converters answer with
    [success: false] and the message [Input file does not exist: ...]
    behind their prefix, after the one look for the input: the output
    directory is not made, no strategy is tried and nothing is read. *)
Theorem missing_input_reported
    (inputPath outputPath targetFormat : string)
    (options : ConversionOptions) (imageOptions : ImageConversionOptions)
    (w : World) :
  fs w !! inputPath = None ->
  convertDocument env inputPath outputPath targetFormat options w
  = (Return {| success := false; output_path := outputPath;
               message := "Conversion failed: Input file does not exist: "
                          +:+ inputPath;
               metadata := None |},
     log (EvPathExists inputPath) w) /\
  convertImage env inputPath outputPath targetFormat imageOptions w
  = (Return {| ir_success := false; ir_output_path := outputPath;
               ir_message :=
                 "Image conversion failed: Input file does not exist: "
                 +:+ inputPath;
               ir_original_size := None; ir_new_size := None;
               ir_compression_ratio := None |},
     log (EvPathExists inputPath) w).
Proof.
  intros Hin. split.
  - unfold convertDocument, try_catch, convertDocument_body, bind, pathExists.
    rewrite Hin. reflexivity.
  - unfold convertImage, try_catch, convertImage_body, bind, pathExists.
    rewrite Hin. reflexivity.
Qed.

(** ** An image handed to the document converter *)

(** What a result of [convertImage] looks like. *)
Lemma convertImage_result inputPath outputPath targetFormat options w r w' :
  convertImage env inputPath outputPath targetFormat options w
  = (Return r, w') ->
  ir_output_path r = outputPath /\
  (ir_success r = true ->
   ir_message r
   = "Successfully converted " +:+ detectImageFormat env inputPath
     +:+ " to " +:+ targetFormat) /\
  (ir_success r = false ->
   exists e, r = image_failure outputPath e).
Proof.
  unfold convertImage, try_catch. intros H.
  destruct (convertImage_body _ _ _ _ _ _) as [[r0 | e] w0] eqn:E.
  - injection H as -> ->. unfold convertImage_body in E.
    apply bind_inv_Return in E as (found & w1 & E1 & E).
    destruct (negb found); [discriminate |].
    apply bind_inv_Return in E as ([] & w2 & E2 & E).
    apply bind_inv_Return in E as (st & w3 & E3 & E).
    apply bind_inv_Return in E as ([] & w4 & E4 & E).
    apply bind_inv_Return in E as (st' & w5 & E5 & [= <- <-]).
    cbn. split3; [done | done | discriminate].
  - injection H as <- <-. cbn. split3; [done | discriminate | eauto].
Qed.

(** X2. A request whose source is an image, once the input has been
    found and the output directory made, is the image converter's: the
    document converter returns the success flag, the output path and the
    message of [convertImage], run on the image options of the request,
    and puts the sizes and the ratio under [metadata]. A failure keeps
    the image converter's prefix, a success names the format
    [detectFormat] found. *)
Theorem image_source_delegated
    (inputPath outputPath targetFormat : string)
    (options : ConversionOptions) (w w2 : World) :
  one_of (detectFormat env inputPath) imageFormats = true ->
  fs w !! inputPath <> None ->
  ensureDir env (dirname env outputPath) (log (EvPathExists inputPath) w)
  = (Return tt, w2) ->
  exists r w',
    convertImage env inputPath outputPath targetFormat
      (default no_image_options (image_options options)) w2
    = (Return r, w') /\
    convertDocument env inputPath outputPath targetFormat options w
    = (Return {| success := ir_success r;
                 output_path := outputPath;
                 message := ir_message r;
                 metadata :=
                   Some {| original_size := ir_original_size r;
                           new_size := ir_new_size r;
                           compression_ratio := ir_compression_ratio r |} |},
       w') /\
    (ir_success r = true ->
     ir_message r
     = "Successfully converted " +:+ detectFormat env inputPath
       +:+ " to " +:+ targetFormat) /\
    (ir_success r = false ->
     exists e, ir_message r = "Image conversion failed: " +:+ e).
Proof.
  intros Himg Hin Edir.
  assert (Hdocx : (detectFormat env inputPath === "docx") = false).
  { destruct (_ === "docx") eqn:E; [| done].
    apply String.eqb_eq in E. rewrite E in Himg. discriminate Himg. }
  destruct (try_catch_returns
              (convertImage_body env inputPath outputPath targetFormat
                 (default no_image_options (image_options options)))
              (image_failure outputPath) w2) as (r & w' & Er).
  fold (convertImage env inputPath outputPath targetFormat
          (default no_image_options (image_options options))) in Er.
  destruct (convertImage_result _ _ _ _ _ _ _ Er) as (Hout & Hok & Hfail).
  exists r, w'. split; [exact Er |]. split3.
  - apply try_catch_Return. unfold convertDocument_body.
    erewrite bind_Return by reflexivity.
    destruct (fs w !! inputPath) as [node |]; [| done]. cbn [negb].
    erewrite bind_Return by exact Edir. cbv zeta. rewrite Hdocx.
    cbn [andb]. erewrite bind_Return by reflexivity.
    unfold generic_path. rewrite Himg.
    erewrite bind_Return by exact Er. now rewrite Hout.
  - intros Hs. rewrite (Hok Hs). now rewrite (image_format_agreed _ Himg).
  - intros Hs. destruct (Hfail Hs) as [e ->]. now exists e.
Qed.

(** ** Sources the read stage has no parser for *)



(** ** Inspecting a file *)

(** X5. [fs.stat] is outside the [try] of [getDocumentInfo] and of
    [getImageInfo]: for a path that does not exist both throw the error
    of [stat] to their caller, and make no other call. *)
Theorem info_of_missing_file_throws (filePath : string) (w : World) :
  fs w !! filePath = None ->
  exists e,
    stat env filePath w = (Throw e, log (EvStat filePath) w) /\
    getDocumentInfo env filePath w = (Throw e, log (EvStat filePath) w) /\
    getImageInfo env filePath w = (Throw e, log (EvStat filePath) w).
Proof.
  intros Hin.
  assert (E : stat env filePath w
              = (Throw ("ENOENT: no such file or directory, stat '"
                        +:+ filePath +:+ "'"), log (EvStat filePath) w)).
  { unfold stat. now rewrite Hin. }
  eexists. split3; [exact E | |].
  - unfold getDocumentInfo. now rewrite (bind_Throw _ _ _ _ _ E).
  - unfold getImageInfo. now rewrite (bind_Throw _ _ _ _ _ E).
Qed.

(** X6. Once [stat] has answered, [getDocumentInfo] on a PDF always
    returns. When the file can be read and pdf-parse answers, [pages] is
    its page count and [title] and [author] are those of its info
    dictionary, left out when there is none; when either step throws,
    the error is dropped and the three fields are left out. *)
Theorem pdf_info_reported (filePath : string) (w w1 : World) (st : Stats) :
  stat env filePath w = (Return st, w1) ->
  detectFormat env filePath = "pdf" ->
  exists w',
    getDocumentInfo env filePath w
    = (Return
         (match readFile filePath w1 with
          | (Return buffer, w2) =>
              match pdfParse env w2 buffer with
              | Return pdfData =>
                  {| di_format := "pdf"; di_size := st_size st;
                     di_pages := Some (numpages pdfData);
                     di_title := i ← pdf_info pdfData; Title i;
                     di_author := i ← pdf_info pdfData; Author i;
                     di_created := st_birthtime st;
                     di_modified := st_mtime st |}
              | Throw _ =>
                  {| di_format := "pdf"; di_size := st_size st;
                     di_pages := None; di_title := None; di_author := None;
                     di_created := st_birthtime st;
                     di_modified := st_mtime st |}
              end
          | (Throw _, _) =>
              {| di_format := "pdf"; di_size := st_size st;
                 di_pages := None; di_title := None; di_author := None;
                 di_created := st_birthtime st;
                 di_modified := st_mtime st |}
          end), w').
Proof.
  intros Hstat Hfmt. unfold getDocumentInfo.
  rewrite (bind_Return _ _ _ _ _ Hstat), Hfmt.
  change (one_of "pdf" imageFormats) with false.
  change ("pdf" === "pdf") with true.
  cbv iota. unfold try_catch, bind.
  destruct (readFile filePath w1) as [[buffer | e] w2] eqn:Hread.
  - unfold extern.
    destruct (pdfParse env w2 buffer) as [pdfData | e];
      eexists; reflexivity.
  - eexists; reflexivity.
Qed.

(** X7. Once [stat] has answered, [getDocumentInfo] on an image always
    returns. When sharp or, after it, Jimp can read the image, the
    result counts one page and takes the file name without its
    extension as title; format and size are those found at the start,
    the dates those of the second [stat], made by [getImageInfo]. When
    both libraries throw, the error is dropped and the result has
    neither pages nor title. *)
Theorem image_document_info (filePath : string) (w : World) (st : Stats) :
  fst (stat env filePath w) = Return st ->
  one_of (detectFormat env filePath) imageFormats = true ->
  let w1 := log (EvStat filePath) w in
  let w2 := log (EvStat filePath) w1 in
  let w3 := log (EvSharpMetadata filePath) w2 in
  exists w',
    getDocumentInfo env filePath w
    = (Return
         (match sharp_metadata env w2 filePath, jimp_read env w3 filePath with
          | Throw _, Throw _ =>
              {| di_format := detectFormat env filePath;
                 di_size := st_size st;
                 di_pages := None; di_title := None; di_author := None;
                 di_created := st_birthtime st;
                 di_modified := st_mtime st |}
          | _, _ =>
              {| di_format := detectFormat env filePath;
                 di_size := st_size st;
                 di_pages := Some 1%float;
                 di_title :=
                   Some (basename env filePath (extname env filePath));
                 di_author := None;
                 di_created := fst (file_times env w1 filePath);
                 di_modified := snd (file_times env w1 filePath) |}
          end), w').
Proof.
  intros Hstat Himg w1 w2 w3.
  assert (E1 : stat env filePath w = (Return st, w1)).
  { unfold stat in *. cbn in Hstat. now rewrite Hstat. }
  assert (E2 : exists st',
             stat env filePath w1 = (Return st', w2) /\
             st_size st' = st_size st /\
             st_birthtime st' = fst (file_times env w1 filePath) /\
             st_mtime st' = snd (file_times env w1 filePath)).
  { unfold stat in *. cbn in Hstat |- *.
    destruct (fs w !! filePath) as [[c |] |]; [ | | discriminate];
      injection Hstat as <-; eexists; (split; [reflexivity | done]). }
  destruct E2 as (st' & E2 & Hsize & Hb & Hm).
  unfold getDocumentInfo.
  rewrite (bind_Return _ _ _ _ _ E1), Himg. cbv zeta.
  unfold try_catch at 1, bind at 1, getImageInfo.
  rewrite (bind_Return _ _ _ _ _ E2). cbv zeta.
  rewrite (image_format_agreed _ Himg).
  unfold try_catch, bind, extern, Jimp_read, bind, extern. fold w3.
  destruct (sharp_metadata env w2 filePath) as [metadata | e].
  - cbn. rewrite Hsize, Hb, Hm. eexists.
    destruct (jimp_read env w3 filePath); reflexivity.
  - destruct (jimp_read env w3 filePath) as [[wd ht] | e2]; cbn.
    + rewrite Hsize, Hb, Hm. eexists. reflexivity.
    + eexists. reflexivity.
Qed.

(** X8. [getDocumentInfo] and [getImageInfo] only look: whatever the
    file and whatever the libraries do, the file system is left as it
    was, and every call made is a [stat] or a read of the path asked
    about, or a parser at work on what was read. *)
Theorem info_only_looks (filePath : string) (w : World) :
  (fs (snd (getDocumentInfo env filePath w)) = fs w /\
   exists calls,
     trace (snd (getDocumentInfo env filePath w)) = (trace w ++ calls)%list /\
     Forall (inspects filePath) calls) /\
  (fs (snd (getImageInfo env filePath w)) = fs w /\
   exists calls,
     trace (snd (getImageInfo env filePath w)) = (trace w ++ calls)%list /\
     Forall (inspects filePath) calls).
Proof.
  assert (Himage : spec nowhere (inspects filePath) any_value
                     (getImageInfo env filePath)) by spec_go.
  assert (Hdoc : spec nowhere (inspects filePath) any_value
                   (getDocumentInfo env filePath)).
  { unfold getDocumentInfo.
    apply (spec_bind _ _ any_value); [spec_go |]. intros stats _. cbv zeta.
    apply spec_try_catch; [| intros e; spec_go].
    destruct (one_of _ imageFormats).
    - apply (spec_bind _ _ any_value); [exact Himage | intros; spec_go].
    - spec_go. }
  split.
  - split; [eapply spec_nowhere_fs, Hdoc |]. apply Hdoc.
  - split; [eapply spec_nowhere_fs, Himage |]. apply Himage.
Qed.

(** ** The conversion matrix and the code *)







(** ** The browser of the PDF targets *)

Lemma with_browser_closes {A} (m : M A) w :
  spec anywhere inside_browser any_value m ->
  match launch env w with
  | Throw e => with_browser env m w = (Throw e, log EvLaunch w)
  | Return _ =>
      exists calls,
        trace (snd (with_browser env m w))
        = (trace w ++ EvLaunch :: calls ++ [EvBrowserClose])%list /\
        Forall inside_browser calls
  end.
Proof.
  intros Hm. unfold with_browser, bind, extern.
  destruct (launch env w) as [[] | e]; [| reflexivity].
  unfold try_finally.
  destruct (Hm (log EvLaunch w)) as (_ & (calls & Ht & Hc) & _).
  destruct (m (log EvLaunch w)) as [o w1]. cbn in Ht.
  exists calls. split; [| exact Hc].
  destruct (browser_close env w1) as [[] | e]; cbn; rewrite Ht;
    now rewrite <- !app_assoc.
Qed.

(** X10. The browser of the two PDF renderers, [convertToPdf] and
    [convertImageToPdf], is closed on every way out. When the launch
    throws, its error is the renderer's and nothing else is called.
    When the launch returns, the calls are the launch, the calls of the
    rendering, and last exactly one [browser.close], whether the
    rendering returned or threw. *)
Theorem browser_closed_on_every_exit
    (content : Content) (inputPath outputPath : string)
    (options : ConversionOptions) (imageOptions : ImageConversionOptions)
    (w : World) :
  match launch env w with
  | Throw e =>
      convertToPdf env content outputPath options w
      = (Throw e, log EvLaunch w) /\
      convertImageToPdf env inputPath outputPath imageOptions w
      = (Throw e, log EvLaunch w)
  | Return _ =>
      (exists calls,
          trace (snd (convertToPdf env content outputPath options w))
          = (trace w ++ EvLaunch :: calls ++ [EvBrowserClose])%list /\
          Forall inside_browser calls) /\
      (exists calls,
          trace (snd (convertImageToPdf env inputPath outputPath
                        imageOptions w))
          = (trace w ++ EvLaunch :: calls ++ [EvBrowserClose])%list /\
          Forall inside_browser calls)
  end.
Proof.
  pose proof (fun A (m : M A) => with_browser_closes m w) as K.
  unfold convertToPdf, convertImageToPdf.
  destruct (launch env w) as [[] | e]; (split; apply K; spec_go).
Qed.

(** ** Header and footer text *)

Lemma esc_app s t : esc (s +:+ t) = esc s +:+ esc t.
Proof.
  induction s as [| a s IH]; [reflexivity |].
  change (String a s +:+ t) with (String a (s +:+ t)).
  cbn [esc]. rewrite IH.
  destruct (Ascii.eqb a "&"); [reflexivity |].
  destruct (Ascii.eqb a "<"); [reflexivity |].
  destruct (Ascii.eqb a ">"); reflexivity.
Qed.

Lemma esc_no_angle s a :
  In a (list_ascii_of_string (esc s)) -> a <> "<"%char /\ a <> ">"%char.
Proof.
  induction s as [| b s IH]; cbn; [done |].
  destruct (Ascii.eqb b "&") eqn:E1;
    [| destruct (Ascii.eqb b "<") eqn:E2;
       [| destruct (Ascii.eqb b ">") eqn:E3]]; cbn;
    intros H;
    repeat (destruct H as [<- | H]; [split; discriminate |]); auto.
  destruct H as [<- | H]; [| auto].
  apply Ascii.eqb_neq in E2, E3. done.
Qed.

Lemma append_cons a s t : String a s +:+ t = String a (s +:+ t).
Proof. reflexivity. Qed.

Lemma append_nil t : EmptyString +:+ t = t.
Proof. reflexivity. Qed.

Ltac esc_head :=
  repeat match goal with
         | E : Ascii.eqb _ _ = true |- _ => apply Ascii.eqb_eq in E; subst
         | E : Ascii.eqb ?a ?a = false |- _ =>
             rewrite Ascii.eqb_refl in E; discriminate E
         end.

Lemma esc_inj s : forall t, esc s = esc t -> s = t.
Proof.
  induction s as [| a s IH]; intros [| b t]; cbn.
  - done.
  - destruct (Ascii.eqb b "&"); [discriminate |].
    destruct (Ascii.eqb b "<"); [discriminate |].
    destruct (Ascii.eqb b ">"); discriminate.
  - destruct (Ascii.eqb a "&"); [discriminate |].
    destruct (Ascii.eqb a "<"); [discriminate |].
    destruct (Ascii.eqb a ">"); discriminate.
  - destruct (Ascii.eqb a "&") eqn:A1;
      [| destruct (Ascii.eqb a "<") eqn:A2;
         [| destruct (Ascii.eqb a ">") eqn:A3]];
    (destruct (Ascii.eqb b "&") eqn:B1;
      [| destruct (Ascii.eqb b "<") eqn:B2;
         [| destruct (Ascii.eqb b ">") eqn:B3]]);
    rewrite ?append_cons, ?append_nil; intros H; try discriminate H;
    injection H; intros; subst; esc_head; try discriminate;
    f_equal; now apply IH.
Qed.

(** X11. [esc], which the PDF renderer applies to the header and footer
    text before it is put into the page templates, leaves no angle
    bracket in its result, maps different texts to different results,
    and works character by character: the escaped form of two texts put
    together is the two escaped forms put together. *)
Theorem esc_keeps_text_out_of_markup :
  (forall s a,
      In a (list_ascii_of_string (esc s)) ->
      a <> "<"%char /\ a <> ">"%char) /\
  (forall s t, esc s = esc t -> s = t) /\
  (forall s t, esc (s +:+ t) = esc s +:+ esc t).
Proof.
  split3; [apply esc_no_angle | intros s t; apply esc_inj | apply esc_app].
Qed.

(** ** The paragraphs of a generated Word document *)

Lemma split_cons sep s : exists h r, JS.split sep s = h :: r.
Proof.
  destruct s as [| a t]; cbn; [eauto |].
  destruct (Ascii.eqb a sep); [eauto |].
  destruct (JS.split sep t); eauto.
Qed.

Lemma split_length sep s :
  length (JS.split sep s) = S (occurrences sep s).
Proof.
  induction s as [| a t IH]; cbn; [done |].
  destruct (Ascii.eqb a sep); cbn; [now rewrite IH |].
  destruct (split_cons sep t) as (h & r & E). rewrite E in IH |- *.
  exact IH.
Qed.

Lemma split_lines sep s :
  Forall (fun line => occurrences sep line = 0%nat) (JS.split sep s).
Proof.
  induction s as [| a t IH]; cbn; [repeat constructor |].
  destruct (Ascii.eqb a sep) eqn:E; [now constructor |].
  destruct (split_cons sep t) as (h & r & Et). rewrite Et in IH |- *.
  inversion IH as [| ? ? Hh Hr]; subst. constructor; [| exact Hr].
  cbn. now rewrite E.
Qed.

Lemma concat_split sep s :
  String.concat (String sep EmptyString) (JS.split sep s) = s.
Proof.
  induction s as [| a t IH]; cbn; [done |].
  destruct (split_cons sep t) as (h & r & Et). rewrite Et in IH |- *.
  destruct (Ascii.eqb a sep) eqn:E.
  - apply Ascii.eqb_eq in E as ->.
    change (String.concat (String sep EmptyString) (EmptyString :: h :: r))
      with (String sep (String.concat (String sep EmptyString) (h :: r))).
    now rewrite IH.
  - rewrite <- IH. destruct r as [| h2 r]; reflexivity.
Qed.

(** X12. [convertToDocx] hands the packer one paragraph per line of the
    text: their number is one more than the number of line feeds, an
    empty text giving one empty paragraph; a line that [trim] empties
    (white space alone, the no-break space, the byte order mark and the
    other Unicode spaces included) becomes an empty paragraph, every
    other line a paragraph of one run holding the line, which has no
    line feed in it. When no line but the empty one is white space
    alone, the text is the paragraphs' texts joined by line feeds. *)
Theorem docx_one_paragraph_per_line :
  (forall content outputPath w,
      convertToDocx env content outputPath w
      = (await buffer :=
           extern EvDocxPack
             (fun w => docx_toBuffer env w (docx_paragraphs (text content))) in
         writeFile env outputPath buffer) w) /\
  (forall t, length (docx_paragraphs t) = S (occurrences LF t)) /\
  (forall t,
      Forall (fun p => match p with
                       | ParaEmpty => True
                       | ParaText line =>
                           JS.blank line = false /\
                           occurrences LF line = 0%nat
                       end)
             (docx_paragraphs t)) /\
  (forall t,
      Forall (fun line => JS.blank line = true -> line = EmptyString)
             (JS.split LF t) ->
      String.concat (String LF EmptyString)
                    (map paragraph_text (docx_paragraphs t))
      = t).
Proof.
  split; [reflexivity |]. split3.
  - intros t. unfold docx_paragraphs. rewrite length_map.
    apply split_length.
  - intros t. unfold docx_paragraphs. apply Forall_map.
    eapply Forall_impl; [apply (split_lines LF t) |].
    intros line Hline. cbn. destruct (JS.blank line) eqn:E; done.
  - intros t Ht. unfold docx_paragraphs. rewrite map_map.
    transitivity (String.concat (String LF EmptyString) (JS.split LF t));
      [| apply concat_split].
    f_equal.
    transitivity (map (fun line : string => line) (JS.split LF t));
      [| apply map_id].
    apply map_ext_Forall. eapply Forall_impl; [exact Ht |].
    intros line Hline. cbn in Hline |- *.
    destruct (JS.blank line); [symmetry; now apply Hline | done].
Qed.

(** ** The shape of a result *)

Lemma strategies_result inputPath outputPath w early w' :
  docx_to_pdf_strategies env inputPath outputPath w = (Return early, w') ->
  early = None \/
  exists rest,
    early = Some (converted outputPath ("Successfully converted " +:+ rest)).
Proof.
  unfold docx_to_pdf_strategies. intros E.
  apply bind_inv_Return in E as (usedCom & w1 & _ & E).
  destruct usedCom.
  { injection E as <- _. right. eexists. reflexivity. }
  apply bind_inv_Return in E as (usedPy & w2 & _ & E).
  destruct usedPy; injection E as <- _; [right | now left].
  eexists. reflexivity.
Qed.

(** X19. Every result of [convertDocument] names the output path that
    was asked for. A success carries a message that begins with
    [Successfully converted]; a failure carries the text of the error
    behind [Conversion failed: ], or behind [Image conversion failed: ]
    when the image converter reported it. *)
Theorem result_names_output_and_outcome
    (inputPath outputPath targetFormat : string)
    (options : ConversionOptions) (w : World) :
  exists r w',
    convertDocument env inputPath outputPath targetFormat options w
    = (Return r, w') /\
    output_path r = outputPath /\
    (success r = true ->
     exists rest, message r = "Successfully converted " +:+ rest) /\
    (success r = false ->
     exists e, message r = "Conversion failed: " +:+ e \/
               message r = "Image conversion failed: " +:+ e).
Proof.
  unfold convertDocument, try_catch.
  destruct (convertDocument_body _ _ _ _ _ _) as [[r | e] w'] eqn:E.
  2: { eexists _, w'. split; [reflexivity |]. cbn. split3; [done | done |].
       intros _. exists e. now left. }
  exists r, w'. split; [reflexivity |].
  unfold convertDocument_body in E.
  apply bind_inv_Return in E as (found & w1 & _ & E).
  destruct (negb found); [discriminate |].
  apply bind_inv_Return in E as ([] & w2 & _ & E). cbv zeta in E.
  apply bind_inv_Return in E as (early & w3 & Eearly & E).
  assert (Hearly : early = None \/
            exists rest,
              early = Some (converted outputPath
                              ("Successfully converted " +:+ rest))).
  { destruct (_ && _).
    - eapply strategies_result, Eearly.
    - injection Eearly as <- _. now left. }
  destruct Hearly as [-> | [rest ->]].
  2: { injection E as <- _. cbn. split3; [done | eauto | discriminate]. }
  unfold generic_path in E.
  destruct (one_of _ imageFormats).
  - apply bind_inv_Return in E as (ir & w4 & Eimg & [= <- <-]).
    destruct (convertImage_result _ _ _ _ _ _ _ Eimg) as (Hout & Hok & Hfail).
    cbn. split3; [exact Hout | |].
    + intros Hs. rewrite (Hok Hs). eexists. reflexivity.
    + intros Hs. destruct (Hfail Hs) as [e ->]. exists e. now right.
  - apply bind_inv_Return in E as (content & w4 & _ & E).
    apply bind_inv_Return in E as ([] & w5 & _ & [= <- <-]).
    cbn. split3; [done | eauto | discriminate].
Qed.

(** ** Page numbers *)

Lemma includes_prefix s p : String.prefix p s = true -> JS.includes s p = true.
Proof.
  intros H. destruct s as [| a s].
  - change (JS.includes EmptyString p)
      with (String.prefix p EmptyString || false).
    now rewrite H.
  - change (JS.includes (String a s) p)
      with (String.prefix p (String a s) || JS.includes s p).
    now rewrite H.
Qed.

Lemma prefix_append p s : String.prefix p (p +:+ s) = true.
Proof.
  induction p as [| a p IH].
  { change (EmptyString +:+ s) with s. now destruct s. }
  change (String a p +:+ s) with (String a (p +:+ s)).
  cbn [String.prefix]. destruct (ascii_dec a a); [exact IH | done].
Qed.

Lemma includes_append a s p :
  JS.includes s p = true -> JS.includes (a +:+ s) p = true.
Proof.
  intros H. induction a as [| c a IH]; [exact H |].
  change (String c a +:+ s) with (String c (a +:+ s)).
  cbn [JS.includes]. rewrite IH. apply orb_true_r.
Qed.

(** X23. The templates of [page.pdf]. When neither a header nor a
    footer is given, none is set. When either is given, both templates
    are set, and the footer template always holds the page number and
    the page count, also when only a header was asked for; a header
    that was not asked for is the empty division. *)
Theorem footer_numbers_the_pages (outputPath : string) (pdfOpts : PdfOptions) :
  if JS.truthy_str (po_header pdfOpts) || JS.truthy_str (po_footer pdfOpts)
  then
    exists header footer,
      pc_headerFooter (pdf_call outputPath pdfOpts) = Some (header, footer) /\
      JS.includes footer page_numbers = true /\
      (JS.truthy_str (po_header pdfOpts) = false -> header = "<div></div>")
  else pc_headerFooter (pdf_call outputPath pdfOpts) = None.
Proof.
  unfold pdf_call. cbv zeta. cbn [pc_headerFooter].
  destruct (JS.truthy_str (po_header pdfOpts) || JS.truthy_str (po_footer pdfOpts))
    eqn:E; [| reflexivity].
  eexists _, _. split3; [reflexivity | |].
  - unfold footerTemplate.
    destruct (JS.truthy_str (po_footer pdfOpts)).
    + do 7 apply includes_append.
      apply includes_prefix, prefix_append.
    + do 3 apply includes_append.
      apply includes_prefix, prefix_append.
  - intros H. unfold headerTemplate. now rewrite H.
Qed.

(* ===================================================================== *)
(** * More of the image converter                                         *)
(* ===================================================================== *)

(** ** The metadata of an image *)

(** X13. Once [stat] has answered, [getImageInfo] asks sharp for the
    metadata. When sharp answers, the dimensions and channels it leaves
    out are reported as 0 and a missing alpha flag as [false], and Jimp
    is not called. When sharp throws, Jimp reads the image: the result
    then has Jimp's dimensions, four channels and an alpha channel,
    and neither density nor colour space. When Jimp throws as well, the
    error thrown names sharp's error, not Jimp's. *)
Theorem image_info_falls_back_to_jimp
    (filePath : string) (w : World) (st : Stats) :
  fst (stat env filePath w) = Return st ->
  let w1 := log (EvStat filePath) w in
  let w2 := log (EvSharpMetadata filePath) w1 in
  getImageInfo env filePath w
  = match sharp_metadata env w1 filePath with
    | Return metadata =>
        (Return {| ii_format := detectImageFormat env filePath;
                   ii_width := JS.or_num (sm_width metadata) 0%float;
                   ii_height := JS.or_num (sm_height metadata) 0%float;
                   ii_channels := JS.or_num (sm_channels metadata) 0%float;
                   ii_density := sm_density metadata;
                   ii_hasAlpha := JS.truthy_bool (sm_hasAlpha metadata);
                   ii_size := st_size st;
                   ii_colorSpace := sm_space metadata;
                   ii_created := st_birthtime st;
                   ii_modified := st_mtime st |}, w2)
    | Throw e =>
        (match jimp_read env w2 filePath with
         | Return (width, height) =>
             Return {| ii_format := detectImageFormat env filePath;
                       ii_width := width; ii_height := height;
                       ii_channels := 4%float; ii_density := None;
                       ii_hasAlpha := true; ii_size := st_size st;
                       ii_colorSpace := None;
                       ii_created := st_birthtime st;
                       ii_modified := st_mtime st |}
         | Throw _ =>
             Throw ("Unable to read image metadata: Error: " +:+ e)
         end, log (EvJimpRead filePath) w2)
    end.
Proof.
  intros Hstat w1 w2.
  assert (E1 : stat env filePath w = (Return st, w1)).
  { unfold stat in *. cbn in Hstat. now rewrite Hstat. }
  unfold getImageInfo. rewrite (bind_Return _ _ _ _ _ E1). cbv zeta.
  unfold try_catch, bind, extern, Jimp_read, bind, extern. fold w2.
  destruct (sharp_metadata env w1 filePath) as [metadata | e];
    [reflexivity |].
  destruct (jimp_read env w2 filePath) as [[width height] | e2]; reflexivity.
Qed.

(** ** The Jimp pipeline *)

Lemma jimp_extend_nil image : jimp_extend image [] = image.
Proof. destruct image. unfold jimp_extend. cbn. now rewrite app_nil_r. Qed.

Lemma jimp_extend_extend image a b :
  jimp_extend (jimp_extend image a) b = jimp_extend image (a ++ b).
Proof. unfold jimp_extend. cbn. now rewrite app_assoc. Qed.

Lemma jimp_builds_ret image : jimp_builds (ret image) image [].
Proof. intros w. cbn. now rewrite jimp_extend_nil, logs_nil. Qed.

Lemma jimp_builds_op image op : jimp_builds (jimp_op env image op) image [op].
Proof.
  intros w. unfold jimp_op, bind, checked, extern.
  destruct (jimp_call env w image op) as [e |]; cbn.
  - now exists [op].
  - done.
Qed.

Lemma jimp_builds_when c op image :
  jimp_builds (jimp_when env c op image) image (jimp_if c op).
Proof. destruct c; [apply jimp_builds_op | apply jimp_builds_ret]. Qed.

Lemma jimp_builds_bind m k image c1 c2 :
  jimp_builds m image c1 ->
  jimp_builds (k (jimp_extend image c1)) (jimp_extend image c1) c2 ->
  jimp_builds (bind m k) image (c1 ++ c2).
Proof.
  intros Hm Hk w. specialize (Hm w). unfold bind.
  destruct (m w) as [[p1 | e] w1].
  - destruct Hm as [-> ->]. specialize (Hk (logs (map EvJimp c1) w)).
    destruct (k _ _) as [[p2 | e] w2].
    + destruct Hk as [-> ->].
      now rewrite jimp_extend_extend, logs_logs, map_app.
    + destruct Hk as (tried & Hp & ->). exists (c1 ++ tried)%list.
      split; [now apply prefix_app | now rewrite logs_logs, map_app].
  - destruct Hm as (tried & Hp & ->). exists tried.
    split; [now apply prefix_app_r | done].
Qed.

Lemma jimp_builds_calls image targetFormat options :
  jimp_builds
    (await image :=
       jimp_when env (wants_resize options)
         (JResize (JS.or_num (io_width options) Jimp_AUTO)
                  (JS.or_num (io_height options) Jimp_AUTO)) image in
     await image :=
       match io_effects options with
       | Some effects =>
           await image :=
             jimp_when env (JS.truthy_num (fx_blur effects))
               (JBlur (default 0%float (fx_blur effects))) image in
           await image :=
             match fx_brightness effects with
             | Some v => jimp_op env image (JBrightness v)
             | None => ret image
             end in
           await image :=
             match fx_contrast effects with
             | Some v => jimp_op env image (JContrast v)
             | None => ret image
             end in
           await image :=
             jimp_when env (JS.truthy_bool (fx_grayscale effects))
               JGreyscale image in
           await image :=
             jimp_when env (JS.truthy_bool (fx_sepia effects)) JSepia image in
           jimp_when env (JS.truthy_bool (fx_invert effects)) JInvert image
       | None => ret image
       end in
     jimp_when env (JS.truthy_num (io_quality options)
                    && one_of targetFormat ["jpeg"; "jpg"])
       (JQuality (default 0%float (io_quality options))) image)
    image (jimp_calls targetFormat options).
Proof.
  unfold jimp_calls.
  apply jimp_builds_bind; [apply jimp_builds_when |].
  apply jimp_builds_bind; [| apply jimp_builds_when].
  destruct (io_effects options) as [effects |]; [| apply jimp_builds_ret].
  apply jimp_builds_bind; [apply jimp_builds_when |].
  apply jimp_builds_bind.
  { destruct (fx_brightness effects);
      [apply jimp_builds_op | apply jimp_builds_ret]. }
  apply jimp_builds_bind.
  { destruct (fx_contrast effects);
      [apply jimp_builds_op | apply jimp_builds_ret]. }
  apply jimp_builds_bind; [apply jimp_builds_when |].
  apply jimp_builds_bind; [apply jimp_builds_when |].
  apply jimp_builds_when.
Qed.

Lemma bind_assoc {A B C} (m : M A) (k : A -> M B) (k' : B -> M C) w :
  bind (bind m k) k' w = bind m (fun a => bind (k a) k') w.
Proof. unfold bind. destruct (m w) as [[a | e] w1]; reflexivity. Qed.

Lemma bind_ext {A B} (m : M A) (k k' : A -> M B) w :
  (forall a w', k a w' = k' a w') -> bind m k w = bind m k' w.
Proof. intros H. unfold bind. destruct (m w) as [[a | e] w1]; [apply H | done]. Qed.

Lemma emit_Return ev f out w w' :
  emit env ev f out w = (Return tt, w') ->
  exists bytes, fs w' !! out = Some (File bytes).
Proof.
  unfold emit. destruct (f w) as [bytes | e]; [| discriminate].
  destruct (fs_write env out bytes (fs w)) as [m | e] eqn:E; [| discriminate].
  intros [= <-]. exists bytes. cbn. eapply fs_write_same; eauto.
Qed.

(** X14. The Jimp pipeline. When [Jimp.read] throws, so does
    [processWithJimp], with nothing else called. Otherwise the calls on
    the image are a beginning of: resize, blur, brightness, contrast,
    greyscale, sepia, invert, quality, each only if the options ask for
    it, the quality only for a target spelled [jpeg] or [jpg]; a
    watermark, sharpening, saturation and hue are never applied. The
    image is written once, after all of these calls, and when
    [processWithJimp] returns it has made all of them and the output
    file is there. *)
Theorem jimp_pipeline_calls
    (inputPath outputPath targetFormat : string)
    (options : ImageConversionOptions) (w : World) :
  let result := processWithJimp env inputPath outputPath targetFormat options w in
  match jimp_read env w inputPath with
  | Throw e => result = (Throw e, log (EvJimpRead inputPath) w)
  | Return (width, height) =>
      let image :=
        {| ji_input := inputPath; ji_width := width; ji_height := height;
           ji_ops := jimp_calls targetFormat options |} in
      exists tried tail,
        trace (snd result)
        = (trace w ++ EvJimpRead inputPath :: map EvJimp tried ++ tail)%list /\
        prefix tried (jimp_calls targetFormat options) /\
        (tail = [] \/
         tried = jimp_calls targetFormat options /\
         tail = [EvJimpWrite image outputPath]) /\
        (fst result = Return tt ->
         tried = jimp_calls targetFormat options /\
         tail = [EvJimpWrite image outputPath] /\
         exists bytes, fs (snd result) !! outputPath = Some (File bytes))
  end.
Proof.
  cbv zeta. unfold processWithJimp.
  set (w1 := log (EvJimpRead inputPath) w).
  destruct (jimp_read env w inputPath) as [[width height] | e] eqn:R.
  2: { apply bind_Throw. unfold Jimp_read, bind, extern. now rewrite R. }
  set (image0 := {| ji_input := inputPath; ji_width := width;
                    ji_height := height; ji_ops := [] |}).
  assert (Hread : Jimp_read env inputPath w = (Return image0, w1)).
  { unfold Jimp_read, bind, extern. now rewrite R. }
  rewrite (bind_Return _ _ _ _ _ Hread).
  cbv beta.
  pose proof (jimp_builds_calls image0 targetFormat options) as K.
  match type of K with
  | jimp_builds ?chain _ _ =>
      match goal with
      | |- context [fst ?t] =>
          assert (Hchain :
            t = bind chain
                  (fun image =>
                     emit env (EvJimpWrite image outputPath)
                       (fun w => jimp_write env w image outputPath)
                       outputPath) w1)
      end
  end.
  { symmetry. rewrite bind_assoc. apply bind_ext. intros a w'.
    now rewrite bind_assoc. }
  rewrite Hchain. clear Hchain. specialize (K w1).
  match type of K with
  | match ?t with _ => _ end => destruct t as [[image | e] w2] eqn:Echain
  end.
  - rewrite (bind_Return _ _ _ _ _ Echain). destruct K as [-> ->].
    destruct (emit _ _ _ _ _) as [o w3] eqn:E. cbn [fst snd].
    rewrite (emit_trace _ _ _ _ _ _ E).
    exists (jimp_calls targetFormat options),
           [EvJimpWrite (jimp_extend image0 (jimp_calls targetFormat options))
                        outputPath].
    split3; [cbn; now rewrite <- !app_assoc | done |].
    split; [now right |].
    intros ->. split3; [done | done |].
    now apply emit_Return in E.
  - rewrite (bind_Throw _ _ _ _ _ Echain).
    destruct K as (tried & Hp & ->). exists tried, []. cbn.
    rewrite app_nil_r. split3; [now rewrite <- app_assoc | done |].
    split; [now left | discriminate].
Qed.

(** ** An SVG source *)

Lemma sharp_builds_ret p : sharp_builds (ret p) p [].
Proof. intros w. cbn. now rewrite extend_nil, logs_nil. Qed.

Lemma sharp_builds_op p op : sharp_builds (sharp_op env p op) p [op].
Proof.
  intros w. unfold sharp_op, bind, checked, extern.
  destruct (sharp_call env w p op) as [e |]; cbn.
  - now exists [op].
  - done.
Qed.

Lemma sharp_builds_bind m k p c1 c2 :
  sharp_builds m p c1 ->
  sharp_builds (k (extend p c1)) (extend p c1) c2 ->
  sharp_builds (bind m k) p (c1 ++ c2).
Proof.
  intros Hm Hk w. specialize (Hm w). unfold bind.
  destruct (m w) as [[p1 | e] w1].
  - destruct Hm as [-> ->]. specialize (Hk (logs (map EvSharp c1) w)).
    destruct (k _ _) as [[p2 | e] w2].
    + destruct Hk as [-> ->].
      now rewrite extend_extend, logs_logs, map_app.
    + destruct Hk as (tried & Hp & ->). exists (c1 ++ tried)%list.
      split; [now apply prefix_app | now rewrite logs_logs, map_app].
  - destruct Hm as (tried & Hp & ->). exists tried.
    split; [now apply prefix_app_r | done].
Qed.

Lemma sharp_builds_applySharpFormat p targetFormat options :
  sharp_builds (applySharpFormat env p targetFormat options) p
               (encoder_calls targetFormat options).
Proof.
  unfold applySharpFormat, encoder_calls. cbv zeta.
  repeat (destruct (_ : bool); [apply sharp_builds_op |]).
  apply sharp_builds_ret.
Qed.

Lemma sharp_builds_svg inputPath targetFormat options :
  sharp_builds
    (await pipeline :=
       (if wants_resize options then
          sharp_op env (sharp inputPath (Some 300%float))
            (SResize (Some (JS.or_num (io_width options) 800%float))
                     (Some (JS.or_num (io_height options) 600%float))
                     (JS.or_str (io_fit options) "inside")
                     (background_of options))
        else ret (sharp inputPath (Some 300%float))) in
     applySharpFormat env pipeline targetFormat options)
    (sharp inputPath (Some 300%float)) (svg_calls targetFormat options).
Proof.
  unfold svg_calls. apply sharp_builds_bind.
  - unfold call_if. destruct (wants_resize options);
      [apply sharp_builds_op | apply sharp_builds_ret].
  - apply sharp_builds_applySharpFormat.
Qed.

(** X15. An SVG source is rendered by sharp at density 300 and goes
    through two steps only: a resize, if a width or a height was asked
    for, with 800 for a missing width and 600 for a missing height, and
    the options of the encoder. Effects and a watermark in the options
    are never applied. The file is written once, after these calls, and
    when [processImage] returns it has made all of them and the output
    file is there. *)
Theorem svg_source_resized_and_encoded_only
    (inputPath outputPath targetFormat : string)
    (options : ImageConversionOptions) (w : World) :
  (detectImageFormat env inputPath === "svg") = true ->
  let result := processImage env inputPath outputPath targetFormat options w in
  let pipeline :=
    extend (sharp inputPath (Some 300%float))
           (svg_calls targetFormat options) in
  (exists tried tail,
      trace (snd result) = (trace w ++ map EvSharp tried ++ tail)%list /\
      prefix tried (svg_calls targetFormat options) /\
      (tail = [] \/
       tried = svg_calls targetFormat options /\
       tail = [EvSharpToFile pipeline outputPath]) /\
      (fst result = Return tt ->
       tried = svg_calls targetFormat options /\
       tail = [EvSharpToFile pipeline outputPath] /\
       exists bytes, fs (snd result) !! outputPath = Some (File bytes))) /\
  Forall (fun op => stage op = 1%nat \/ stage op = 3%nat)
         (svg_calls targetFormat options).
Proof.
  intros Hsvg. cbv zeta. split.
  2: { unfold svg_calls. apply Forall_app. split.
       - eapply Forall_impl; [apply (call_if_stage _ _ 1%nat); reflexivity |].
         cbn. auto.
       - eapply Forall_impl; [apply encoder_calls_stage |]. cbn. auto. }
  unfold processImage. cbv zeta. rewrite Hsvg.
  pose proof (sharp_builds_svg inputPath targetFormat options) as K.
  match type of K with
  | sharp_builds ?chain _ _ =>
      assert (Hchain :
        processSvgImage env inputPath outputPath targetFormat options w
        = bind chain (fun pipeline => toFile env pipeline outputPath) w)
  end.
  { unfold processSvgImage. cbv zeta. now rewrite bind_assoc. }
  rewrite Hchain. clear Hchain. specialize (K w).
  match type of K with
  | match ?t with _ => _ end => destruct t as [[p | e] w2] eqn:Echain
  end.
  - rewrite (bind_Return _ _ _ _ _ Echain). destruct K as [-> ->].
    unfold toFile.
    destruct (emit _ _ _ _ _) as [o w3] eqn:E. cbn [fst snd].
    rewrite (emit_trace _ _ _ _ _ _ E).
    exists (svg_calls targetFormat options),
           [EvSharpToFile
              (extend (sharp inputPath (Some 300%float))
                      (svg_calls targetFormat options)) outputPath].
    split3; [cbn; now rewrite <- !app_assoc | done |]. split; [now right |].
    intros ->. split3; [done | done |].
    now apply emit_Return in E.
  - rewrite (bind_Throw _ _ _ _ _ Echain).
    destruct K as (tried & Hp & ->). exists tried, []. cbn.
    rewrite app_nil_r. split3; [done | done |].
    split; [now left | discriminate].
Qed.

(** ** What an image conversion may touch *)

(** X16. [convertImage], and with it [optimizeImage], when the target
    is not [pdf] in any letter case (a PDF is made by a browser, which
    keeps files of its own), writes nowhere but at the output path, its
    directory and the directories above it: every other path holds
    after the call what it held before, whether the conversion
    succeeded or failed and whichever library did the work, and no
    directory is removed or replaced. *)
Theorem image_conversion_touches_only_output
    (inputPath outputPath targetFormat : string)
    (options : ImageConversionOptions) (quality : option float) (w : World) :
  let touched (w' : World) :=
    (forall p, p <> outputPath -> ~ In p (directories_of env outputPath) ->
               fs w' !! p = fs w !! p) /\
    (forall p, fs w !! p = Some Dir -> fs w' !! p = Some Dir) in
  ((JS.toLowerCase targetFormat === "pdf") = false ->
   touched (snd (convertImage env inputPath outputPath targetFormat options w)))
  /\ ((JS.toLowerCase (detectImageFormat env inputPath) === "pdf") = false ->
      touched (snd (optimizeImage env inputPath outputPath quality w))).
Proof.
  assert (H : forall targetFormat options,
             spec (output_paths env outputPath) any_call any_value
                  (convertImage env inputPath outputPath targetFormat options)).
  { intros tf o. unfold output_paths, any_call. spec_go. }
  cbv zeta. unfold optimizeImage. cbv zeta. split; intros _.
  - destruct (H targetFormat options w) as ([Hf Hd] & _). split; [| exact Hd].
    intros p H1 H2. apply Hf. tauto.
  - destruct (H (detectImageFormat env inputPath) (optimize_options quality) w)
      as ([Hf Hd] & _). split; [| exact Hd].
    intros p H1 H2. apply Hf. tauto.
Qed.

(** ** The results of a batch *)

Lemma converted_in_turn_targets inputDir outputDir targetFormat options
    files w results w' :
  converted_in_turn env inputDir outputDir targetFormat options
    files w results w' ->
  map ir_output_path results
  = map (batch_target env outputDir targetFormat) files.
Proof.
  induction 1 as [| file rest w result w1 results w2 E _ IH]; [done |].
  cbn. rewrite IH. f_equal.
  now destruct (convertImage_result _ _ _ _ _ _ _ E) as [-> _].
Qed.

(** X17. The results of [batchConvertImages] follow the listing of the
    input directory: the n-th result is that of the n-th entry with an
    image extension, and its output path is the output directory joined
    with the entry's name, its extension replaced by the target format,
    whether the conversion succeeded or failed. A directory without
    such an entry gives no result and both counts 0, and no conversion
    is started. *)
Theorem batch_results_follow_listing
    (inputDir outputDir targetFormat : string)
    (options : ImageConversionOptions)
    (w w1 w2 : World) (files : list string) :
  ensureDir env outputDir w = (Return tt, w1) ->
  readdir env inputDir w1 = (Return files, w2) ->
  exists r w',
    batchConvertImages env inputDir outputDir targetFormat options w
    = (Return r, w') /\
    map ir_output_path (b_results r)
    = map (batch_target env outputDir targetFormat)
          (List.filter (is_image_file env) files) /\
    (List.filter (is_image_file env) files = [] ->
     r = {| b_success := 0; b_failed := 0; b_results := [] |} /\ w' = w2).
Proof.
  intros E1 E2. unfold batchConvertImages.
  rewrite (bind_Return _ _ _ _ _ E1), (bind_Return _ _ _ _ _ E2).
  cbv zeta.
  destruct (batch_loop_runs inputDir outputDir targetFormat options
              (List.filter (is_image_file env) files)
              {| b_success := 0; b_failed := 0; b_results := [] |} w2
              eq_refl eq_refl) as (results & w' & E & Hturn).
  rewrite E. cbn [b_results app]. eexists _, w'. split; [reflexivity |].
  cbn [b_results]. split.
  - eapply converted_in_turn_targets, Hturn.
  - intros Hnone. rewrite Hnone in Hturn. inversion Hturn; subst. done.
Qed.

(** ** Optimising an image *)

Lemma lower_case_name format name :
  JS.toLowerCase name = name ->
  (format === name) = true -> (JS.toLowerCase format === name) = true.
Proof.
  intros Hn E. apply String.eqb_eq in E as ->. rewrite Hn.
  apply String.eqb_refl.
Qed.

Lemma optimize_chain env' targetFormat quality :
  transform_chain env' targetFormat (optimize_options quality)
  = encoder_calls targetFormat (optimize_options quality).
Proof.
  unfold transform_chain, resize_calls, effect_calls, watermark_calls.
  cbn. now rewrite app_nil_r.
Qed.

(** X18. [optimizeImage] is a conversion of the file to the format its
    name has, with the quality given (80 when it is left out, zero or
    not a number) and progressive output: it always returns a result.
    When sharp does the work, the only call before the file is written
    sets the encoder of that format with this quality. A format the
    [switch] of [processImage] has no case for ([heic], [heif],
    [unknown], a MIME subtype) is refused by the switch and, after the
    warning, left to Jimp, which applies no quality to it. *)
Theorem optimize_image_by_format
    (inputPath outputPath : string) (quality : option float) :
  let format := detectImageFormat env inputPath in
  let options := optimize_options quality in
  let q := JS.or_num (Some (default 80%float quality)) 80%float in
  (forall w,
      optimizeImage env inputPath outputPath quality w
      = convertImage env inputPath outputPath format options w /\
      exists r w',
        optimizeImage env inputPath outputPath quality w = (Return r, w') /\
        ir_output_path r = outputPath /\
        (ir_success r = true ->
         ir_message r
         = "Successfully converted " +:+ format +:+ " to " +:+ format)) /\
  (forall w w',
      sharp_stage env inputPath outputPath format options w
      = (Return Finished, w') ->
      trace w'
      = (trace w ++ map EvSharp (encoder_calls format options)
         ++ [EvSharpToFile
               (extend (sharp inputPath None) (encoder_calls format options))
               outputPath])%list) /\
  (encoder_calls "jpeg" options = [SJpeg q true] /\
   encoder_calls "png" options = [SPng q true] /\
   encoder_calls "webp" options = [SWebp q false 4] /\
   encoder_calls "avif" options = [SAvif q false 4] /\
   encoder_calls "tiff" options = [STiff q]) /\
  ((format === "svg") = false ->
   one_of (JS.toLowerCase format)
          ["jpeg"; "jpg"; "png"; "webp"; "avif"; "tiff"; "gif"; "bmp"; "pdf"]
   = false ->
   jimp_calls format options = [] /\
   forall w,
     processImage env inputPath outputPath format options w
     = processWithJimp env inputPath outputPath format options
         (log (EvWarn ("Sharp processing failed, falling back to Jimp: "
                       +:+ "Error: Unsupported output format: " +:+ format))
              w)).
Proof.
  cbv zeta. split; [| split3].
  - intros w. split; [reflexivity |]. unfold optimizeImage. cbv zeta.
    destruct (try_catch_returns
                (convertImage_body env inputPath outputPath
                   (detectImageFormat env inputPath) (optimize_options quality))
                (image_failure outputPath) w) as (r & w' & Er).
    fold (convertImage env inputPath outputPath
            (detectImageFormat env inputPath) (optimize_options quality)) in Er.
    destruct (convertImage_result _ _ _ _ _ _ _ Er) as (Hout & Hok & _).
    now exists r, w'.
  - intros w w' E. apply sharp_stage_finished in E.
    now rewrite !optimize_chain in E.
  - repeat split.
  - intros Hsvg Hcase. split.
    + unfold jimp_calls. cbn.
      destruct (_ === "jpeg") eqn:E1.
      { apply (lower_case_name _ "jpeg" eq_refl) in E1.
        cbn in Hcase. now rewrite E1 in Hcase. }
      destruct (_ === "jpg") eqn:E2.
      { apply (lower_case_name _ "jpg" eq_refl) in E2.
        cbn in Hcase. rewrite E2 in Hcase.
        now rewrite orb_true_r in Hcase. }
      now rewrite andb_false_r.
    + intros w. apply processImage_on_throw; [exact Hsvg |].
      unfold sharp_stage, sharp_transforms, sharp_encoder. cbv zeta.
      cbn in Hcase.
      repeat match type of Hcase with
             | (_ || _) = false =>
                 let H := fresh "H" in
                 apply orb_false_elim in Hcase as [H Hcase]
             end.
      cbn [optimize_options wants_resize io_width io_height io_effects
           JS.truthy_num sharp_when orb one_of existsb].
      unfold bind at 1 2. cbn [ret].
      repeat match goal with
             | H : (_ === _) = false |- _ => rewrite H; clear H
             end.
      reflexivity.
Qed.

(** ** An image going to PDF *)



(* ===================================================================== *)
(** * The command line                                                    *)
(* ===================================================================== *)

Section CommandLine.

Variable parse_name : string -> string.

(** ** The equations of the actions *)

Lemma and_then_Done {A B} (c : Cmd A) (k : A -> Cmd B) s a s' :
  c s = (Done a, s') -> and_then c k s = k a s'.
Proof. intros E. unfold and_then. now rewrite E. Qed.

Lemma catching_Done {A} (c : Cmd A) (h : string -> Cmd A) s a s' :
  c s = (Done a, s') -> catching c h s = (Done a, s').
Proof. intros E. unfold catching. now rewrite E. Qed.

Lemma engine_Return {A} (m : M A) s a w' :
  m (world s) = (Return a, w') ->
  engine m s = (Done a, {| world := w'; console := console s |}).
Proof. intros E. unfold engine. now rewrite E. Qed.

(** ** [convert] *)

Lemma convertDocument_returns inputPath outputPath targetFormat options w :
  exists r w',
    convertDocument env inputPath outputPath targetFormat options w
    = (Return r, w').
Proof. apply try_catch_returns. Qed.

(** X20. The [convert] command reports what the engine answered. It
    prints the opening line and calls [convertDocument] once, on the
    resolved paths. When the result is a success it prints two lines,
    the second with the output path, and runs to its end; when the
    result is a failure it prints the message of the result behind
    [Conversion failed:] on the error stream and exits with code 1. It
    never throws. *)
Theorem convert_command_reports_engine_result
    (options : ConvertArgs) (s : Shell) :
  exists r w',
    convertDocument env (resolve env [arg_input options])
      (resolve env [arg_output options]) (arg_format options)
      (convert_options env options) (world s)
    = (Return r, w') /\
    convert_action env options s
    = (if success r then Done tt else Exit 1,
       {| world := w';
          console :=
            (console s
             ++ Out "🔄 Converting document..."
             :: (if success r then
                   [Out "✅ Conversion completed successfully!";
                    Out ("📄 Output: " +:+ output_path r)]
                 else [Err ("❌ Conversion failed: " +:+ message r)]))%list |}).
Proof.
  destruct (convertDocument_returns (resolve env [arg_input options])
              (resolve env [arg_output options]) (arg_format options)
              (convert_options env options) (world s)) as (r & w' & E).
  exists r, w'. split; [exact E |].
  unfold convert_action, catching, and_then, print, engine. cbn [world console].
  rewrite E. destruct (success r); cbn [world console].
  - now rewrite <- !app_assoc.
  - now rewrite <- !app_assoc.
Qed.

(** X21. What the [convert] command asks of the PDF renderer. The
    [preserve_formatting] it passes is the flag of the command line,
    [false] when the flag is not given, for a Word document going to
    PDF as for any other request; for a Word document going to PDF the
    Chinese fonts are preferred. With the flag not given,
    [convertToPdf] does not use the HTML of the source: it renders the
    page from the text by marked, as it does for a source without
    HTML. *)
Theorem convert_command_renders_from_text :
  (forall options,
      preserve_formatting (convert_options env options)
      = Some (arg_preserveFormatting options)) /\
  (forall options,
      isWordToPdf env options = true ->
      (o ← pdf_options (convert_options env options);
       po_prefer_chinese_fonts o) = Some true) /\
  (forall options content outputPath w,
      arg_preserveFormatting options = false ->
      convertToPdf env content outputPath (convert_options env options) w
      = convertToPdf env
          {| text := text content; html := None;
             content_metadata := content_metadata content |}
          outputPath (convert_options env options) w).
Proof.
  assert (H1 : forall options,
             preserve_formatting (convert_options env options)
             = Some (arg_preserveFormatting options)).
  { intros options. unfold convert_options. cbv zeta.
    now destruct (isWordToPdf env options). }
  split3; [exact H1 | |].
  - intros options H. unfold convert_options. cbv zeta. now rewrite H.
  - intros options content outputPath w Hflag.
    unfold convertToPdf. rewrite H1, Hflag. cbn [text html].
    now rewrite orb_true_r.
Qed.

(** ** [batch] *)

Lemma successes_failures results :
  successes results + failures results = Z.of_nat (length results).
Proof.
  unfold successes, failures.
  induction results as [| r results IH]; cbn; [done |].
  destruct (success r); cbn; lia.
Qed.

Lemma batch_files_run inputDir outputDir options files :
  forall successCount failCount s,
    exists results w',
      batch_in_turn env parse_name inputDir outputDir options
        files (world s) results w' /\
      batch_files env parse_name inputDir outputDir options files
        successCount failCount s
      = (Done (successCount + successes results,
               failCount + failures results),
         {| world := w';
            console := (console s ++ batch_lines files results)%list |}).
Proof.
  induction files as [| file rest IH]; intros successCount failCount s.
  - exists [], (world s). split; [constructor |]. cbn.
    unfold done, successes, failures. cbn.
    rewrite !Z.add_0_r, app_nil_r. now destruct s.
  - destruct (convertDocument_returns (join env [inputDir; file])
                (join env [outputDir;
                           parse_name file +:+ "." +:+ arg_target options])
                (arg_target options) (batch_options options) (world s))
      as (r & w1 & E).
    cbn [batch_files]. cbv zeta.
    unfold and_then at 1, catching, and_then at 1, print at 1.
    unfold and_then at 1, engine. cbn [world console]. rewrite E.
    destruct (success r) eqn:Hs.
    + unfold and_then at 1, print, done. cbn [world console fst snd].
      match goal with
      | |- context [batch_files _ _ _ _ _ _ ?a ?b ?s1] =>
          destruct (IH a b s1) as (results & w' & Hturn & ->)
      end.
      exists (r :: results), w'. split; [econstructor; eauto |].
      cbn [batch_lines]. unfold file_lines, successes, failures.
      cbn [List.filter].
      rewrite !Hs. cbn [negb length].
      f_equal; [f_equal; f_equal; lia |].
      f_equal. cbn [app console]. now rewrite <- !app_assoc.
    + unfold and_then at 1, print, done. cbn [world console fst snd].
      match goal with
      | |- context [batch_files _ _ _ _ _ _ ?a ?b ?s1] =>
          destruct (IH a b s1) as (results & w' & Hturn & ->)
      end.
      exists (r :: results), w'. split; [econstructor; eauto |].
      cbn [batch_lines]. unfold file_lines, successes, failures.
      cbn [List.filter].
      rewrite !Hs. cbn [negb length].
      f_equal; [f_equal; f_equal; lia |].
      f_equal. cbn [app console]. now rewrite <- !app_assoc.
Qed.

(** X22. The [batch] command, once the input directory has been found,
    the output directory made and the input directory listed, runs to
    its end without an exit code. It converts the entries that end in
    one of its seven document extensions, in the order of the listing,
    each once and whether or not the one before succeeded, and prints
    two lines for each; the two counts of the summary are the numbers
    of successes and of failures among the results, and add up to the
    number of these entries. With no such entry it prints the one line
    that says so and converts nothing. *)
Theorem batch_command_converts_each_document
    (options : BatchArgs) (s : Shell) (w1 w2 : World) (files : list string) :
  let inputDir := resolve env [arg_dir options] in
  let outputDir := resolve env [arg_out options] in
  let selected := List.filter batch_selects files in
  fs (world s) !! inputDir <> None ->
  ensureDir env outputDir (log (EvPathExists inputDir) (world s))
  = (Return tt, w1) ->
  readdir env inputDir w1 = (Return files, w2) ->
  match selected with
  | [] =>
      batch_action env parse_name options s
      = (Done tt,
         {| world := w2;
            console :=
              (console s
               ++ [Out "⚠️  No supported files found in the directory"])%list |})
  | _ :: _ =>
      exists results w',
        batch_in_turn env parse_name inputDir outputDir options
          selected w2 results w' /\
        batch_action env parse_name options s
        = (Done tt,
           {| world := w';
              console :=
                (console s
                 ++ Out ("🔄 Converting "
                         +:+ count_to_string env
                               (Z.of_nat (length selected))
                         +:+ " files...")
                 :: batch_lines selected results
                 ++ [Out (String (ascii_of_nat 10)
                            "📊 Batch conversion completed:");
                     Out ("  ✅ Successful: "
                          +:+ count_to_string env (successes results));
                     Out ("  ❌ Failed: "
                          +:+ count_to_string env (failures results))])%list |})
        /\ successes results + failures results
           = Z.of_nat (length selected)
  end.
Proof.
  cbv zeta. intros Hdir E1 E2.
  unfold batch_action. cbv zeta.
  set (inputDir := resolve env [arg_dir options]) in *.
  set (outputDir := resolve env [arg_out options]) in *.
  assert (Hstart : forall (k : list string -> Cmd unit) h,
    catching
      (exec found := engine (pathExists inputDir) in
       if negb found then
         exec_ print (Err ("❌ Input directory does not exist: "
                           +:+ inputDir)) in
         exit 1
       else
         exec_ engine (ensureDir env outputDir) in
         exec files := engine (readdir env inputDir) in
         k files) h s
    = catching (k files) h {| world := w2; console := console s |}).
  { intros k h. unfold catching.
    erewrite and_then_Done by (apply engine_Return; reflexivity).
    destruct (fs (world s) !! inputDir) as [node |]; [| done].
    cbn [negb].
    erewrite and_then_Done by (apply engine_Return; exact E1).
    erewrite and_then_Done by (apply engine_Return; exact E2).
    reflexivity. }
  rewrite Hstart. clear Hstart.
  destruct (List.filter batch_selects files) as [| file rest] eqn:Hsel.
  - reflexivity.
  - cbn [length]. rewrite Nat2Z.inj_succ.
    destruct (Z.succ (Z.of_nat (length rest)) =? 0) eqn:Hz;
      [apply Z.eqb_eq in Hz; lia |].
    destruct (batch_files_run inputDir outputDir options (file :: rest) 0 0
                {| world := w2;
                   console :=
                     (console s
                      ++ [Out ("🔄 Converting "
                               +:+ count_to_string env
                                     (Z.succ (Z.of_nat (length rest)))
                               +:+ " files...")])%list |})
      as (results & w' & Hturn & Eloop).
    cbn [world console] in Hturn.
    exists results, w'. split3.
    + exact Hturn.
    + apply catching_Done.
      erewrite and_then_Done by reflexivity.
      erewrite and_then_Done by exact Eloop.
      unfold and_then, print. cbn [world console fst snd].
      rewrite !Z.add_0_l. f_equal. f_equal.
      now rewrite <- !app_assoc.
    + rewrite successes_failures.
      clear -Hturn.
      assert (H : length results = length (file :: rest)).
      { induction Hturn; cbn; [done | now f_equal]. }
      rewrite H. cbn [length]. lia.
Qed.

End CommandLine.

End Claims.

(* ===================================================================== *)
(** * The properties on the example hosts                                 *)
(* ===================================================================== *)

(** C1, counterexample. The pair (txt, txt) is not in the conversion
    matrix, and neither is (pdf, docx); both requests are converted:
    the result is a success and the output file is written. *)
Lemma matrix_not_enforced :
  in_matrix "txt" "txt" = false /\
  detectFormat linux "/in/note.txt" = "txt" /\
  fst (convertDocument linux "/in/note.txt" "/out/copy.txt" "txt"
         no_options note)
  = Return {| success := true; output_path := "/out/copy.txt";
              message := "Successfully converted txt to txt";
              metadata := None |} /\
  fs (snd (convertDocument linux "/in/note.txt" "/out/copy.txt" "txt"
             no_options note)) !! "/out/copy.txt"
  = Some (File "hello") /\
  in_matrix "pdf" "docx" = false /\
  detectFormat linux "/in/report.pdf" = "pdf" /\
  fst (convertDocument linux "/in/report.pdf" "/out/report.docx" "docx"
         no_options report)
  = Return {| success := true; output_path := "/out/report.docx";
              message := "Successfully converted pdf to docx";
              metadata := None |} /\
  fs (snd (convertDocument linux "/in/report.pdf" "/out/report.docx" "docx"
             no_options report)) !! "/out/report.docx"
  = Some (File "PK").
Proof. vm_compute. repeat split. Qed.

(** C1, the amended statement on an example: the target [xyz]. *)
Lemma unsupported_target_rejected_witness :
  one_of (detectFormat linux "/in/note.txt") imageFormats = false /\
  one_of "xyz" text_targets = false /\
  exists msg w',
    convertDocument linux "/in/note.txt" "/out/note.xyz" "xyz" no_options note
    = (Return {| success := false; output_path := "/out/note.xyz";
                 message := msg; metadata := None |}, w') /\
    (forall p,
        fs w' !! p = fs note !! p \/
        (fs note !! p = None /\ fs w' !! p = Some Dir /\
         In p (directories_of linux "/out/note.xyz"))).
Proof.
  assert (H1 : one_of (detectFormat linux "/in/note.txt") imageFormats = false)
    by (vm_compute; reflexivity).
  assert (H2 : one_of "xyz" text_targets = false) by (vm_compute; reflexivity).
  split; [exact H1 |]. split; [exact H2 |].
  destruct (unsupported_target_rejected linux "/in/note.txt" "/out/note.xyz"
              "xyz" no_options note H1 H2)
    as (msg & w' & E & Hfs & _).
  exists msg, w'. split; [exact E | exact Hfs].
Defined.

(** C2 on two examples. On Windows with no Word, no script and no
    helper process that starts, the bridge and the helper are both
    attempted and the minutes are converted by the read stage and the
    HTML rendering. On Windows with Word, the [cscript] process exits
    with code 0 and leaves the PDF: the bridge reports success and the
    request is answered by it. *)
Lemma docx_to_pdf_strategies_witness :
  fs minutes !! "/in/minutes.docx" <> None /\
  detectFormat windows "/in/minutes.docx" = "docx" /\
  fst (ensureDir windows (dirname windows "/out/minutes.pdf")
         (log (EvPathExists "/in/minutes.docx") minutes)) = Return tt /\
  fst minutes_to_pdf
  = Return {| success := true; output_path := "/out/minutes.pdf";
              message := "Successfully converted docx to pdf";
              metadata := None |} /\
  (exists com py,
    (exists tempDir,
        com `prefix_of` com_calls windows tempDir
                          "/in/minutes.docx" "/out/minutes.pdf") /\
    (exists rest, com = EvMkdtemp "/tmp/docx2pdf-" :: rest) /\
    In (EvSpawn "cscript"
          ["//nologo"; "/tmp/docx2pdf-Ab12Cd/docx2pdf.vbs";
           "/in/minutes.docx"; "/out/minutes.pdf"] []) com /\
    (exists second,
        py `prefix_of` python_calls windows
                         "/in/minutes.docx" "/out/minutes.pdf" second) /\
    (exists rest,
        py = EvPathExists "/app/DocumentAssistant/docx_to_pdf_converter.py"
             :: rest)) /\
  detectFormat windows_with_word "/in/minutes.docx" = "docx" /\
  fst (ensureDir windows_with_word
         (dirname windows_with_word "/out/minutes.pdf")
         (log (EvPathExists "/in/minutes.docx") minutes)) = Return tt /\
  fst minutes_by_word
  = Return {| success := true; output_path := "/out/minutes.pdf";
              message :=
                "Successfully converted docx to pdf via Microsoft Word (COM)";
              metadata := None |}.
Proof.
  assert (H1 : fs minutes !! "/in/minutes.docx" <> None)
    by (vm_compute; discriminate).
  assert (H2 : detectFormat windows "/in/minutes.docx" = "docx")
    by (vm_compute; reflexivity).
  assert (H3 : ensureDir windows (dirname windows "/out/minutes.pdf")
                 (log (EvPathExists "/in/minutes.docx") minutes)
               = (Return tt,
                  snd (ensureDir windows (dirname windows "/out/minutes.pdf")
                         (log (EvPathExists "/in/minutes.docx") minutes))))
    by (vm_compute; reflexivity).
  assert (H4 : detectFormat windows_with_word "/in/minutes.docx" = "docx")
    by (vm_compute; reflexivity).
  assert (H5 : ensureDir windows_with_word
                 (dirname windows_with_word "/out/minutes.pdf")
                 (log (EvPathExists "/in/minutes.docx") minutes)
               = (Return tt,
                  snd (ensureDir windows_with_word
                         (dirname windows_with_word "/out/minutes.pdf")
                         (log (EvPathExists "/in/minutes.docx") minutes))))
    by (vm_compute; reflexivity).
  split; [exact H1 |]. split; [exact H2 |].
  split; [vm_compute; reflexivity |]. split; [vm_compute; reflexivity |].
  split.
  { destruct (docx_to_pdf_strategies_in_order windows
                "/in/minutes.docx" "/out/minutes.pdf" no_options minutes _
                H1 H2 H3)
      as (usedCom & w2 & com & usedPy & w3 & py & E1 & _ & Hcom & _ & _ & _
          & _ & Hpy & _ & _ & _ & Hbridge & Hhelper).
    destruct (Hbridge eq_refl) as [Hfirst Hran].
    set (w1 := snd (ensureDir windows (dirname windows "/out/minutes.pdf")
                      (log (EvPathExists "/in/minutes.docx") minutes))) in *.
    assert (Hm : mkdtemp windows (join windows [tmpdir windows; "docx2pdf-"]) w1
                 = (Return "/tmp/docx2pdf-Ab12Cd",
                    snd (mkdtemp windows
                           (join windows [tmpdir windows; "docx2pdf-"]) w1)))
      by (vm_compute; reflexivity).
    assert (Hw : writeFile windows
                   (join windows ["/tmp/docx2pdf-Ab12Cd"; "docx2pdf.vbs"]) vbs
                   (snd (mkdtemp windows
                           (join windows [tmpdir windows; "docx2pdf-"]) w1))
                 = (Return tt,
                    snd (writeFile windows
                           (join windows ["/tmp/docx2pdf-Ab12Cd"; "docx2pdf.vbs"])
                           vbs
                           (snd (mkdtemp windows
                                   (join windows [tmpdir windows; "docx2pdf-"])
                                   w1)))))
      by (vm_compute; reflexivity).
    destruct (Hran _ _ _ Hm Hw) as [Hspawn Hused].
    assert (Hfalse : usedCom = false) by (rewrite Hused; vm_compute; reflexivity).
    destruct (Hhelper Hfalse) as (Hlook & _).
    exists com, py.
    split; [exact Hcom |]. split; [exact Hfirst |].
    split; [exact Hspawn |]. split; [exact Hpy | exact Hlook]. }
  split; [exact H4 |]. split; [vm_compute; reflexivity |].
  destruct (docx_to_pdf_strategies_in_order windows_with_word
              "/in/minutes.docx" "/out/minutes.pdf" no_options minutes _
              H1 H4 H5)
    as (usedCom & w2 & com & usedPy & w3 & py & _ & _ & _ & _ & _ & _
        & _ & _ & _ & Eres & _ & Hbridge & _).
  destruct (Hbridge eq_refl) as [_ Hran].
  set (w1 := snd (ensureDir windows_with_word
                    (dirname windows_with_word "/out/minutes.pdf")
                    (log (EvPathExists "/in/minutes.docx") minutes))) in *.
  assert (Hm : mkdtemp windows_with_word
                 (join windows_with_word [tmpdir windows_with_word; "docx2pdf-"])
                 w1
               = (Return "/tmp/docx2pdf-Ab12Cd",
                  snd (mkdtemp windows_with_word
                         (join windows_with_word
                            [tmpdir windows_with_word; "docx2pdf-"]) w1)))
    by (vm_compute; reflexivity).
  assert (Hw : writeFile windows_with_word
                 (join windows_with_word
                    ["/tmp/docx2pdf-Ab12Cd"; "docx2pdf.vbs"]) vbs
                 (snd (mkdtemp windows_with_word
                         (join windows_with_word
                            [tmpdir windows_with_word; "docx2pdf-"]) w1))
               = (Return tt,
                  snd (writeFile windows_with_word
                         (join windows_with_word
                            ["/tmp/docx2pdf-Ab12Cd"; "docx2pdf.vbs"])
                         vbs
                         (snd (mkdtemp windows_with_word
                                 (join windows_with_word
                                    [tmpdir windows_with_word; "docx2pdf-"])
                                 w1)))))
    by (vm_compute; reflexivity).
  destruct (Hran _ _ _ Hm Hw) as [_ Hused].
  assert (Htrue : usedCom = true) by (rewrite Hused; vm_compute; reflexivity).
  unfold minutes_by_word. rewrite Eres, Htrue. reflexivity.
Defined.

(** C4, counterexample. With sharp unable to write, the conversion of
    an SVG drawing fails with sharp's error and Jimp is never called,
    while a photo on the same host is converted by Jimp; and an SVG
    drawing going to BMP is written by sharp, not by Jimp. *)
Lemma svg_failure_not_retried :
  fst drawing_to_png
  = Return {| ir_success := false; ir_output_path := "/out/drawing.png";
              ir_message := "Image conversion failed: unavailable";
              ir_original_size := None; ir_new_size := None;
              ir_compression_ratio := None |} /\
  trace (snd drawing_to_png)
  = [EvPathExists "/in/drawing.svg"; EvEnsureDir "/out";
     EvStat "/in/drawing.svg"; EvSharp (SPng 80 false);
     EvSharpToFile
       {| sp_input := "/in/drawing.svg"; sp_density := Some 300%float;
          sp_ops := [SPng 80 false] |} "/out/drawing.png"] /\
  fs (snd (convertImage linux_without_sharp "/in/photo.png" "/out/photo.png"
             "png" no_image_options photo)) !! "/out/photo.png"
  = Some (File "bitmap") /\
  trace (snd drawing_to_bmp)
  = [EvPathExists "/in/drawing.svg"; EvEnsureDir "/out";
     EvStat "/in/drawing.svg";
     EvSharpToFile
       {| sp_input := "/in/drawing.svg"; sp_density := Some 300%float;
          sp_ops := [] |} "/out/drawing.bmp";
     EvStat "/out/drawing.bmp"].
Proof. vm_compute. repeat split. Qed.

(** C4, the amended statement on an example: a photo, with sharp
    unable to write. *)
Lemma sharp_failure_retried_witness :
  (detectImageFormat linux_without_sharp "/in/photo.png" === "svg") = false /\
  exists w1,
    processImage linux_without_sharp "/in/photo.png" "/out/photo.jpg" "jpg"
      no_image_options photo
    = processWithJimp linux_without_sharp "/in/photo.png" "/out/photo.jpg"
        "jpg" no_image_options
        (log (EvWarn "Sharp processing failed, falling back to Jimp: Error: unavailable")
             w1) /\
    fs w1 = fs photo.
Proof.
  assert (H1 : (detectImageFormat linux_without_sharp "/in/photo.png"
                === "svg") = false)
    by (vm_compute; reflexivity).
  assert (H2 : sharp_stage linux_without_sharp "/in/photo.png"
                 "/out/photo.jpg" "jpg" no_image_options photo
               = (Throw "unavailable",
                  snd (sharp_stage linux_without_sharp "/in/photo.png"
                         "/out/photo.jpg" "jpg" no_image_options photo)))
    by (vm_compute; reflexivity).
  split; [exact H1 |].
  destruct (sharp_failure_retried_with_jimp linux_without_sharp
              "/in/photo.png" "/out/photo.jpg" "jpg" no_image_options photo
              H1) as [K _].
  destruct (K _ _ H2) as [Hfs E].
  eexists. split; [exact E | exact Hfs].
Defined.

(** C5 on an example: ten bytes in, six bytes out, forty percent. *)
Lemma compression_ratio_witness :
  fst photo_to_jpg
  = Return {| ir_success := true; ir_output_path := "/out/photo.jpg";
              ir_message := "Successfully converted png to jpg";
              ir_original_size := Some 10%float;
              ir_new_size := Some 6%float;
              ir_compression_ratio := Some 40%float |} /\
  exists original new : Z,
    size_of linux (fs photo) "/in/photo.png" = Some original /\
    size_of linux (fs (snd photo_to_jpg)) "/out/photo.jpg" = Some new /\
    Some 40%float
    = Some (JS.Math_round
              ((JS.of_Z original - JS.of_Z new) / JS.of_Z original
               * 100 * 100) / 100)%float.
Proof.
  split; [vm_compute; reflexivity |].
  assert (E : convertImage linux "/in/photo.png" "/out/photo.jpg" "jpg"
                no_image_options photo
              = (Return {| ir_success := true;
                           ir_output_path := "/out/photo.jpg";
                           ir_message := "Successfully converted png to jpg";
                           ir_original_size := Some 10%float;
                           ir_new_size := Some 6%float;
                           ir_compression_ratio := Some 40%float |},
                 snd photo_to_jpg))
    by (vm_compute; reflexivity).
  destruct (compression_ratio_reported linux _ _ _ _ _ _ _ E eq_refl)
    as [(original & new & H1 & H2 & _ & _ & H3) _].
  exists original, new.
  split; [exact H1 | split; [exact H2 | exact H3]].
Defined.

(** A photo resized to a width of 100 and stamped: sharp is asked to
    resize, to encode as JPEG, to composite the watermark, and then to
    write the file from the pipeline of these three calls. *)
Lemma photo_resized_then_stamped :
  trace (snd photo_stamped)
  = [EvPathExists "/in/photo.png"; EvEnsureDir "/out";
     EvStat "/in/photo.png";
     EvSharp (SResize (Some 100%float) None "inside" BgWhite);
     EvSharp (SJpeg 80 false);
     EvSharp stamp;
     EvSharpToFile
       {| sp_input := "/in/photo.png"; sp_density := None;
          sp_ops := [SResize (Some 100%float) None "inside" BgWhite;
                     SJpeg 80 false; stamp] |}
       "/out/photo.jpg";
     EvStat "/out/photo.jpg"].
Proof. vm_compute. reflexivity. Qed.


(** C8 on an example: a directory with two images and a text file. *)
Lemma batch_witness :
  fst (ensureDir linux "/out" photos) = Return tt /\
  fst (readdir linux "/in" (snd (ensureDir linux "/out" photos)))
  = Return ["c.gif"; "a.jpg"; "b.txt"] /\
  exists r w',
    batchConvertImages linux "/in" "/out" "png" no_image_options photos
    = (Return r, w') /\
    length (b_results r)
    = length (List.filter (is_image_file linux) ["c.gif"; "a.jpg"; "b.txt"]) /\
    b_success r + b_failed r
    = Z.of_nat (length (List.filter (is_image_file linux)
                          ["c.gif"; "a.jpg"; "b.txt"])) /\
    List.filter (is_image_file linux) ["c.gif"; "a.jpg"; "b.txt"]
    = ["c.gif"; "a.jpg"].
Proof.
  assert (E1 : ensureDir linux "/out" photos
               = (Return tt, snd (ensureDir linux "/out" photos)))
    by (vm_compute; reflexivity).
  assert (E2 : readdir linux "/in" (snd (ensureDir linux "/out" photos))
               = (Return ["c.gif"; "a.jpg"; "b.txt"],
                  snd (readdir linux "/in" (snd (ensureDir linux "/out" photos)))))
    by (vm_compute; reflexivity).
  split; [vm_compute; reflexivity |]. split; [vm_compute; reflexivity |].
  destruct (batch_converts_each_image_once linux "/in" "/out" "png"
              no_image_options _ _ _ _ E1 E2)
    as (r & w' & E & _ & Hlen & _ & _ & Hsum).
  exists r, w'.
  split; [exact E |]. split; [exact Hlen |]. split; [exact Hsum |].
  vm_compute; reflexivity.
Defined.

(** C9 on an example: minutes of seven characters are one page. *)
Lemma docx_pages_witness :
  fst (stat linux "/in/minutes.docx" minutes)
  = Return {| st_size := 2; st_birthtime := 0; st_mtime := 0 |} /\
  detectFormat linux "/in/minutes.docx" = "docx" /\
  fst (getDocumentInfo linux "/in/minutes.docx" minutes)
  = Return {| di_format := "docx"; di_size := 2; di_pages := Some 1%float;
              di_title := None; di_author := None;
              di_created := 0; di_modified := 0 |}.
Proof.
  assert (E1 : stat linux "/in/minutes.docx" minutes
               = (Return {| st_size := 2; st_birthtime := 0; st_mtime := 0 |},
                  snd (stat linux "/in/minutes.docx" minutes)))
    by (vm_compute; reflexivity).
  assert (E2 : detectFormat linux "/in/minutes.docx" = "docx")
    by (vm_compute; reflexivity).
  split; [vm_compute; reflexivity |]. split; [exact E2 |].
  destruct (docx_pages_estimated linux _ _ _ _ E1 E2) as [w' E].
  rewrite E. vm_compute. reflexivity.
Defined.



(* ===================================================================== *)
(** * The further properties on the example hosts                         *)
(* ===================================================================== *)

(** X3 on an example: a PNG photo. *)
Lemma detectors_agree_witness :
  one_of (detectFormat linux "/in/photo.png") imageFormats = true /\
  detectImageFormat linux "/in/photo.png" = "png".
Proof.
  assert (H : one_of (detectFormat linux "/in/photo.png") imageFormats = true)
    by (vm_compute; reflexivity).
  destruct (detectors_agree_on_images linux "/in/photo.png" H) as [K _].
  split; [exact H |]. rewrite K. vm_compute. reflexivity.
Defined.

(** X1 on an example: a note that is not there. *)
Lemma missing_input_witness :
  fs note !! "/in/none.txt" = None /\
  fst (convertDocument linux "/in/none.txt" "/out/none.md" "md" no_options note)
  = Return {| success := false; output_path := "/out/none.md";
              message :=
                "Conversion failed: Input file does not exist: /in/none.txt";
              metadata := None |} /\
  fs (snd (convertDocument linux "/in/none.txt" "/out/none.md" "md"
             no_options note)) !! "/out" = None.
Proof.
  assert (H : fs note !! "/in/none.txt" = None) by (vm_compute; reflexivity).
  destruct (missing_input_reported linux "/in/none.txt" "/out/none.md" "md"
              no_options no_image_options note H) as [K _].
  split; [exact H |]. rewrite K. split; vm_compute; reflexivity.
Defined.

(** X2 on an example: a photo handed to the document converter. *)
Lemma image_source_delegated_witness :
  one_of (detectFormat linux "/in/photo.png") imageFormats = true /\
  fs photo !! "/in/photo.png" <> None /\
  exists r w',
    convertDocument linux "/in/photo.png" "/out/photo.jpg" "jpg" no_options
      photo
    = (Return {| success := ir_success r; output_path := "/out/photo.jpg";
                 message := ir_message r;
                 metadata :=
                   Some {| original_size := ir_original_size r;
                           new_size := ir_new_size r;
                           compression_ratio := ir_compression_ratio r |} |},
       w').
Proof.
  assert (H1 : one_of (detectFormat linux "/in/photo.png") imageFormats = true)
    by (vm_compute; reflexivity).
  assert (H2 : fs photo !! "/in/photo.png" <> None)
    by (vm_compute; discriminate).
  assert (H3 : ensureDir linux (dirname linux "/out/photo.jpg")
                 (log (EvPathExists "/in/photo.png") photo)
               = (Return tt,
                  snd (ensureDir linux (dirname linux "/out/photo.jpg")
                         (log (EvPathExists "/in/photo.png") photo))))
    by (vm_compute; reflexivity).
  destruct (image_source_delegated linux "/in/photo.png" "/out/photo.jpg"
              "jpg" no_options photo _ H1 H2 H3) as (r & w' & _ & E & _).
  split; [exact H1 |]. split; [exact H2 |]. exists r, w'. exact E.
Defined.


(** X5 on an example: a report that is not there. *)
Lemma info_of_missing_file_witness :
  fs note !! "/in/none.pdf" = None /\
  exists e,
    getDocumentInfo linux "/in/none.pdf" note
    = (Throw e, log (EvStat "/in/none.pdf") note) /\
    getImageInfo linux "/in/none.pdf" note
    = (Throw e, log (EvStat "/in/none.pdf") note).
Proof.
  assert (H : fs note !! "/in/none.pdf" = None) by (vm_compute; reflexivity).
  destruct (info_of_missing_file_throws linux "/in/none.pdf" note H)
    as (e & _ & K1 & K2).
  split; [exact H |]. exists e. split; [exact K1 | exact K2].
Defined.

(** X6 on an example: a report of one page, without info dictionary. *)
Lemma pdf_info_witness :
  fst (stat linux "/in/report.pdf" report)
  = Return {| st_size := 8; st_birthtime := 0; st_mtime := 0 |} /\
  detectFormat linux "/in/report.pdf" = "pdf" /\
  fst (getDocumentInfo linux "/in/report.pdf" report)
  = Return {| di_format := "pdf"; di_size := 8; di_pages := Some 1%float;
              di_title := None; di_author := None;
              di_created := 0; di_modified := 0 |}.
Proof.
  assert (E1 : stat linux "/in/report.pdf" report
               = (Return {| st_size := 8; st_birthtime := 0; st_mtime := 0 |},
                  snd (stat linux "/in/report.pdf" report)))
    by (vm_compute; reflexivity).
  assert (E2 : detectFormat linux "/in/report.pdf" = "pdf")
    by (vm_compute; reflexivity).
  split; [vm_compute; reflexivity |]. split; [exact E2 |].
  destruct (pdf_info_reported linux _ _ _ _ E1 E2) as [w' E].
  rewrite E. vm_compute. reflexivity.
Defined.

(** X7 on an example: a photo sharp cannot describe and Jimp can. *)
Lemma image_document_info_witness :
  fst (stat linux "/in/photo.png" photo)
  = Return {| st_size := 10; st_birthtime := 0; st_mtime := 0 |} /\
  one_of (detectFormat linux "/in/photo.png") imageFormats = true /\
  fst (getDocumentInfo linux "/in/photo.png" photo)
  = Return {| di_format := "png"; di_size := 10; di_pages := Some 1%float;
              di_title := Some "photo"; di_author := None;
              di_created := 0; di_modified := 0 |}.
Proof.
  assert (E1 : fst (stat linux "/in/photo.png" photo)
               = Return {| st_size := 10; st_birthtime := 0; st_mtime := 0 |})
    by (vm_compute; reflexivity).
  assert (E2 : one_of (detectFormat linux "/in/photo.png") imageFormats = true)
    by (vm_compute; reflexivity).
  split; [exact E1 |]. split; [exact E2 |].
  destruct (image_document_info linux _ _ _ E1 E2) as [w' E].
  rewrite E. vm_compute. reflexivity.
Defined.


(** X13 on an example: a photo sharp cannot describe and Jimp can. *)
Lemma image_info_witness :
  fst (stat linux "/in/photo.png" photo)
  = Return {| st_size := 10; st_birthtime := 0; st_mtime := 0 |} /\
  fst (getImageInfo linux "/in/photo.png" photo)
  = Return {| ii_format := "png"; ii_width := 1; ii_height := 1;
              ii_channels := 4; ii_density := None; ii_hasAlpha := true;
              ii_size := 10; ii_colorSpace := None;
              ii_created := 0; ii_modified := 0 |}.
Proof.
  assert (E1 : fst (stat linux "/in/photo.png" photo)
               = Return {| st_size := 10; st_birthtime := 0; st_mtime := 0 |})
    by (vm_compute; reflexivity).
  split; [exact E1 |].
  pose proof (image_info_falls_back_to_jimp linux _ _ _ E1) as K.
  cbv zeta in K. rewrite K. vm_compute. reflexivity.
Defined.

(** X15 on an example: a drawing with a width and a watermark asked
    for; the watermark is not among the calls. *)
Lemma svg_source_witness :
  (detectImageFormat linux "/in/drawing.svg" === "svg") = true /\
  svg_calls "png" stamped
  = [SResize (Some 100%float) (Some 600%float) "inside" BgWhite;
     SPng 80 false] /\
  exists tried tail,
    trace (snd (processImage linux "/in/drawing.svg" "/out/drawing.png" "png"
                  stamped drawing_with_out))
    = (trace drawing_with_out ++ map EvSharp tried ++ tail)%list /\
    prefix tried (svg_calls "png" stamped).
Proof.
  assert (H : (detectImageFormat linux "/in/drawing.svg" === "svg") = true)
    by (vm_compute; reflexivity).
  destruct (svg_source_resized_and_encoded_only linux "/in/drawing.svg"
              "/out/drawing.png" "png" stamped drawing_with_out H)
    as [(tried & tail & Ht & Hp & _) _].
  split; [exact H |]. split; [vm_compute; reflexivity |].
  exists tried, tail. split; [exact Ht | exact Hp].
Defined.

(** X17 on an example: a directory with two images and a text file. *)
Lemma batch_listing_witness :
  fst (ensureDir linux "/out" photos) = Return tt /\
  fst (readdir linux "/in" (snd (ensureDir linux "/out" photos)))
  = Return ["c.gif"; "a.jpg"; "b.txt"] /\
  exists r w',
    batchConvertImages linux "/in" "/out" "png" no_image_options photos
    = (Return r, w') /\
    map ir_output_path (b_results r) = ["/out/c.png"; "/out/a.png"].
Proof.
  assert (E1 : ensureDir linux "/out" photos
               = (Return tt, snd (ensureDir linux "/out" photos)))
    by (vm_compute; reflexivity).
  assert (E2 : readdir linux "/in" (snd (ensureDir linux "/out" photos))
               = (Return ["c.gif"; "a.jpg"; "b.txt"],
                  snd (readdir linux "/in" (snd (ensureDir linux "/out" photos)))))
    by (vm_compute; reflexivity).
  split; [vm_compute; reflexivity |]. split; [vm_compute; reflexivity |].
  destruct (batch_results_follow_listing linux "/in" "/out" "png"
              no_image_options _ _ _ _ E1 E2)
    as (r & w' & E & Hm & _).
  exists r, w'. split; [exact E |]. rewrite Hm. vm_compute. reflexivity.
Defined.

(** X22 on an example: a note, a Markdown file and a picture; the two
    documents are converted, the picture is left out. *)
Lemma batch_command_witness :
  fs papers !! resolve linux ["/in"] <> None /\
  List.filter batch_selects ["note.txt"; "readme.md"; "photo.png"]
  = ["note.txt"; "readme.md"] /\
  exists results,
    fst (batch_action linux posix_name papers_to_txt (at_prompt papers))
    = Done tt /\
    successes results + failures results = 2.
Proof.
  assert (H1 : fs (world (at_prompt papers))
               !! resolve linux [arg_dir papers_to_txt] <> None)
    by (vm_compute; discriminate).
  assert (H2 : ensureDir linux (resolve linux [arg_out papers_to_txt])
                 (log (EvPathExists (resolve linux [arg_dir papers_to_txt]))
                      (world (at_prompt papers)))
               = (Return tt,
                  snd (ensureDir linux "/out" (log (EvPathExists "/in") papers))))
    by (vm_compute; reflexivity).
  assert (H3 : readdir linux (resolve linux [arg_dir papers_to_txt])
                 (snd (ensureDir linux "/out" (log (EvPathExists "/in") papers)))
               = (Return ["note.txt"; "readme.md"; "photo.png"],
                  snd (readdir linux "/in"
                         (snd (ensureDir linux "/out"
                                 (log (EvPathExists "/in") papers))))))
    by (vm_compute; reflexivity).
  assert (Hsel : List.filter batch_selects
                   ["note.txt"; "readme.md"; "photo.png"]
                 = ["note.txt"; "readme.md"])
    by (vm_compute; reflexivity).
  pose proof (batch_command_converts_each_document linux posix_name
                papers_to_txt (at_prompt papers) _ _ _ H1 H2 H3) as K.
  cbv zeta in K. rewrite Hsel in K.
  destruct K as (results & w' & _ & E & Hsum).
  split; [exact H1 |]. split; [exact Hsel |].
  exists results. rewrite E. split; [reflexivity | exact Hsum].
Defined.


(** ** Text beyond ASCII *)

(** The Kelvin sign lowers to [k], so that the extension [.marKdown]
    written with it is that of a Markdown file; other letters beyond
    ASCII keep their bytes. *)
Lemma kelvin_sign_lowered :
  JS.toLowerCase
    (".MAR" +:+ String (ascii_of_nat 226) (String (ascii_of_nat 132)
                  (String (ascii_of_nat 170) "DOWN")))
  = ".markdown" /\
  detectFormat linux
    ("/in/notes.mar" +:+ String (ascii_of_nat 226) (String (ascii_of_nat 132)
                           (String (ascii_of_nat 170) "down")))
  = "md" /\
  JS.toLowerCase (String (ascii_of_nat 195) (String (ascii_of_nat 137) "T"))
  = String (ascii_of_nat 195) (String (ascii_of_nat 137) "t").
Proof. vm_compute. repeat split. Qed.

(** A line made of a no-break space, a byte order mark, an ideographic
    space and a tab is emptied by [trim]; a line with a letter, or with
    a zero-width space (U+200B), is not. *)
Lemma unicode_spaces_are_blank :
  JS.blank (String (ascii_of_nat 194) (String (ascii_of_nat 160)
             (String (ascii_of_nat 239) (String (ascii_of_nat 187)
               (String (ascii_of_nat 191)
                 (String (ascii_of_nat 227) (String (ascii_of_nat 128)
                   (String (ascii_of_nat 128)
                     (String (ascii_of_nat 9) EmptyString)))))))))
  = true /\
  JS.blank " a " = false /\
  JS.blank (String (ascii_of_nat 226) (String (ascii_of_nat 128)
             (String (ascii_of_nat 139) EmptyString)))
  = false /\
  docx_paragraphs (String (ascii_of_nat 194) (String (ascii_of_nat 160)
                     EmptyString))
  = [ParaEmpty].
Proof. vm_compute. repeat split. Qed.

(** [ensureDir] makes the directories above the one it is asked for,
    and fails when one of them is a file. *)
Lemma ensureDir_makes_ancestors :
  directories_of linux "/out/2024/note.md" = ["/out/2024"; "/out"; "/"] /\
  fs (snd (ensureDir linux "/out/2024" note)) !! "/out" = Some Dir /\
  fs (snd (ensureDir linux "/out/2024" note)) !! "/out/2024" = Some Dir /\
  fst (ensureDir linux "/in/note.txt/sub" note)
  = Throw "ENOTDIR: not a directory, mkdir '/in/note.txt/sub'" /\
  writable linux note "/in/note.txt/sub/note.md" = false /\
  fst (convertDocument linux "/in/note.txt" "/in/note.txt/sub/note.md" "md"
         no_options note)
  = Return {| success := false; output_path := "/in/note.txt/sub/note.md";
              message :=
                "Conversion failed: ENOTDIR: not a directory, mkdir '/in/note.txt/sub'";
              metadata := None |}.
Proof. vm_compute. repeat split. Qed.
